(** * Evaluation harness of Devcode-Agent: localization metrics, faithfulness,
    taxonomy labels, suite runners and variant generation.

    Shallow embedding of [eval/metrics/*.py], [eval/runner/*.py] and
    [eval/utils/variants.py].

    Conventions of the embedding.
    - A Python [dict] with a fixed set of keys is a record; a key that may be
      missing (or hold a falsy value that the code replaces with a default,
      as in [d.get(k, []) or []]) is an [option] field.
    - Python [int] is [Z].  Python [float] values that the harness computes
      are quotients of integers; they are kept as exact rationals [Q] and
      compared with [Qeq], [Qlt] and [Qle].
    - Python [set] of strings is [gset string].
    - The regular-expression engine and the SUT process are outside the
      repository; they are parameters of the sections that use them. *)

From Stdlib Require Import ZArith QArith Qminmax Lia Ascii String DecimalString.
From Stdlib Require DecimalNat Finite.
From stdpp Require Import gmap strings list.

Open Scope string_scope.
Open Scope Z_scope.

(** ** Python helpers *)

(** [x or []] after [d.get(k, [])]: a missing or falsy list is the empty list. *)
Definition or_empty {A : Type} (o : option (list A)) : list A := default [] o.

(** Truthiness of a string-valued entry: [None] and [""] are falsy. *)
Definition truthy (o : option string) : bool :=
  match o with
  | Some s => negb (String.eqb s "")
  | None => false
  end.

(** [sub in s] on strings. *)
Fixpoint str_in (sub s : string) : bool :=
  String.prefix sub s ||
  match s with
  | EmptyString => false
  | String _ s' => str_in sub s'
  end.

(** Strict comparison of floats, [x < y]. *)
Definition Qltb (x y : Q) : bool := negb (Qle_bool y x).

(** [sum(xs)] over floats, left to right from [0]. *)
Definition py_sum (xs : list Q) : Q := fold_left Qplus xs 0%Q.

(** [min(xs)] for a non-empty list: the first minimal element. *)
Definition py_min (x : Q) (xs : list Q) : Q := fold_left Qmin xs x.

(** ** Data model (spec section 3) *)

Definition line_range : Type := Z * Z.

Record Answer := mkAnswer {
  a_paths : option (list string);
  a_line_ranges : option (list line_range);
  a_quotes : option (list string);
  a_rationale : option string }.

Definition empty_answer : Answer := mkAnswer None None None None.

Record Citation := mkCitation {
  c_path : option string;
  c_start : option Z;
  c_end : option Z }.

Record Timing := mkTiming { latency_ms : option Z }.

Record Tokens := mkTokens {
  tok_in : option Z;
  tok_out : option Z;
  tok_context : option Z }.

Record Prediction := mkPrediction {
  p_answer : option Answer;
  p_citations : option (list Citation);
  p_timing : option Timing;
  p_tokens : option Tokens;
  p_error : option string;
  p_raw : option string }.

Record Anchor := mkAnchor { an_path : option string; an_symbol : option string }.

Record ExampleQuote := mkExampleQuote {
  ex_path : option string;
  ex_start : option Z;
  ex_end : option Z }.

Record Provenance := mkProvenance {
  pv_from_task : option string;
  pv_method : option string;
  pv_repo : option string;
  pv_commit : option string }.

Record Golden := mkGolden {
  g_task_id : option string;
  g_symbol : option string;
  g_paths : option (list string);
  g_line_ranges : option (list line_range);
  g_quotes : option (list string);
  g_checklist : option (list string);
  g_required_anchors : option (list Anchor);
  g_example_quotes : option (list ExampleQuote);
  g_forbidden_claims : option (list string);
  g_provenance : option Provenance;
  g_notes : option string }.

(** [goldens.get(tid, {})]: the golden of a task without one. *)
Definition empty_golden : Golden :=
  mkGolden None None None None None None None None None None None.

Record Inputs := mkInputs { in_symbol : option string }.

Record Constraints := mkConstraints {
  must_cite : bool;
  exclude_dirs : list string }.

Record Acceptance := mkAcceptance {
  ac_paths : list string;
  ac_line_ranges : list line_range;
  ac_checklist : list string }.

Record Task := mkTask {
  t_id : option string;
  t_workflow : option string;
  t_inputs : option Inputs;
  t_constraints : option Constraints;
  t_acceptance : option Acceptance;
  t_tags : option (list string) }.

(** ** [eval/runner/config.py] *)

Module Config.

Record W1Thresholds := mkW1 {
  path_match_required : bool;
  line_iou_min : Q;
  require_symbol_match : bool;
  faithfulness_required : bool }.

Record CanaryThresholds := mkCanary { require_100_percent : bool }.

Record Thresholds := mkThresholds { w1 : W1Thresholds; canary : CanaryThresholds }.

Record LatencyCostSLO := mkSLO {
  p95_latency_ms : Z;
  max_tokens_in : Z;
  max_tokens_out : Z;
  max_context_tokens : Z }.

Record RunCfg := mkRunCfg { fail_fast_on_canary : bool }.

Record SutCLI := mkSutCLI {
  cmd : string;
  extra_args : list string;
  timeout_s : Z }.

Record EvalConfig := mkEvalConfig {
  thresholds : Thresholds;
  latency_cost_slo : LatencyCostSLO;
  run : RunCfg;
  sut_cli : SutCLI }.

(** The dataclass defaults. *)
Definition default_w1 : W1Thresholds := mkW1 true (6 # 10) true true.
Definition default_slo : LatencyCostSLO := mkSLO 5000 20000 4000 50000.
Definition default_sut_cli : SutCLI := mkSutCLI "python -m api.query_agent" [] 60.
Definition default_config : EvalConfig :=
  mkEvalConfig (mkThresholds default_w1 (mkCanary true)) default_slo (mkRunCfg true)
    default_sut_cli.

End Config.

(** ** [eval/metrics/localization.py] *)

Module Localization.

Definition _iou (a b : line_range) : Q :=
  let '(as_, ae) := a in
  let '(bs, be) := b in
  let inter := Z.max 0 (Z.min ae be - Z.max as_ bs) in
  let union := (Z.max (ae - as_) 0 + Z.max (be - bs) 0 - inter)%Z in
  if (union >? 0)%Z then (inject_Z inter / inject_Z union)%Q else 0%Q.

Definition path_match_all_only (pred_paths golden_paths : list string) : Z :=
  let set_pred : gset string := list_to_set pred_paths in
  let set_gold : gset string := list_to_set golden_paths in
  if bool_decide (set_pred = set_gold) then 1 else 0.

Record IouScores := mkIouScores {
  per_pair : list Q;
  avg : Q;
  min : Q }.

(** The inner loop of [line_iou_scores]: [best = max(best, _iou(p, g))]. *)
Definition best_iou (p : line_range) (golden_line_ranges : list line_range) : Q :=
  fold_left (fun best g => Qmax best (_iou p g)) golden_line_ranges 0%Q.

Definition line_iou_scores (pred_line_ranges golden_line_ranges : list line_range)
  : IouScores :=
  match pred_line_ranges, golden_line_ranges with
  | [], _ | _, [] => mkIouScores [] 0 0
  | _, _ =>
      let pairs := map (fun p => best_iou p golden_line_ranges) pred_line_ranges in
      let avg :=
        match pairs with
        | [] => 0%Q
        | _ => (py_sum pairs / inject_Z (Z.of_nat (length pairs)))%Q
        end in
      let mn :=
        match pairs with
        | [] => 0%Q
        | x :: xs => py_min x xs
        end in
      mkIouScores pairs avg mn
  end.

Record SymbolPresence := mkSymbolPresence {
  sp_symbol_match : Z;
  sp_symbol_presence_rate : Q }.

Record LocResult := mkLocResult {
  path_match : Z;
  line_iou_avg : Q;
  line_iou_min : Q;
  symbol_match : Z;
  symbol_presence_rate : Q }.

Section WithRegex.

(** [pat_search symbol q]: [_symbol_regex(symbol).search(q)] finds a match.
    [_symbol_regex] compiles the symbol with Python's [re], falling back to
    the escaped literal; the engine is not part of the repository. *)
Variable pat_search : string -> string -> bool.

Definition symbol_presence (pred_paths quotes : list string) (inputs : Inputs)
  : SymbolPresence :=
  if truthy (in_symbol inputs) then
    let symbol := default "" (in_symbol inputs) in
    match pred_paths with
    | [] => mkSymbolPresence 0 0
    | _ =>
        let present_any := existsb (pat_search symbol) quotes in
        let rate := if present_any then 1%Q else 0%Q in
        mkSymbolPresence (if Qeq_bool rate 1 then 1 else 0) rate
    end
  else mkSymbolPresence 1 1.

Definition evaluate_localization (pred_answer : Answer) (golden : Golden)
    (inputs : Inputs) : LocResult :=
  let pred_paths := or_empty (a_paths pred_answer) in
  let pred_ranges := or_empty (a_line_ranges pred_answer) in
  let gold_paths := or_empty (g_paths golden) in
  let gold_ranges := or_empty (g_line_ranges golden) in
  let pm := path_match_all_only pred_paths gold_paths in
  let ious := line_iou_scores pred_ranges gold_ranges in
  let sym := symbol_presence pred_paths (or_empty (a_quotes pred_answer)) inputs in
  mkLocResult pm (avg ious) (min ious) (sp_symbol_match sym)
    (sp_symbol_presence_rate sym).

End WithRegex.

End Localization.

(** ** [eval/metrics/faithfulness.py] *)

Module Faithfulness.

Definition REASON_OK := "ok".
Definition REASON_CITE_MISSING := "cite_missing".
Definition REASON_CITE_IRRELEVANT := "cite_irrelevant".
Definition REASON_NO_QUOTES := "no_quotes".

Record FaithResult := mkFaith {
  faithful : Z;
  faithfulness_reason : string }.

(** [{c.get("path") for c in citations if c.get("path")}] *)
Definition citation_paths (citations : list Citation) : gset string :=
  list_to_set (omap (fun c => if truthy (c_path c) then c_path c else None) citations).

Definition evaluate_faithfulness (answer : Answer) (citations : list Citation)
  : FaithResult :=
  let paths := or_empty (a_paths answer) in
  let quotes := or_empty (a_quotes answer) in
  match citations with
  | [] => mkFaith 0 REASON_CITE_MISSING
  | _ =>
      let c_paths := citation_paths citations in
      if match paths with [] => false | _ => true end
         && bool_decide ((list_to_set paths : gset string) ∩ c_paths = ∅)
      then mkFaith 0 REASON_CITE_IRRELEVANT
      else
        match quotes with
        | [] => mkFaith 0 REASON_NO_QUOTES
        | _ => mkFaith 1 REASON_OK
        end
  end.

End Faithfulness.

(** ** [eval/metrics/taxonomy.py] *)

Module Taxonomy.

Import Localization Faithfulness.

Definition LABEL_WRONG_PATH := "wrong_path".
Definition LABEL_MISSING_PATH := "missing_path".
Definition LABEL_WRONG_LINE := "wrong_line".
Definition LABEL_SYMBOL_ABSENT := "symbol_absent".
Definition LABEL_CITE_MISSING := "cite_missing".
Definition LABEL_CITE_IRRELEVANT := "cite_irrelevant".
Definition LABEL_REEXPORT_ONLY := "reexport_only".
Definition LABEL_VENDOR_HIT := "vendor_hit".
Definition LABEL_TEST_INSTEAD_OF_SRC := "test_instead_of_src".
Definition LABEL_LATENCY_SLO := "latency_slo".
Definition LABEL_COST_SLO := "cost_slo".
Definition LABEL_ANCHORS_MISSING := "anchors_missing".
Definition LABEL_ANCHORS_UNFAITHFUL := "anchors_unfaithful".
Definition LABEL_FORBIDDEN_CLAIM := "forbidden_claim".
Definition LABEL_OK := "ok".

(** The [thresholds] / [slo] dict that both runners build with all five
    (respectively four) keys, so the [.get] defaults of the mappers are never
    taken; [line_iou_min] is unused by [map_w2_labels]. *)
Record LabelThresholds := mkLabelThresholds {
  th_line_iou_min : Q;
  th_p95_latency_ms : Z;
  th_max_tokens_in : Z;
  th_max_tokens_out : Z;
  th_max_context_tokens : Z }.

Record Labels := mkLabels {
  primary : string;
  secondary : list string }.

(** [primary or label] where [primary] is [None] or an earlier label. *)
Definition or_label (primary : option string) (label : string) : option string :=
  if truthy primary then primary else Some label.

(** [secondary.append(label)] under a condition. *)
Definition append_if (c : bool) (label : string) (secondary : list string) : list string :=
  if c then (secondary ++ [label])%list else secondary.

Definition pred_latency (pred : Prediction) : Z :=
  default 0 (latency_ms (default (mkTiming None) (p_timing pred))).

Definition pred_tokens (pred : Prediction) : Tokens :=
  default (mkTokens None None None) (p_tokens pred).

(** The two SLO checks shared by [map_labels] and [map_w2_labels]. *)
Definition latency_slo_hit (pred : Prediction) (thresholds : LabelThresholds) : bool :=
  let lat := pred_latency pred in
  negb (lat =? 0)%Z && (lat >? th_p95_latency_ms thresholds)%Z.

Definition cost_slo_hit (pred : Prediction) (thresholds : LabelThresholds) : bool :=
  let tok := pred_tokens pred in
  (default 0 (tok_in tok) >? th_max_tokens_in thresholds)%Z
  || (default 0 (tok_out tok) >? th_max_tokens_out thresholds)%Z
  || (default 0 (tok_context tok) >? th_max_context_tokens thresholds)%Z.

Definition map_labels (pred : Prediction) (gold : Golden) (localization : LocResult)
    (faithfulness : FaithResult) (thresholds : LabelThresholds) : Labels :=
  let primary : option string := None in
  let secondary : list string := [] in
  let ppaths : gset string :=
    list_to_set (or_empty (a_paths (default empty_answer (p_answer pred)))) in
  let gpaths : gset string := list_to_set (or_empty (g_paths gold)) in
  let primary :=
    if bool_decide (ppaths = ∅) then or_label primary LABEL_MISSING_PATH
    else if bool_decide (gpaths ≠ ∅) && bool_decide (ppaths ≠ gpaths)
         then or_label primary LABEL_WRONG_PATH
         else primary in
  (* Lines *)
  let primary :=
    if Qltb (line_iou_min localization) (th_line_iou_min thresholds)
    then or_label primary LABEL_WRONG_LINE
    else primary in
  (* Symbol *)
  let secondary :=
    append_if (symbol_match localization =? 0)%Z LABEL_SYMBOL_ABSENT secondary in
  (* Faithfulness *)
  let reason := faithfulness_reason faithfulness in
  let secondary :=
    if String.eqb reason "cite_missing" then (secondary ++ [LABEL_CITE_MISSING])%list
    else if String.eqb reason "cite_irrelevant" then (secondary ++ [LABEL_CITE_IRRELEVANT])%list
    else secondary in
  (* Heuristics *)
  let secondary :=
    append_if
      (existsb (fun p => str_in "/vendor/" p || str_in "third_party" p) (elements ppaths))
      LABEL_VENDOR_HIT secondary in
  let secondary :=
    append_if
      (existsb (fun p => str_in "/test" p || str_in "/tests/" p) (elements ppaths))
      LABEL_TEST_INSTEAD_OF_SRC secondary in
  (* SLOs *)
  let secondary := append_if (latency_slo_hit pred thresholds) LABEL_LATENCY_SLO secondary in
  let secondary := append_if (cost_slo_hit pred thresholds) LABEL_COST_SLO secondary in
  let default_primary :=
    if bool_decide (gpaths ≠ ∅) then LABEL_OK else LABEL_MISSING_PATH in
  mkLabels (default default_primary (or_label primary default_primary)) secondary.

Definition map_w2_labels (forbidden_hit : bool)
    (anchors_found anchors_faithful anchors_required : Z)
    (slo : LabelThresholds) (pred : Prediction) : Labels :=
  let primary := LABEL_OK in
  let secondary : list string := [] in
  let primary :=
    if (anchors_found <? anchors_required)%Z then LABEL_ANCHORS_MISSING
    else if (anchors_faithful <? anchors_required)%Z then LABEL_ANCHORS_UNFAITHFUL
    else primary in
  let primary := if forbidden_hit then LABEL_FORBIDDEN_CLAIM else primary in
  let secondary := append_if (latency_slo_hit pred slo) LABEL_LATENCY_SLO secondary in
  let secondary := append_if (cost_slo_hit pred slo) LABEL_COST_SLO secondary in
  mkLabels primary secondary.

End Taxonomy.

(** ** [eval/runner/common.py] *)

Module Common.

(** What [subprocess.run(argv, ..., timeout=timeout_s)] does inside
    [call_sut], together with the invoker's own clock reading
    [int((time.time() - start) * 1000)] taken right after it: the process
    either runs out of time ([subprocess.TimeoutExpired] is raised) or ends
    with the stripped standard output [out]. *)
Inductive proc_outcome :=
  | TimeoutExpired (elapsed_ms : Z)
  | Completed (out : string) (elapsed_ms : Z).

Definition _normalize_timing_tokens (resp : Prediction) (fallback_latency_ms : Z)
  : Prediction :=
  (* resp.setdefault("timing", {}); resp["timing"].setdefault("latency_ms", ...) *)
  let timing := default (mkTiming None) (p_timing resp) in
  let timing := mkTiming (Some (default fallback_latency_ms (latency_ms timing))) in
  (* resp.setdefault("tokens", {}); in / out / context default to 0 *)
  let tokens := default (mkTokens None None None) (p_tokens resp) in
  let tokens :=
    mkTokens (Some (default 0 (tok_in tokens))) (Some (default 0 (tok_out tokens)))
      (Some (default 0 (tok_context tokens))) in
  mkPrediction (p_answer resp) (p_citations resp) (Some timing) (Some tokens)
    (p_error resp) (p_raw resp).

(** The literal [{}]. *)
Definition empty_prediction : Prediction := mkPrediction None None None None None None.

(** The literal [{"error": "timeout"}]. *)
Definition timeout_body : Prediction :=
  mkPrediction None None None None (Some "timeout") None.

Section WithSUT.

(** The world outside the harness.  [subprocess_run n task timeout_s cmd
    extra_args] is the outcome of the [n]-th process the harness starts, on
    the temporary file holding [task]; [json_loads out] is [None] when
    [json.loads(out)] raises.  A process that cannot be started at all, and
    output that parses to something other than an object, are left out of
    the model. *)
Variable subprocess_run : nat -> Task -> Z -> string -> list string -> proc_outcome.
Variable json_loads : string -> option Prediction.

(** [call_sut] in state-passing style: the state is the number of processes
    started so far. *)
Definition call_sut (task : Task) (timeout_s : Z) (cmd : string)
    (extra_args : list string) (n : nat) : Prediction * nat :=
  match subprocess_run n task timeout_s cmd extra_args with
  | TimeoutExpired elapsed_ms =>
      (_normalize_timing_tokens timeout_body elapsed_ms, S n)
  | Completed out latency_ms =>
      let resp :=
        if String.eqb out "" then empty_prediction
        else
          match json_loads out with
          | Some resp => resp
          | None => mkPrediction None None None None None (Some out)
          end in
      (_normalize_timing_tokens resp latency_ms, S n)
  end.

End WithSUT.

End Common.

(** ** [eval/runner/run_localization.py] *)

Module RunLocalization.

Import Config Localization Faithfulness Taxonomy Common.

Record EvalResult := mkEvalResult {
  passed : Z;
  loc : LocResult;
  faith : FaithResult;
  labels : Labels }.

Record Row := mkRow {
  r_task_id : option string;
  r_path_match : Z;
  r_line_iou_avg : Q;
  r_line_iou_min : Q;
  r_symbol_match : Z;
  r_symbol_presence_rate : Q;
  r_faithful : Z;
  r_faithfulness_reason : string;
  r_label_primary : string;
  r_label_secondary : string;
  r_latency_ms : Z;
  r_tokens_in : Z;
  r_tokens_out : Z;
  r_context_tokens : Z;
  r_passed : Z }.

Section WithWorld.

Variable pat_search : string -> string -> bool.
Variable subprocess_run : nat -> Task -> Z -> string -> list string -> proc_outcome.
Variable json_loads : string -> option Prediction.

Definition _evaluate_task (task : Task) (prediction : Prediction) (golden : Golden)
    (cfg : EvalConfig) : EvalResult :=
  let ans := default empty_answer (p_answer prediction) in
  let loc :=
    evaluate_localization pat_search ans golden
      (default (mkInputs None) (t_inputs task)) in
  let faith := evaluate_faithfulness ans (or_empty (p_citations prediction)) in
  let labels :=
    map_labels prediction golden loc faith
      (mkLabelThresholds
         (Config.line_iou_min (w1 (thresholds cfg)))
         (p95_latency_ms (latency_cost_slo cfg))
         (max_tokens_in (latency_cost_slo cfg))
         (max_tokens_out (latency_cost_slo cfg))
         (max_context_tokens (latency_cost_slo cfg))) in
  let passed := 1 in
  let passed :=
    if path_match_required (w1 (thresholds cfg)) && negb (path_match loc =? 1)
    then 0 else passed in
  let passed :=
    if Qltb (Localization.line_iou_min loc) (Config.line_iou_min (w1 (thresholds cfg)))
    then 0 else passed in
  let passed :=
    if require_symbol_match (w1 (thresholds cfg)) && negb (symbol_match loc =? 1)
    then 0 else passed in
  let passed :=
    if faithfulness_required (w1 (thresholds cfg)) && negb (faithful faith =? 1)
    then 0 else passed in
  mkEvalResult passed loc faith labels.

(** [_run_suite] on the loaded task list and golden map (the source loads
    both from the given directories first). *)
Fixpoint _run_suite (tasks : list Task) (goldens : gmap string Golden)
    (cfg : EvalConfig) (n : nat) : list Row * nat :=
  match tasks with
  | [] => ([], n)
  | task :: tasks' =>
      let tid := t_id task in
      let gold := default empty_golden (tid ≫= (goldens !!.)) in
      let '(pred, n) :=
        call_sut subprocess_run json_loads task (timeout_s (sut_cli cfg))
          (cmd (sut_cli cfg)) (extra_args (sut_cli cfg)) n in
      let evald := _evaluate_task task pred gold cfg in
      let row :=
        mkRow tid
          (path_match (loc evald))
          (line_iou_avg (loc evald))
          (Localization.line_iou_min (loc evald))
          (symbol_match (loc evald))
          (symbol_presence_rate (loc evald))
          (faithful (faith evald))
          (faithfulness_reason (faith evald))
          (primary (labels evald))
          (String.concat "," (secondary (labels evald)))
          (pred_latency pred)
          (default 0 (tok_in (pred_tokens pred)))
          (default 0 (tok_out (pred_tokens pred)))
          (default 0 (tok_context (pred_tokens pred)))
          (passed evald) in
      let '(rows, n) := _run_suite tasks' goldens cfg n in
      (row :: rows, n)
  end.

End WithWorld.

(** [sum(1 for r in rows if c(r)) / max(len(rows), 1)] *)
Definition rate (c : Row -> bool) (rows : list Row) : Q :=
  (inject_Z (Z.of_nat (length (List.filter c rows)))
   / inject_Z (Z.max (Z.of_nat (length rows)) 1))%Q.

(** The numbers that [_print_cli_summary] formats on its summary line
    (before rounding with [:.2f]); [None] when it prints [No tasks.]. *)
Record CliSummary := mkCliSummary {
  cli_accuracy : Q;
  cli_faithfulness_rate : Q;
  cli_avg_iou : Q }.

Definition _print_cli_summary (rows : list Row) : option CliSummary :=
  match rows with
  | [] => None
  | _ =>
      let accuracy :=
        rate (fun r => (r_path_match r =? 1) && (r_faithful r =? 1)) rows in
      let avg_iou :=
        (py_sum (map r_line_iou_avg rows)
         / inject_Z (Z.max (Z.of_nat (length rows)) 1))%Q in
      Some (mkCliSummary accuracy (rate (fun r => r_faithful r =? 1) rows) avg_iou)
  end.

(** The entries of the [summary] dict of [main] that are computed from the
    rows alone (latency percentiles and the per-kind breakdown are left out). *)
Record Summary := mkSummary {
  num_tasks : nat;
  accuracy_localization : Q;
  faithfulness_rate : Q;
  s_line_iou_avg : Q;
  canary_pass : bool }.

Definition summary (rows : list Row) (gate_code : Z) : Summary :=
  mkSummary (length rows)
    (rate (fun r => negb (r_passed r =? 0)) rows)
    (rate (fun r => r_faithful r =? 1) rows)
    (py_sum (map r_line_iou_avg rows) / inject_Z (Z.max (Z.of_nat (length rows)) 1))%Q
    (gate_code =? 0).

(** *** The canary gate *)

(** Python's [str(x)] of a task id inside an f-string. *)
Definition str_of_id (tid : option string) : string := default "None" tid.

(** One [print] call of [assert_canary_gate]. *)
Inductive GateMsg :=
  | MsgRunning
  | MsgCanaries (count : nat) (line_iou_min : Q)
  | MsgFailed
  | MsgFailure (f : string)
  | MsgPassed.

(** The [checks] list built for one row. *)
Definition gate_checks (cfg : EvalConfig) (r : Row) : list string :=
  let checks : list string := [] in
  let checks :=
    append_if (path_match_required (w1 (thresholds cfg)) && negb (r_path_match r =? 1))
      "path_match" checks in
  let checks :=
    append_if (Qltb (r_line_iou_min r) (Config.line_iou_min (w1 (thresholds cfg))))
      "line_iou_min" checks in
  let checks :=
    append_if (require_symbol_match (w1 (thresholds cfg)) && negb (r_symbol_match r =? 1))
      "symbol_match" checks in
  let checks :=
    append_if (faithfulness_required (w1 (thresholds cfg)) && negb (r_faithful r =? 1))
      "faithful" checks in
  checks.

(** The [failures] list: one entry per row with a non-empty [checks]. *)
Fixpoint gate_failures (cfg : EvalConfig) (rows : list Row) : list string :=
  match rows with
  | [] => []
  | r :: rows' =>
      match gate_checks cfg r with
      | [] => gate_failures cfg rows'
      | checks =>
          (str_of_id (r_task_id r) ++ ": fail(" ++ String.concat "," checks ++ ")")
            :: gate_failures cfg rows'
      end
  end.

(** The part of [assert_canary_gate] after the canary rows are there:
    exit code and printed messages. *)
Definition gate_verdict (cfg : EvalConfig) (rows : list Row) : Z * list GateMsg :=
  let header := [MsgRunning; MsgCanaries (length rows) (Config.line_iou_min (w1 (thresholds cfg)))] in
  let failures := gate_failures cfg rows in
  if require_100_percent (canary (thresholds cfg))
     && match failures with [] => false | _ => true end
  then (1, (header ++ MsgFailed :: map MsgFailure failures)%list)
  else (0, (header ++ [MsgPassed])%list).

Section GateWithWorld.

Variable pat_search : string -> string -> bool.
Variable subprocess_run : nat -> Task -> Z -> string -> list string -> proc_outcome.
Variable json_loads : string -> option Prediction.

(** [assert_canary_gate] on the loaded canary tasks and goldens. *)
Definition assert_canary_gate (canary_tasks : list Task) (goldens : gmap string Golden)
    (cfg : EvalConfig) (n : nat) : (Z * list GateMsg) * nat :=
  let '(rows, n) :=
    _run_suite pat_search subprocess_run json_loads canary_tasks goldens cfg n in
  (gate_verdict cfg rows, n).

End GateWithWorld.

End RunLocalization.

(** ** [eval/runner/run_change_impact.py] *)

Module RunChangeImpact.

Import Config Localization Faithfulness Taxonomy Common.

(** IoU between the quote range and the best cited range. *)
Definition _anchor_line_iou (cited_ranges : list line_range) (quote_range : line_range)
  : Q :=
  min (line_iou_scores [quote_range] cited_ranges).

Record Core := mkCore {
  faith : FaithResult;
  anchors_required : Z;
  anchors_found : Z;
  anchor_coverage : Q;
  anchors_faithful : Z;
  anchor_faithful_rate : Q;
  forbidden_hit : Z }.

(** [(int(x.get("start", 0)), int(x.get("end", 0)))] *)
Definition range_of (s e : option Z) : line_range := (default 0 s, default 0 e).

(** The body of the loop over [required], on the two counters
    [(anchors_found, anchors_faithful)]; a [continue] leaves the rest of the
    body out, the two nested loops with [break] are the two [existsb]. *)
Definition anchor_step (ans : Answer) (citations : list Citation) (golden : Golden)
    (cfg : EvalConfig) (counters : Z * Z) (req : Anchor) : Z * Z :=
  let '(anchors_found, anchors_faithful) := counters in
  let path := an_path req in
  let symbol := an_symbol req in
  (* find citation for this path *)
  let cited := List.filter (fun c => bool_decide (c_path c = path)) citations in
  match cited with
  | [] => (anchors_found, anchors_faithful)
  | _ =>
      let anchors_found := anchors_found + 1 in
      (* symbol check in rationale text *)
      if truthy symbol && negb (str_in (default "" symbol) (default "" (a_rationale ans)))
      then (anchors_found, anchors_faithful)
      else
        (* try to match any example quote line range *)
        let examples := or_empty (g_example_quotes golden) in
        let examples_for_path :=
          List.filter (fun q => bool_decide (ex_path q = path)) examples in
        let faith_ok :=
          existsb
            (fun ex =>
               let qr := range_of (ex_start ex) (ex_end ex) in
               existsb
                 (fun c =>
                    let cr := range_of (c_start c) (c_end c) in
                    Qle_bool (Config.line_iou_min (w1 (thresholds cfg)))
                      (_anchor_line_iou [cr] qr))
                 cited)
            examples_for_path in
        if faith_ok then (anchors_found, anchors_faithful + 1)
        else (anchors_found, anchors_faithful)
  end.

Definition _deterministic_core (task : Task) (pred : Prediction) (golden : Golden)
    (cfg : EvalConfig) : Core :=
  let ans := default empty_answer (p_answer pred) in
  let citations := or_empty (p_citations pred) in
  let faith := evaluate_faithfulness ans citations in
  let required := or_empty (g_required_anchors golden) in
  let '(anchors_found, anchors_faithful) :=
    fold_left (anchor_step ans citations golden cfg) required (0, 0) in
  (* Forbidden claims *)
  let forbidden :=
    existsb
      (fun claim =>
         negb (String.eqb claim "") && str_in claim (default "" (a_rationale ans)))
      (or_empty (g_forbidden_claims golden)) in
  let anchors_required := Z.of_nat (length required) in
  let coverage :=
    if (anchors_required =? 0) then 0%Q
    else (inject_Z anchors_found / inject_Z anchors_required)%Q in
  let faith_rate :=
    if (anchors_required =? 0) then 0%Q
    else (inject_Z anchors_faithful / inject_Z anchors_required)%Q in
  mkCore faith anchors_required anchors_found coverage anchors_faithful faith_rate
    (if forbidden then 1 else 0).

(** The [faithful_overall] flag that [main] computes for each task. *)
Definition faithful_overall (core : Core) (cfg : EvalConfig) : Z :=
  if Qeq_bool (anchor_faithful_rate core) 1
     && (forbidden_hit core =? 0)
     && ((faithful (faith core) =? 1)
         || negb (faithfulness_required (w1 (thresholds cfg))))
  then 1 else 0.

Record W2Row := mkW2Row {
  w2_task_id : option string;
  w2_anchors_required : Z;
  w2_anchors_found : Z;
  w2_anchor_coverage : Q;
  w2_anchors_faithful : Z;
  w2_anchor_faithful_rate : Q;
  w2_forbidden_hit : Z;
  w2_faithful_overall : Z;
  w2_label_primary : string;
  w2_label_secondary : string }.

Section WithSUT.

Variable subprocess_run : nat -> Task -> Z -> string -> list string -> proc_outcome.
Variable json_loads : string -> option Prediction.

(** The task loop of [main], on the loaded tasks and goldens (the judge stub
    columns, latency and token columns are left out of the row). *)
Fixpoint main (tasks : list Task) (goldens : gmap string Golden) (cfg : EvalConfig)
    (n : nat) : list W2Row * nat :=
  match tasks with
  | [] => ([], n)
  | task :: tasks' =>
      let gold := default empty_golden (t_id task ≫= (goldens !!.)) in
      let '(pred, n) :=
        call_sut subprocess_run json_loads task (timeout_s (sut_cli cfg))
          (cmd (sut_cli cfg)) (extra_args (sut_cli cfg)) n in
      let core := _deterministic_core task pred gold cfg in
      let overall := faithful_overall core cfg in
      let labels :=
        map_w2_labels (negb (forbidden_hit core =? 0)) (anchors_found core)
          (anchors_faithful core) (anchors_required core)
          (mkLabelThresholds 0
             (p95_latency_ms (latency_cost_slo cfg))
             (max_tokens_in (latency_cost_slo cfg))
             (max_tokens_out (latency_cost_slo cfg))
             (max_context_tokens (latency_cost_slo cfg)))
          pred in
      let row :=
        mkW2Row (t_id task) (anchors_required core) (anchors_found core)
          (anchor_coverage core) (anchors_faithful core) (anchor_faithful_rate core)
          (forbidden_hit core) overall (primary labels)
          (String.concat "," (secondary labels)) in
      let '(rows, n) := main tasks' goldens cfg n in
      (row :: rows, n)
  end.

End WithSUT.

End RunChangeImpact.

(** ** [eval/utils/variants.py] *)

Module Variants.

(** *** String helpers of Python's [str], on ASCII text *)

Definition is_lower (c : ascii) : bool :=
  let n := nat_of_ascii c in (97 <=? n)%nat && (n <=? 122)%nat.

Definition is_upper (c : ascii) : bool :=
  let n := nat_of_ascii c in (65 <=? n)%nat && (n <=? 90)%nat.

Fixpoint str_map (f : ascii -> ascii) (s : string) : string :=
  match s with
  | EmptyString => EmptyString
  | String c s' => String (f c) (str_map f s')
  end.

Fixpoint str_any (f : ascii -> bool) (s : string) : bool :=
  match s with
  | EmptyString => false
  | String c s' => f c || str_any f s'
  end.

Definition upper (s : string) : string :=
  str_map (fun c => if is_lower c then ascii_of_nat (nat_of_ascii c - 32) else c) s.

Definition lower (s : string) : string :=
  str_map (fun c => if is_upper c then ascii_of_nat (nat_of_ascii c + 32) else c) s.

(** [s[n:]] *)
Definition str_drop (n : nat) (s : string) : string :=
  String.substring n (String.length s - n) s.

Definition endswith (s suffix : string) : bool :=
  (String.length suffix <=? String.length s)%nat
  && String.eqb (str_drop (String.length s - String.length suffix) s) suffix.

(** [s.replace(old, new)] for a non-empty [old]: every occurrence, left to
    right, without overlap. *)
Fixpoint replace_from (fuel : nat) (old new s : string) : string :=
  match fuel with
  | O => s
  | S fuel' =>
      if String.prefix old s
      then new ++ replace_from fuel' old new (str_drop (String.length old) s)
      else
        match s with
        | EmptyString => EmptyString
        | String c s' => String c (replace_from fuel' old new s')
        end
  end.

Definition replace (s old new : string) : string :=
  replace_from (S (String.length s)) old new s.

(** [s.split('/')] *)
Fixpoint split_slash (s : string) : list string :=
  match s with
  | EmptyString => [EmptyString]
  | String c s' =>
      if Ascii.eqb c "/"%char then EmptyString :: split_slash s'
      else
        match split_slash s' with
        | h :: t => String c h :: t
        | [] => [String c EmptyString]
        end
  end.

(** *** The five transforms *)

Definition case_toggle (symbol : string) : string :=
  if String.eqb symbol "" then symbol
  else if str_any is_lower symbol then upper symbol else lower symbol.

Definition add_reexport_layer (path : string) : string :=
  if String.eqb path "" then path
  else
    let parts := split_slash path in
    if (length parts <? 2)%nat then path
    else
      let dir_part := String.concat "/" (removelast parts) in
      dir_part ++ "/index.c".

Definition test_shadow (path : string) : string :=
  if String.eqb path "" then path else "tests/" ++ path.

Definition vendor_shadow (path : string) : string :=
  if String.eqb path "" then path else "vendor/" ++ path.

Definition near_name (symbol : string) : string :=
  if String.eqb symbol "" then symbol
  else if endswith symbol "_display" then replace symbol "_display" "_displays"
  else if endswith symbol "_create" then replace symbol "_create" "_creates"
  else if endswith symbol "_init" then replace symbol "_init" "_inits"
  else if negb (endswith symbol "s") then symbol ++ "s" else symbol.

(** The [methods] table of [generate_variants]. *)
Definition methods (kind : string) : option (string -> string) :=
  if String.eqb kind "case" then Some case_toggle
  else if String.eqb kind "reexport" then Some add_reexport_layer
  else if String.eqb kind "test" then Some test_shadow
  else if String.eqb kind "vendor" then Some vendor_shadow
  else if String.eqb kind "nearname" then Some near_name
  else None.

(** *** Variant task and golden *)

Definition generate_variant_task (source_golden : Golden) (variant_id kind : string)
    (method_func : string -> string) : Task :=
  let source_symbol := default "" (g_symbol source_golden) in
  let modified_symbol :=
    if String.eqb source_symbol "" then "" else method_func source_symbol in
  (* Adjust constraints based on variant kind *)
  let exclude_dirs :=
    if String.eqb kind "test" then ["vendor/"]
    else if String.eqb kind "vendor" then ["tests/"]
    else ["vendor/"; "tests/"] in
  mkTask (Some variant_id) (Some "w1_localization")
    (Some (mkInputs (if String.eqb modified_symbol "" then None else Some modified_symbol)))
    (Some (mkConstraints true exclude_dirs))
    (Some (mkAcceptance (or_empty (g_paths source_golden))
             (or_empty (g_line_ranges source_golden))
             (or_empty (g_checklist source_golden))))
    (Some ["variant"; kind; "from:" ++ default "" (g_task_id source_golden)]).

Definition generate_variant_golden (source_golden : Golden) (variant_id kind : string)
  : Golden :=
  let source_prov := default (mkProvenance None None None None) (g_provenance source_golden) in
  mkGolden (Some variant_id) None
    (Some (or_empty (g_paths source_golden)))
    (Some (or_empty (g_line_ranges source_golden)))
    (Some (or_empty (g_quotes source_golden)))
    None None None None
    (Some (mkProvenance (Some (default "" (g_task_id source_golden))) (Some kind)
             (Some (default "" (pv_repo source_prov)))
             (Some (default "" (pv_commit source_prov)))))
    (Some "Variant derived; truth unchanged").

(** [f"W1-VAR-{generated + 1:03d}"] *)
Definition variant_id_of (generated : nat) : string :=
  let digits := NilZero.string_of_uint (Nat.to_uint (S generated)) in
  let pad := String.concat "" (repeat "0" (3 - String.length digits)) in
  "W1-VAR-" ++ pad ++ digits.

(** State of the two nested loops: the counter and the two output lists. *)
Record GenState := mkGenState {
  generated : nat;
  variant_tasks : list Task;
  variant_goldens : list Golden }.

(** The loop over [kinds] for one golden. *)
Fixpoint variants_of_golden (limit : Z) (golden : Golden) (kinds : list string)
    (st : GenState) : GenState :=
  match kinds with
  | [] => st
  | kind :: kinds' =>
      if (Z.of_nat (generated st) >=? limit) then st (* break *)
      else
        match methods kind with
        | None => variants_of_golden limit golden kinds' st (* continue *)
        | Some method_func =>
            let variant_id := variant_id_of (generated st) in
            let variant_task := generate_variant_task golden variant_id kind method_func in
            let variant_golden := generate_variant_golden golden variant_id kind in
            variants_of_golden limit golden kinds'
              (mkGenState (S (generated st))
                 (variant_tasks st ++ [variant_task])
                 (variant_goldens st ++ [variant_golden]))
        end
  end.

(** [generate_variants] on the loaded source goldens: the variant tasks and
    goldens that it writes out. *)
Fixpoint generate_variants_from (limit : Z) (kinds : list string) (goldens : list Golden)
    (st : GenState) : GenState :=
  match goldens with
  | [] => st
  | golden :: goldens' =>
      if (Z.of_nat (generated st) >=? limit) then st (* break *)
      else generate_variants_from limit kinds goldens' (variants_of_golden limit golden kinds st)
  end.

Definition generate_variants (goldens : list Golden) (limit : Z) (kinds : list string)
  : GenState :=
  generate_variants_from limit kinds goldens (mkGenState 0 [] []).

End Variants.

(** ** The summary block of [eval/runner/run_change_impact.py] *)

Module RunChangeImpactSummary.

Import RunChangeImpact.

(** [_mean(name)] of [main]: the mean of a column, [0.0] without rows. *)
Definition _mean (column : W2Row -> Q) (rows : list W2Row) : Q :=
  match rows with
  | [] => 0%Q
  | _ => (py_sum (map column rows) / inject_Z (Z.max (Z.of_nat (length rows)) 1))%Q
  end.

(** [sum(1 for r in rows if c(r)) / max(len(rows), 1)] *)
Definition w2_rate (c : W2Row -> bool) (rows : list W2Row) : Q :=
  (inject_Z (Z.of_nat (length (List.filter c rows)))
   / inject_Z (Z.max (Z.of_nat (length rows)) 1))%Q.

(** The entries of [summary["w2"]] computed from the rows of the model. *)
Record W2Summary := mkW2Summary {
  anchor_coverage_mean : Q;
  anchor_faithful_rate_mean : Q;
  pass_det_core : Q;
  pass_overall : Q }.

Definition w2_summary (rows : list W2Row) : W2Summary :=
  mkW2Summary
    (_mean w2_anchor_coverage rows)
    (_mean w2_anchor_faithful_rate rows)
    (w2_rate (fun r => Qeq_bool (w2_anchor_faithful_rate r) 1 && (w2_forbidden_hit r =? 0))
       rows)
    (w2_rate (fun r => w2_faithful_overall r =? 1) rows).

End RunChangeImpactSummary.

(** ** Loading the fixtures and [main] of [eval/runner/run_localization.py] *)

Module RunLocalizationMain.

Import Config Common RunLocalization.

(** [cfg.paths] *)
Record Paths := mkPaths {
  scenarios : string;
  goldens : string;
  canary : string;
  judges : string;
  reports : string;
  registry : string }.

(** [os.path.join(a, b)] on POSIX paths. *)
Definition path_join (a b : string) : string :=
  if String.prefix "/" b then b
  else if String.eqb a "" || Variants.endswith a "/" then a ++ b
  else a ++ "/" ++ b.

Inductive Suite := SuiteCanary | SuiteW1 | SuiteW2 | SuiteAll.

(** The parsed command line of [main]. *)
Record Args := mkArgs {
  dry_run : bool;
  suite : Suite;
  include_variants : bool }.

(** How [main] ends: after the dry-run printout, through [sys.exit], or
    after the reports of a full run are written. *)
Inductive Outcome :=
  | DryRunPrinted
  | SysExit (code : Z)
  | Reported (rows : list Row) (summary : Summary).

Section WithWorld.

Variable pat_search : string -> string -> bool.
Variable subprocess_run : nat -> Task -> Z -> string -> list string -> proc_outcome.
Variable json_loads : string -> option Prediction.

(** The fixture files.  [load_tasks_for_workflow base_dir] is the list of
    task files below [base_dir], parsed, in sorted path order;
    [read_goldens base_dir] is the list of records of the [.jsonl] files
    below [base_dir], files in sorted path order and lines in file order
    ([_glob_files] and [_read_jsonl]). *)
Variable load_tasks_for_workflow : string -> list Task.
Variable read_goldens : string -> list Golden.

(** The loop of [load_goldens_jsonl]: records without a task id are skipped,
    a later record replaces an earlier one with the same id. *)
Definition load_goldens_jsonl (base_dir : string) : gmap string Golden :=
  fold_left
    (fun goldens item =>
       if truthy (g_task_id item)
       then <[default "" (g_task_id item) := item]> goldens
       else goldens)
    (read_goldens base_dir) ∅.

(** The loading part of [_run_suite]: [tasks.extend] over the task
    directories and [goldens.update] over the golden directories. *)
Definition load_suite (tasks_dirs goldens_dirs : list string)
  : list Task * gmap string Golden :=
  (concat (map load_tasks_for_workflow tasks_dirs),
   fold_left (fun goldens gd => load_goldens_jsonl gd ∪ goldens) goldens_dirs ∅).

(** [_run_suite(tasks_dir, goldens_dir, cfg)] as the source has it, on
    directories (a single directory is a one-element list). *)
Definition run_suite_dirs (tasks_dirs goldens_dirs : list string) (cfg : EvalConfig)
    (n : nat) : list Row * nat :=
  let '(tasks, goldens) := load_suite tasks_dirs goldens_dirs in
  _run_suite pat_search subprocess_run json_loads tasks goldens cfg n.

(** [assert_canary_gate(cfg)] with the canary and golden directories of the
    configuration. *)
Definition canary_gate (cfg : EvalConfig) (paths : Paths) (n : nat)
  : (Z * list GateMsg) * nat :=
  let '(rows, n) :=
    run_suite_dirs [path_join (canary paths) "w1_localization"]
      [path_join (goldens paths) "w1_localization"] cfg n in
  (gate_verdict cfg rows, n).

(** [main]: [paths] is [cfg.paths] and [variants_enabled] is
    [cfg.variants.enabled]; writing the reports and the registry row is left
    out. *)
Definition main (args : Args) (cfg : EvalConfig) (paths : Paths)
    (variants_enabled : bool) (n : nat) : Outcome * nat :=
  if dry_run args then (DryRunPrinted, n)
  else
    match suite args with
    | SuiteCanary =>
        (* Canary only mode *)
        let '(verdict, n) := canary_gate cfg paths n in
        (SysExit (fst verdict), n)
    | _ =>
        (* Always run canary gate before full W1 *)
        let '(verdict, n) := canary_gate cfg paths n in
        let gate_code := fst verdict in
        if negb (gate_code =? 0) && fail_fast_on_canary (run cfg)
        then (SysExit gate_code, n)
        else
          (* Full W1 *)
          let scenarios_dir := path_join (scenarios paths) "w1_localization" in
          let goldens_dir := path_join (goldens paths) "w1_localization" in
          (* Include variants if requested and enabled *)
          let '(scenarios_dirs, goldens_dirs) :=
            if include_variants args && variants_enabled
            then ([scenarios_dir; path_join scenarios_dir "variants"],
                  [goldens_dir; path_join goldens_dir "variants"])
            else ([scenarios_dir], [goldens_dir]) in
          let '(rows, n) := run_suite_dirs scenarios_dirs goldens_dirs cfg n in
          (Reported rows (summary rows gate_code), n)
    end.

End WithWorld.

End RunLocalizationMain.

(** ** Concrete scenarios *)

Module Scenario.

Import Config Common RunLocalization.

(** A pattern engine for symbols without metacharacters: a literal search. *)
Definition literal_search (symbol q : string) : bool := str_in symbol q.

(** The end-to-end scenario of the specification (section 8). *)
Definition task_T1 : Task :=
  mkTask (Some "T1") (Some "w1_localization") None None
    (Some (mkAcceptance ["a.c"] [(10, 20)] [])) None.

Definition golden_T1 : Golden :=
  mkGolden (Some "T1") None (Some ["a.c"]) (Some [(10, 20)]) (Some ["foo"])
    None None None None None None.

Definition prediction_T1 : Prediction :=
  mkPrediction
    (Some (mkAnswer (Some ["a.c"]) (Some [(12, 18)]) (Some ["foo bar"]) None))
    (Some [mkCitation (Some "a.c") (Some 10) (Some 20)])
    None None None None.

(** The same answer without line ranges: right file, grounded, no lines. *)
Definition prediction_no_ranges : Prediction :=
  mkPrediction
    (Some (mkAnswer (Some ["a.c"]) None (Some ["foo bar"]) None))
    (Some [mkCitation (Some "a.c") (Some 10) (Some 20)])
    None None None None.

Definition goldens_T1 : gmap string Golden := {[ "T1" := golden_T1 ]}.

(** A configuration in which no check is flagged required. *)
Definition cfg_no_flags : EvalConfig :=
  mkEvalConfig (mkThresholds (mkW1 false (6 # 10) false false) (mkCanary true))
    default_slo (mkRunCfg true) default_sut_cli.

(** A SUT that always ends the same way, and a JSON reader that always
    yields the same prediction. *)
Definition sut_always (o : proc_outcome)
  : nat -> Task -> Z -> string -> list string -> proc_outcome :=
  fun _ _ _ _ _ => o.

Definition loads_always (p : Prediction) : string -> option Prediction :=
  fun _ => Some p.

(** Three canary rows; the second one is below the line IoU minimum. *)
Definition canary_row (tid : string) (iou : Q) (label : string) (passed : Z) : Row :=
  mkRow (Some tid) 1 iou iou 1 1 1 "ok" label "" 100 10 10 10 passed.

Definition canary_rows : list Row :=
  [canary_row "C1" 1 "ok" 1;
   canary_row "C2" (3 # 10) "wrong_line" 0;
   canary_row "C3" (8 # 10) "ok" 1].

(** The rows of a run over the one task [T1], answered with the right file
    and grounded quotes but no line ranges. *)
Definition rows_no_ranges : list Row :=
  fst (_run_suite literal_search (sut_always (Completed "{}" 120))
         (loads_always prediction_no_ranges) [task_T1] goldens_T1 default_config 0%nat).

(** A source golden with a symbol, for variant generation. *)
Definition golden_display : Golden :=
  mkGolden (Some "W1-007") (Some "gdm_display_factory_create_display")
    (Some ["daemon/gdm-display-factory.c"]) (Some [(40, 75)])
    (Some ["gdm_display_factory_create_display ("]) None None None None
    (Some (mkProvenance None None (Some "gdm") (Some "abc123"))) None.

End Scenario.

(** ** A fixture tree for the entry point *)

Module MainScenario.

Import Config Common RunLocalization RunLocalizationMain Scenario.






End MainScenario.

(** * Properties *)

(** ** Statements of the specification, in its own words *)

Module SpecWords.

Import Localization.

(** [intersection_length = max(0, min(ae,be) - max(as,bs))] *)
Definition intersection_length (a b : line_range) : Z :=
  Z.max 0 (Z.min (snd a) (snd b) - Z.max (fst a) (fst b)).

(** [union_length = max(ae-as,0) + max(be-bs,0) - intersection_length] *)
Definition union_length (a b : line_range) : Z :=
  Z.max (snd a - fst a) 0 + Z.max (snd b - fst b) 0 - intersection_length a b.

(** One range ends where (or before) the other starts. *)
Definition disjoint (a b : line_range) : Prop :=
  snd a <= fst b \/ snd b <= fst a.


(** [m] is the arithmetic mean of [xs]: [n * m] is the sum of the [n] values. *)
Fixpoint total (xs : list Q) : Q :=
  match xs with
  | [] => 0%Q
  | x :: xs' => (x + total xs')%Q
  end.

Definition is_mean (xs : list Q) (m : Q) : Prop :=
  (m * inject_Z (Z.of_nat (length xs)) == total xs)%Q.

(** [m] is the minimum of [xs]. *)
Definition is_minimum (xs : list Q) (m : Q) : Prop :=
  (exists x, In x xs /\ (m == x)%Q) /\ (forall x, In x xs -> (m <= x)%Q).

(** [p] appears in the citation path set: some citation carries the
    (non-empty) path [p]. *)
Definition in_citation_paths (citations : list Citation) (p : string) : Prop :=
  p <> "" /\ exists c, In c citations /\ c_path c = Some p.

(** Some path asserted in the answer appears in the citation path set. *)
Definition paths_overlap (paths : list string) (citations : list Citation) : Prop :=
  exists p, In p paths /\ in_citation_paths citations p.

(** Two path lists are the same set. *)
Definition same_path_set (ps gs : list string) : Prop :=
  forall x, In x ps <-> In x gs.

(** The number of rows that satisfy [c]. *)
Fixpoint count_rows (c : RunLocalization.Row -> bool) (rows : list RunLocalization.Row)
  : Z :=
  match rows with
  | [] => 0
  | r :: rows' => (if c r then 1 else 0) + count_rows c rows'
  end.

(** The fraction of the rows that satisfy [c]. *)
Definition fraction (c : RunLocalization.Row -> bool) (rows : list RunLocalization.Row)
  : Q :=
  (inject_Z (count_rows c rows) / inject_Z (Z.of_nat (length rows)))%Q.

(** A row has [path_match == 1 AND faithful == 1]. *)
Definition path_and_faithful (r : RunLocalization.Row) : bool :=
  (RunLocalization.r_path_match r =? 1) && (RunLocalization.r_faithful r =? 1).

(** A canary row fails: any of its required checks fails. *)
Definition canary_fails (cfg : Config.EvalConfig) (r : RunLocalization.Row) : Prop :=
  let w := Config.w1 (Config.thresholds cfg) in
  (Config.path_match_required w = true /\ RunLocalization.r_path_match r <> 1)
  \/ (RunLocalization.r_line_iou_min r < Config.line_iou_min w)%Q
  \/ (Config.require_symbol_match w = true /\ RunLocalization.r_symbol_match r <> 1)
  \/ (Config.faithfulness_required w = true /\ RunLocalization.r_faithful r <> 1).

(** What the gate reports for a failing row: the task id with the names of
    the checks that failed. *)
Definition failure_line (cfg : Config.EvalConfig) (r : RunLocalization.Row) : string :=
  RunLocalization.str_of_id (RunLocalization.r_task_id r)
  ++ ": fail(" ++ String.concat "," (RunLocalization.gate_checks cfg r) ++ ")".

(** A completed prediction with the body [{error: timeout}], the given
    latency and zero token counts. *)
Definition timeout_prediction (elapsed_ms : Z) : Prediction :=
  mkPrediction None None (Some (mkTiming (Some elapsed_ms)))
    (Some (mkTokens (Some 0) (Some 0) (Some 0))) (Some "timeout") None.

(** The variant golden [vg] has the paths, line ranges and quotes of
    [source]. *)
Definition truth_unchanged (source vg : Golden) : Prop :=
  or_empty (g_paths vg) = or_empty (g_paths source)
  /\ or_empty (g_line_ranges vg) = or_empty (g_line_ranges source)
  /\ or_empty (g_quotes vg) = or_empty (g_quotes source).

(** The acceptance criteria of the variant task [vt] are the paths and line
    ranges of [source]. *)
Definition criteria_unchanged (source : Golden) (vt : Task) : Prop :=
  exists ac, t_acceptance vt = Some ac
             /\ ac_paths ac = or_empty (g_paths source)
             /\ ac_line_ranges ac = or_empty (g_line_ranges source).

(** A generated pair: the task and the golden carry the same id and the
    unchanged truth of one of the source goldens. *)
Definition variant_of (sources : list Golden) (vt : Task) (vg : Golden) : Prop :=
  exists source, In source sources
                 /\ truth_unchanged source vg
                 /\ criteria_unchanged source vt
                 /\ t_id vt = g_task_id vg.

End SpecWords.

(** ** Further statements, in words *)

Module SuiteWords.

Import Config Localization Faithfulness Taxonomy Common RunLocalization.

(** The row that [_run_suite] builds for one task from its evaluation. *)
Definition suite_row (tid : option string) (pred : Prediction) (evald : EvalResult) : Row :=
  mkRow tid
    (path_match (loc evald))
    (line_iou_avg (loc evald))
    (Localization.line_iou_min (loc evald))
    (symbol_match (loc evald))
    (symbol_presence_rate (loc evald))
    (faithful (faith evald))
    (faithfulness_reason (faith evald))
    (primary (labels evald))
    (String.concat "," (secondary (labels evald)))
    (pred_latency pred)
    (default 0 (tok_in (pred_tokens pred)))
    (default 0 (tok_out (pred_tokens pred)))
    (default 0 (tok_context (pred_tokens pred)))
    (passed evald).

(** [row] is the row of [task] in a run under [cfg] with the goldens
    [goldens]: the evaluation of some prediction against the task's golden. *)
Definition row_of_task (pat_search : string -> string -> bool)
    (goldens : gmap string Golden) (cfg : EvalConfig) (task : Task) (row : Row) : Prop :=
  exists pred,
    row = suite_row (t_id task) pred
            (_evaluate_task pat_search task pred
               (default empty_golden (t_id task ≫= (goldens !!.))) cfg).

End SuiteWords.

Module AnchorWords.

Import Localization RunChangeImpact.

(** Some citation references the path of the required anchor. *)
Definition anchor_cited (citations : list Citation) (req : Anchor) : Prop :=
  exists c, In c citations /\ c_path c = an_path req.

(** The anchor is cited, its symbol (if any) occurs in the rationale, and an
    example quote of its path meets a citation of its path with IoU at least
    [threshold]. *)
Definition anchor_grounded (ans : Answer) (citations : list Citation) (golden : Golden)
    (threshold : Q) (req : Anchor) : Prop :=
  anchor_cited citations req
  /\ (truthy (an_symbol req) = true ->
      str_in (default "" (an_symbol req)) (default "" (a_rationale ans)) = true)
  /\ exists ex c,
       In ex (or_empty (g_example_quotes golden)) /\ ex_path ex = an_path req
       /\ In c citations /\ c_path c = an_path req
       /\ (threshold <= _iou (range_of (ex_start ex) (ex_end ex))
                          (range_of (c_start c) (c_end c)))%Q.

End AnchorWords.

Module VariantWords.

Import Variants.

(** The number of kinds in the list that the generator knows. *)
Definition known_kinds (kinds : list string) : nat :=
  length (List.filter (fun kind => bool_decide (is_Some (methods kind))) kinds).

(** [s] has no ['/']. *)
Definition no_slash (s : string) : Prop :=
  str_any (fun c => Ascii.eqb c "/"%char) s = false.

(** The loop state that [generate_variants] keeps: as many tasks and goldens
    as the counter says, numbered in generation order. *)
Definition numbered (st : GenState) : Prop :=
  map t_id (variant_tasks st)
  = map (fun i => Some (variant_id_of i)) (seq 0 (generated st))
  /\ map g_task_id (variant_goldens st)
     = map (fun i => Some (variant_id_of i)) (seq 0 (generated st)).

(** The number that a variant id spells after its seven-character prefix
    [W1-VAR-]. *)
Definition id_number (variant_id : string) : option nat :=
  option_map Nat.of_uint (NilEmpty.uint_of_string (str_drop 7 variant_id)).

(** The last character of a string. *)
Fixpoint str_last (s : string) : option ascii :=
  match s with
  | EmptyString => None
  | String c EmptyString => Some c
  | String _ s' => str_last s'
  end.

End VariantWords.

Module LoadingWords.

(** The last record of a list that satisfies [c]. *)
Definition last_where (c : Golden -> bool) (items : list Golden) : option Golden :=
  last (List.filter c items).

(** The record carries the non-empty task id [tid]. *)
Definition has_id (tid : string) (item : Golden) : bool :=
  truthy (g_task_id item) && bool_decide (g_task_id item = Some tid).

End LoadingWords.

(** ** Line-range IoU *)

Module LocalizationFacts.

Import Localization SpecWords.

Lemma iou_unfold (a b : line_range) :
  _iou a b =
  if union_length a b >? 0
  then (inject_Z (intersection_length a b) / inject_Z (union_length a b))%Q
  else 0%Q.
Proof. destruct a, b; reflexivity. Qed.

Lemma intersection_length_bounds (a b : line_range) :
  0 <= intersection_length a b <= union_length a b.
Proof. unfold union_length, intersection_length. lia. Qed.

Lemma intersection_length_comm (a b : line_range) :
  intersection_length a b = intersection_length b a.
Proof. unfold intersection_length. lia. Qed.

Lemma union_length_comm (a b : line_range) : union_length a b = union_length b a.
Proof. unfold union_length. rewrite (intersection_length_comm a b). lia. Qed.

Lemma iou_comm (a b : line_range) : _iou a b = _iou b a.
Proof.
  rewrite !iou_unfold, (intersection_length_comm a b), (union_length_comm a b).
  reflexivity.
Qed.

Lemma ratio_bounds (i u : Z) :
  0 <= i <= u -> 0 < u -> (0 <= inject_Z i / inject_Z u <= 1)%Q.
Proof.
  intros [Hi Hiu] Hu.
  assert (Hu' : (0 < inject_Z u)%Q).
  { change (inject_Z 0 < inject_Z u)%Q. rewrite <- Zlt_Qlt. exact Hu. }
  split.
  - apply Qle_shift_div_l; [exact Hu' |].
    rewrite Qmult_0_l. change (inject_Z 0 <= inject_Z i)%Q.
    rewrite <- Zle_Qle. exact Hi.
  - apply Qle_shift_div_r; [exact Hu' |].
    rewrite Qmult_1_l, <- Zle_Qle. exact Hiu.
Qed.

Lemma iou_bounds (a b : line_range) : (0 <= _iou a b <= 1)%Q.
Proof.
  rewrite iou_unfold.
  destruct (Z.gtb_spec (union_length a b) 0) as [Hu | Hu].
  - apply ratio_bounds; [apply intersection_length_bounds | lia].
  - split; [apply Qle_refl | discriminate].
Qed.

Lemma iou_disjoint (a b : line_range) : disjoint a b -> (_iou a b == 0)%Q.
Proof.
  intros Hd. rewrite iou_unfold.
  assert (Hi : intersection_length a b = 0)
    by (unfold disjoint in Hd; unfold intersection_length; lia).
  destruct (union_length a b >? 0); [| reflexivity].
  rewrite Hi. unfold Qdiv. apply Qmult_0_l.
Qed.

Lemma iou_same (a : line_range) : fst a < snd a -> (_iou a a == 1)%Q.
Proof.
  intros Hne. rewrite iou_unfold.
  assert (Hi : intersection_length a a = snd a - fst a)
    by (unfold intersection_length; lia).
  assert (Hu : union_length a a = snd a - fst a)
    by (unfold union_length; rewrite Hi; lia).
  rewrite Hu, Hi.
  destruct (Z.gtb_spec (snd a - fst a) 0) as [Hpos | Hpos]; [| lia].
  unfold Qdiv. apply Qmult_inv_r.
  intros H0. unfold Qeq in H0. cbn [Qnum Qden inject_Z] in H0. lia.
Qed.

(** C5.  The pairwise IoU of two integer line ranges is
    [intersection_length / union_length] with the two lengths as the
    specification defines them, and 0 when the union length is 0 (it is never
    negative); it is symmetric, lies in [[0,1]], is 1 for identical non-empty
    ranges and 0 for disjoint ranges. *)
Theorem iou_formula_symmetric_bounded (a b : line_range) :
  (0 < union_length a b ->
   _iou a b = (inject_Z (intersection_length a b) / inject_Z (union_length a b))%Q)
  /\ 0 <= union_length a b
  /\ (union_length a b = 0 -> _iou a b = 0%Q)
  /\ _iou a b = _iou b a
  /\ (0 <= _iou a b <= 1)%Q
  /\ (fst a < snd a -> (_iou a a == 1)%Q)
  /\ (disjoint a b -> (_iou a b == 0)%Q).
Proof.
  repeat split.
  - intros Hu. rewrite iou_unfold.
    destruct (Z.gtb_spec (union_length a b) 0); [reflexivity | lia].
  - pose proof (intersection_length_bounds a b). lia.
  - intros Hu. rewrite iou_unfold, Hu. reflexivity.
  - apply iou_comm.
  - apply iou_bounds.
  - apply iou_bounds.
  - apply iou_same.
  - apply iou_disjoint.
Qed.

(** The two examples of the specification: [iou((10,20),(10,20)) == 1.0] and
    [iou((1,5),(10,15)) == 0.0]. *)
Lemma iou_formula_symmetric_bounded_witness :
  Qeq (_iou (10, 20) (10, 20)) 1%Q /\ Qeq (_iou (1, 5) (10, 15)) 0%Q.
Proof.
  destruct (iou_formula_symmetric_bounded (10, 20) (10, 20))
    as (_ & _ & _ & _ & _ & Hsame & _).
  destruct (iou_formula_symmetric_bounded (1, 5) (10, 15))
    as (_ & _ & _ & _ & _ & _ & Hdisj).
  split.
  - apply Hsame. simpl. lia.
  - apply Hdisj. left. simpl. lia.
Defined.

(** *** Aggregation over the predicted ranges *)

Section FoldMax.

Variable f : line_range -> Q.

Let step (best : Q) (g : line_range) : Q := Qmax best (f g).

Lemma fold_max_ge_init (gs : list line_range) (init : Q) :
  (init <= fold_left step gs init)%Q.
Proof.
  revert init. induction gs as [| g gs IH]; intros init; simpl.
  - apply Qle_refl.
  - eapply Qle_trans; [apply (Q.le_max_l init (f g)) | apply IH].
Qed.

Lemma fold_max_ge_elem (gs : list line_range) (init : Q) (g : line_range) :
  In g gs -> (f g <= fold_left step gs init)%Q.
Proof.
  revert init. induction gs as [| g0 gs IH]; intros init Hin; simpl.
  - destruct Hin.
  - destruct Hin as [-> | Hin].
    + eapply Qle_trans; [apply (Q.le_max_r init (f g)) | apply fold_max_ge_init].
    + apply IH, Hin.
Qed.


End FoldMax.


Lemma py_sum_from (xs : list Q) (acc : Q) :
  (fold_left Qplus xs acc == acc + total xs)%Q.
Proof.
  revert acc. induction xs as [| x xs IH]; intros acc; simpl.
  - symmetry. apply Qplus_0_r.
  - rewrite IH. symmetry. apply Qplus_assoc.
Qed.

Lemma py_sum_total (xs : list Q) : (py_sum xs == total xs)%Q.
Proof. unfold py_sum. rewrite py_sum_from. apply Qplus_0_l. Qed.

Lemma py_min_le_init (xs : list Q) (x : Q) : (py_min x xs <= x)%Q.
Proof.
  unfold py_min. revert x. induction xs as [| y xs IH]; intros x; simpl.
  - apply Qle_refl.
  - eapply Qle_trans; [apply IH | apply Q.le_min_l].
Qed.

Lemma py_min_le_elem (xs : list Q) (x y : Q) : In y xs -> (py_min x xs <= y)%Q.
Proof.
  unfold py_min. revert x. induction xs as [| z xs IH]; intros x Hin; simpl.
  - destruct Hin.
  - destruct Hin as [-> | Hin].
    + eapply Qle_trans; [apply (py_min_le_init xs) | apply Q.le_min_r].
    + apply IH, Hin.
Qed.

Lemma py_min_attained (xs : list Q) (x : Q) :
  exists y, In y (x :: xs) /\ (py_min x xs == y)%Q.
Proof.
  unfold py_min. revert x. induction xs as [| z xs IH]; intros x; simpl.
  - exists x. split; [left; reflexivity | reflexivity].
  - destruct (IH (Qmin x z)) as (y & [Hy | Hy] & Heq).
    + destruct (Q.min_dec x z) as [Hm | Hm].
      * exists x. split; [left; reflexivity |]. subst y. exact (Qeq_trans _ _ _ Heq Hm).
      * exists z. split; [right; left; reflexivity |]. subst y.
        exact (Qeq_trans _ _ _ Heq Hm).
    + exists y. split; [right; right; exact Hy | exact Heq].
Qed.

Lemma py_min_is_minimum (xs : list Q) (x : Q) : is_minimum (x :: xs) (py_min x xs).
Proof.
  split.
  - destruct (py_min_attained xs x) as (y & Hin & Heq). exists y. split; assumption.
  - intros y [<- | Hin]; [apply py_min_le_init | apply py_min_le_elem, Hin].
Qed.

Lemma line_iou_scores_nonempty (p : line_range) (ps : list line_range)
    (g : line_range) (gs : list line_range) :
  let pairs := map (fun q => best_iou q (g :: gs)) (p :: ps) in
  line_iou_scores (p :: ps) (g :: gs) =
  mkIouScores pairs
    (py_sum pairs / inject_Z (Z.of_nat (length pairs)))%Q
    (py_min (best_iou p (g :: gs)) (map (fun q => best_iou q (g :: gs)) ps)).
Proof. reflexivity. Qed.



End LocalizationFacts.

(** ** Comparisons and sets *)

Lemma Qltb_lt (x y : Q) : Qltb x y = true <-> (x < y)%Q.
Proof.
  unfold Qltb. rewrite negb_true_iff. split.
  - intros H. apply Qnot_le_lt. intros Hle.
    apply Qle_bool_iff in Hle. congruence.
  - intros H. destruct (Qle_bool y x) eqn:E; [| reflexivity].
    apply Qle_bool_iff in E. exfalso. exact (Qlt_not_le _ _ H E).
Qed.

Lemma Qltb_ge (x y : Q) : Qltb x y = false <-> (y <= x)%Q.
Proof.
  unfold Qltb. rewrite negb_false_iff. apply Qle_bool_iff.
Qed.

Lemma list_to_set_empty_iff (l : list string) :
  (list_to_set l : gset string) = ∅ <-> l = [].
Proof.
  split.
  - destruct l as [| x l]; [reflexivity |]. intros H.
    assert (Hx : x ∈ (list_to_set (x :: l) : gset string)) by set_solver.
    rewrite H in Hx. set_solver.
  - intros ->. reflexivity.
Qed.

Lemma list_to_set_eq_iff (ps gs : list string) :
  (list_to_set ps : gset string) = list_to_set gs <-> SpecWords.same_path_set ps gs.
Proof.
  unfold SpecWords.same_path_set. split.
  - intros H x. rewrite <- !list_elem_of_In.
    rewrite <- !(elem_of_list_to_set (C := gset string)), H. reflexivity.
  - intros H. apply set_eq. intros x.
    rewrite !elem_of_list_to_set, !list_elem_of_In. apply H.
Qed.

(** ** Faithfulness *)

Module FaithfulnessFacts.

Import Faithfulness SpecWords.

Lemma elem_of_citation_paths (citations : list Citation) (p : string) :
  p ∈ citation_paths citations <-> in_citation_paths citations p.
Proof.
  unfold citation_paths, in_citation_paths.
  rewrite elem_of_list_to_set, list_elem_of_omap. split.
  - intros (c & Hin & Hc). unfold truthy in Hc.
    destruct (c_path c) as [s |] eqn:E; [| discriminate].
    destruct (String.eqb_spec s "") as [-> | Hne]; simpl in Hc; [discriminate |].
    injection Hc as <-. split; [exact Hne |].
    exists c. split; [apply list_elem_of_In, Hin | exact E].
  - intros (Hne & c & Hin & Hc). exists c. split; [apply list_elem_of_In, Hin |].
    rewrite Hc. simpl. destruct (String.eqb_spec p ""); [contradiction | reflexivity].
Qed.

Lemma no_overlap_iff (paths : list string) (citations : list Citation) :
  (list_to_set paths : gset string) ∩ citation_paths citations = ∅
  <-> ~ paths_overlap paths citations.
Proof.
  unfold paths_overlap. split.
  - intros H (p & Hin & Hc).
    apply elem_of_citation_paths in Hc. apply list_elem_of_In in Hin.
    set_solver.
  - intros H. apply set_eq. intros p. split; [| set_solver].
    rewrite elem_of_intersection, elem_of_list_to_set, list_elem_of_In.
    rewrite elem_of_citation_paths. intros [Hin Hc]. exfalso. apply H. eauto.
Qed.

(** C4.  The faithfulness check returns the first applicable reason, in
    this order: no citations at all gives [cite_missing]; otherwise paths
    asserted in the answer with none of them in the citation path set gives
    [cite_irrelevant]; otherwise (citations present, and the asserted paths,
    if any, overlap the citation paths) no quotes gives [no_quotes];
    otherwise [ok].  [faithful] is 1 exactly when the reason is [ok], and 0
    otherwise. *)
Theorem faithfulness_first_applicable_reason (answer : Answer)
    (citations : list Citation) :
  let paths := or_empty (a_paths answer) in
  let quotes := or_empty (a_quotes answer) in
  let r := evaluate_faithfulness answer citations in
  (citations = [] -> faithfulness_reason r = "cite_missing")
  /\ (citations <> [] -> paths <> [] -> ~ paths_overlap paths citations ->
      faithfulness_reason r = "cite_irrelevant")
  /\ (citations <> [] -> paths = [] \/ paths_overlap paths citations ->
      quotes = [] -> faithfulness_reason r = "no_quotes")
  /\ (citations <> [] -> paths = [] \/ paths_overlap paths citations ->
      quotes <> [] -> faithfulness_reason r = "ok")
  /\ (faithful r = 1 <-> faithfulness_reason r = "ok")
  /\ (faithful r = 0 \/ faithful r = 1).
Proof.
  cbv zeta. unfold evaluate_faithfulness.
  destruct citations as [| c cs].
  { repeat split; try congruence; try discriminate; auto. }
  set (cits := c :: cs).
  destruct (or_empty (a_paths answer)) as [| p ps] eqn:Ep.
  { cbn [andb].
    destruct (or_empty (a_quotes answer)) as [| q qs]; cbn;
      repeat split; try congruence; try discriminate; auto. }
  cbn [andb].
  destruct (bool_decide_reflect
              ((list_to_set (p :: ps) : gset string) ∩ citation_paths cits = ∅))
    as [Hno | Hov].
  - apply no_overlap_iff in Hno. cbn.
    repeat split; try congruence; try discriminate; auto.
    + intros _ [Hnil | Hov] _; [discriminate | contradiction].
    + intros _ [Hnil | Hov] _; [discriminate | contradiction].
  - rewrite no_overlap_iff in Hov.
    destruct (or_empty (a_quotes answer)) as [| q qs]; cbn;
      repeat split; try congruence; try discriminate; auto;
      intros _ _ Hn; contradiction.
Qed.

(** The two precedence examples of the specification, and the end-to-end
    answer that is faithful. *)
Lemma faithfulness_first_applicable_reason_witness :
  faithfulness_reason
    (evaluate_faithfulness (mkAnswer (Some ["x.c"]) None (Some ["q"]) None) [])
  = "cite_missing"
  /\ faithfulness_reason
       (evaluate_faithfulness (mkAnswer (Some ["x.c"]) None (Some ["q"]) None)
          [mkCitation (Some "y.c") (Some 1) (Some 2)])
     = "cite_irrelevant"
  /\ faithfulness_reason
       (evaluate_faithfulness (mkAnswer (Some ["a.c"]) None (Some ["foo bar"]) None)
          [mkCitation (Some "a.c") (Some 10) (Some 20)])
     = "ok".
Proof.
  split; [| split].
  - destruct (faithfulness_first_applicable_reason
                (mkAnswer (Some ["x.c"]) None (Some ["q"]) None) [])
      as (Hmissing & _).
    apply Hmissing. reflexivity.
  - destruct (faithfulness_first_applicable_reason
                (mkAnswer (Some ["x.c"]) None (Some ["q"]) None)
                [mkCitation (Some "y.c") (Some 1) (Some 2)])
      as (_ & Hirrelevant & _).
    apply Hirrelevant.
    + discriminate.
    + discriminate.
    + intros (p & Hin & _ & c & Hc & Hp).
      destruct Hin as [<- | []]. destruct Hc as [<- | []]. discriminate.
  - destruct (faithfulness_first_applicable_reason
                (mkAnswer (Some ["a.c"]) None (Some ["foo bar"]) None)
                [mkCitation (Some "a.c") (Some 10) (Some 20)])
      as (_ & _ & _ & Hok & _).
    apply Hok.
    + discriminate.
    + right. exists "a.c". split; [left; reflexivity |].
      split; [discriminate |].
      eexists. split; [left; reflexivity | reflexivity].
    + discriminate.
Defined.

End FaithfulnessFacts.

(** ** Taxonomy *)

Module TaxonomyFacts.

Import Localization Faithfulness Taxonomy SpecWords.

(** The primary label in closed form: the [if]/[elif] on the paths, then the
    line rule, then the default. *)
Lemma map_labels_primary (pred : Prediction) (gold : Golden) (localization : LocResult)
    (faithfulness : FaithResult) (thresholds : LabelThresholds) :
  let ppaths : gset string :=
    list_to_set (or_empty (a_paths (default empty_answer (p_answer pred)))) in
  let gpaths : gset string := list_to_set (or_empty (g_paths gold)) in
  primary (map_labels pred gold localization faithfulness thresholds) =
  if bool_decide (ppaths = ∅) then LABEL_MISSING_PATH
  else if bool_decide (gpaths ≠ ∅) && bool_decide (ppaths ≠ gpaths) then LABEL_WRONG_PATH
  else if Qltb (line_iou_min localization) (th_line_iou_min thresholds)
       then LABEL_WRONG_LINE
  else if bool_decide (gpaths ≠ ∅) then LABEL_OK else LABEL_MISSING_PATH.
Proof.
  cbv zeta. unfold map_labels. cbn [primary].
  repeat (case_bool_decide; cbn [andb]);
    destruct (Qltb (line_iou_min localization) (th_line_iou_min thresholds));
    reflexivity.
Qed.

(** C7.  The primary label is set by the first rule of the chain that
    fires: no predicted paths gives [missing_path]; else golden paths present
    and a differing predicted path set gives [wrong_path]; else a minimum IoU
    below the threshold gives [wrong_line]; when no rule fires the primary is
    [ok] if the golden has paths and [missing_path] otherwise.  The first two
    rules hold whatever the later conditions are. *)
Theorem map_labels_primary_first_rule (pred : Prediction) (gold : Golden)
    (localization : LocResult) (faithfulness : FaithResult)
    (thresholds : LabelThresholds) :
  let ppaths := or_empty (a_paths (default empty_answer (p_answer pred))) in
  let gpaths := or_empty (g_paths gold) in
  let low := (line_iou_min localization < th_line_iou_min thresholds)%Q in
  let p := primary (map_labels pred gold localization faithfulness thresholds) in
  (ppaths = [] -> p = "missing_path")
  /\ (ppaths <> [] -> gpaths <> [] -> ~ same_path_set ppaths gpaths ->
      p = "wrong_path")
  /\ (ppaths <> [] -> gpaths = [] \/ same_path_set ppaths gpaths -> low ->
      p = "wrong_line")
  /\ (ppaths <> [] -> gpaths = [] \/ same_path_set ppaths gpaths -> ~ low ->
      (gpaths <> [] -> p = "ok") /\ (gpaths = [] -> p = "missing_path")).
Proof.
  cbv zeta. rewrite map_labels_primary. cbv zeta.
  set (ppaths := or_empty (a_paths (default empty_answer (p_answer pred)))).
  set (gpaths := or_empty (g_paths gold)).
  pose proof (list_to_set_empty_iff ppaths) as Hpe.
  pose proof (list_to_set_empty_iff gpaths) as Hge.
  pose proof (list_to_set_eq_iff ppaths gpaths) as Heq.
  pose proof (Qltb_lt (line_iou_min localization) (th_line_iou_min thresholds)) as Hlt.
  destruct (Qltb (line_iou_min localization) (th_line_iou_min thresholds));
    repeat (case_bool_decide; cbn [andb]);
    repeat split; intros; try reflexivity; exfalso; intuition congruence.
Qed.

(** The end-to-end scenario gets [ok]; the same golden against a prediction
    without paths gets [missing_path]. *)
Lemma map_labels_primary_first_rule_witness :
  primary
    (map_labels Scenario.prediction_T1 Scenario.golden_T1
       (evaluate_localization Scenario.literal_search
          (default empty_answer (p_answer Scenario.prediction_T1))
          Scenario.golden_T1 (mkInputs None))
       (evaluate_faithfulness (default empty_answer (p_answer Scenario.prediction_T1))
          (or_empty (p_citations Scenario.prediction_T1)))
       (mkLabelThresholds (6 # 10) 5000 20000 4000 50000))
  = "ok"
  /\ primary
       (map_labels Common.empty_prediction Scenario.golden_T1
          (evaluate_localization Scenario.literal_search empty_answer
             Scenario.golden_T1 (mkInputs None))
          (evaluate_faithfulness empty_answer [])
          (mkLabelThresholds (6 # 10) 5000 20000 4000 50000))
     = "missing_path".
Proof.
  split.
  - match goal with
    | |- primary (map_labels ?p ?g ?l ?f ?t) = _ =>
        destruct (map_labels_primary_first_rule p g l f t) as (_ & _ & _ & Hdefault)
    end.
    apply Hdefault.
    + discriminate.
    + right. intros x. reflexivity.
    + intros Hlow. vm_compute in Hlow. discriminate.
    + discriminate.
  - match goal with
    | |- primary (map_labels ?p ?g ?l ?f ?t) = _ =>
        destruct (map_labels_primary_first_rule p g l f t) as (Hmissing & _)
    end.
    apply Hmissing. reflexivity.
Defined.

End TaxonomyFacts.

(** ** Localization runner: per-task verdict *)

Module RunLocalizationFacts.

Import Config Localization Faithfulness Taxonomy Common RunLocalization SpecWords.

Lemma evaluate_task_loc (pat_search : string -> string -> bool) (task : Task)
    (prediction : Prediction) (golden : Golden) (cfg : EvalConfig) :
  loc (_evaluate_task pat_search task prediction golden cfg) =
  evaluate_localization pat_search (default empty_answer (p_answer prediction)) golden
    (default (mkInputs None) (t_inputs task))
  /\ faith (_evaluate_task pat_search task prediction golden cfg) =
     evaluate_faithfulness (default empty_answer (p_answer prediction))
       (or_empty (p_citations prediction)).
Proof. split; reflexivity. Qed.

(** A check behind a required flag fails when the flag is set and the
    score is not 1. *)
Lemma gated_check_true (flag : bool) (v : Z) :
  flag && negb (v =? 1) = true <-> flag = true /\ v <> 1.
Proof.
  destruct flag, (Z.eqb_spec v 1); cbn; intuition congruence.
Qed.

Lemma gated_check_false (flag : bool) (v : Z) :
  flag && negb (v =? 1) = false <-> (flag = true -> v = 1).
Proof.
  destruct flag, (Z.eqb_spec v 1); cbn; intuition congruence.
Qed.

(** The four assignments to [passed], folded into one test. *)
Lemma evaluate_task_passed (pat_search : string -> string -> bool) (task : Task)
    (prediction : Prediction) (golden : Golden) (cfg : EvalConfig) :
  let r := _evaluate_task pat_search task prediction golden cfg in
  let w := w1 (thresholds cfg) in
  passed r =
  if (path_match_required w && negb (path_match (loc r) =? 1))
     || Qltb (Localization.line_iou_min (loc r)) (Config.line_iou_min w)
     || (require_symbol_match w && negb (symbol_match (loc r) =? 1))
     || (faithfulness_required w && negb (faithful (faith r) =? 1))
  then 0 else 1.
Proof.
  cbv zeta.
  destruct (evaluate_task_loc pat_search task prediction golden cfg) as [-> ->].
  unfold _evaluate_task. cbn [passed].
  destruct (_ && negb (path_match _ =? 1)), (Qltb _ _),
    (_ && negb (symbol_match _ =? 1)), (_ && negb (faithful _ =? 1));
    reflexivity.
Qed.

(** C1 (amended).  The per-task verdict is the AND of four checks: the path
    match, the symbol match and the faithfulness check are each gated by
    their own required flag, and the minimum line IoU is always compared with
    the configured [line_iou_min] (it has a threshold, no flag). *)
Theorem evaluate_task_passed_is_and_of_checks (pat_search : string -> string -> bool)
    (task : Task) (prediction : Prediction) (golden : Golden) (cfg : EvalConfig) :
  let r := _evaluate_task pat_search task prediction golden cfg in
  let w := w1 (thresholds cfg) in
  (passed r = 1 <->
   (path_match_required w = true -> path_match (loc r) = 1)
   /\ (Config.line_iou_min w <= Localization.line_iou_min (loc r))%Q
   /\ (require_symbol_match w = true -> symbol_match (loc r) = 1)
   /\ (faithfulness_required w = true -> faithful (faith r) = 1))
  /\ (passed r = 0 \/ passed r = 1).
Proof.
  cbv zeta. rewrite evaluate_task_passed. cbv zeta.
  rewrite <- !gated_check_false, <- Qltb_ge.
  destruct (_ && negb (path_match _ =? 1)), (Qltb _ _),
    (_ && negb (symbol_match _ =? 1)), (_ && negb (faithful _ =? 1));
    cbn [orb]; intuition congruence.
Qed.

(** With no check flagged required, an answer without line ranges still
    fails: the line IoU check has no flag. *)
Lemma evaluate_task_unflagged_check_fails :
  let w := w1 (thresholds Scenario.cfg_no_flags) in
  path_match_required w = false
  /\ require_symbol_match w = false
  /\ faithfulness_required w = false
  /\ passed
       (_evaluate_task Scenario.literal_search Scenario.task_T1
          Scenario.prediction_no_ranges Scenario.golden_T1 Scenario.cfg_no_flags)
     = 0.
Proof. repeat split. Qed.

(** The end-to-end scenario passes under the default thresholds. *)
Lemma evaluate_task_passed_is_and_of_checks_witness :
  passed
    (_evaluate_task Scenario.literal_search Scenario.task_T1 Scenario.prediction_T1
       Scenario.golden_T1 default_config)
  = 1.
Proof.
  apply (evaluate_task_passed_is_and_of_checks Scenario.literal_search Scenario.task_T1
           Scenario.prediction_T1 Scenario.golden_T1 default_config).
  split; [| split; [| split]].
  - intros _. reflexivity.
  - vm_compute. discriminate.
  - intros _. reflexivity.
  - intros _. reflexivity.
Defined.

(** *** Aggregation over the rows *)

Lemma filter_length_count (c : Row -> bool) (rows : list Row) :
  Z.of_nat (length (List.filter c rows)) = count_rows c rows.
Proof.
  induction rows as [| r rows IH]; [reflexivity |].
  cbn [List.filter count_rows]. destruct (c r); cbn [length]; lia.
Qed.

Lemma rate_fraction (c : Row -> bool) (rows : list Row) :
  rows <> [] -> rate c rows = fraction c rows.
Proof.
  intros Hne. unfold rate, fraction. rewrite filter_length_count.
  replace (Z.max (Z.of_nat (length rows)) 1) with (Z.of_nat (length rows));
    [reflexivity |].
  destruct rows; [congruence | cbn [length]; lia].
Qed.

(** C2 (amended).  Over the rows of a localization run, the accuracy that
    the CLI summary prints is the fraction of rows with [path_match == 1] and
    [faithful == 1]; the [accuracy_localization] of the stored run summary is
    the fraction of rows whose [passed] flag is set. *)
Theorem accuracy_of_cli_summary_and_run_summary (rows : list Row) (gate_code : Z) :
  rows <> [] ->
  (exists s, _print_cli_summary rows = Some s
             /\ cli_accuracy s = fraction path_and_faithful rows)
  /\ accuracy_localization (summary rows gate_code)
     = fraction (fun r => negb (r_passed r =? 0)) rows.
Proof.
  intros Hne. split.
  - destruct rows as [| r rows]; [congruence |].
    eexists. split; [reflexivity |].
    cbn [cli_accuracy]. apply (rate_fraction path_and_faithful). exact Hne.
  - cbn [summary accuracy_localization]. apply rate_fraction, Hne.
Qed.

(** On these rows every row has [path_match == 1] and [faithful == 1], yet the
    run summary reports accuracy 0: the task did not pass the line check. *)
Lemma run_summary_accuracy_is_not_path_and_faithful :
  Qeq (fraction path_and_faithful Scenario.rows_no_ranges) 1
  /\ Qeq (accuracy_localization (summary Scenario.rows_no_ranges 0)) 0
  /\ ~ Qeq (accuracy_localization (summary Scenario.rows_no_ranges 0))
         (fraction path_and_faithful Scenario.rows_no_ranges).
Proof.
  split; [| split].
  - vm_compute. reflexivity.
  - vm_compute. reflexivity.
  - intros H. vm_compute in H. discriminate H.
Qed.

Lemma accuracy_of_cli_summary_and_run_summary_witness :
  (exists s, _print_cli_summary Scenario.rows_no_ranges = Some s
             /\ cli_accuracy s = fraction path_and_faithful Scenario.rows_no_ranges)
  /\ accuracy_localization (summary Scenario.rows_no_ranges 0)
     = fraction (fun r => negb (r_passed r =? 0)) Scenario.rows_no_ranges.
Proof.
  apply (accuracy_of_cli_summary_and_run_summary Scenario.rows_no_ranges 0).
  vm_compute. discriminate.
Defined.

End RunLocalizationFacts.

(** ** The canary gate *)

Module CanaryGateFacts.

Import Config Localization Faithfulness Taxonomy Common RunLocalization SpecWords.
Import RunLocalizationFacts.

(** The [checks] list as four optional names, in order. *)
Lemma gate_checks_parts (cfg : EvalConfig) (r : Row) :
  let w := w1 (thresholds cfg) in
  gate_checks cfg r =
  ((if path_match_required w && negb (r_path_match r =? 1) then ["path_match"] else [])
   ++ (if Qltb (r_line_iou_min r) (Config.line_iou_min w) then ["line_iou_min"] else [])
   ++ (if require_symbol_match w && negb (r_symbol_match r =? 1)
       then ["symbol_match"] else [])
   ++ (if faithfulness_required w && negb (r_faithful r =? 1) then ["faithful"] else []))%list.
Proof.
  cbv zeta. unfold gate_checks, append_if.
  destruct (_ && negb (r_path_match r =? 1)), (Qltb _ _),
    (_ && negb (r_symbol_match r =? 1)), (_ && negb (r_faithful r =? 1));
    reflexivity.
Qed.

Lemma gate_checks_names (cfg : EvalConfig) (r : Row) :
  let w := w1 (thresholds cfg) in
  (In "path_match" (gate_checks cfg r)
   <-> path_match_required w = true /\ r_path_match r <> 1)
  /\ (In "line_iou_min" (gate_checks cfg r)
      <-> (r_line_iou_min r < Config.line_iou_min w)%Q)
  /\ (In "symbol_match" (gate_checks cfg r)
      <-> require_symbol_match w = true /\ r_symbol_match r <> 1)
  /\ (In "faithful" (gate_checks cfg r)
      <-> faithfulness_required w = true /\ r_faithful r <> 1).
Proof.
  cbv zeta. rewrite gate_checks_parts. cbv zeta.
  rewrite <- !gated_check_true, <- Qltb_lt.
  destruct (_ && negb (r_path_match r =? 1)), (Qltb _ _),
    (_ && negb (r_symbol_match r =? 1)), (_ && negb (r_faithful r =? 1));
    cbn [app In]; repeat split; intros; try reflexivity; try discriminate;
    intuition discriminate.
Qed.

Lemma gate_checks_nonempty (cfg : EvalConfig) (r : Row) :
  gate_checks cfg r <> [] <-> canary_fails cfg r.
Proof.
  unfold canary_fails. cbv zeta. rewrite gate_checks_parts. cbv zeta.
  rewrite <- !gated_check_true, <- Qltb_lt.
  destruct (_ && negb (r_path_match r =? 1)), (Qltb _ _),
    (_ && negb (r_symbol_match r =? 1)), (_ && negb (r_faithful r =? 1));
    cbn [app]; split; intros; try discriminate; try tauto;
    intuition discriminate.
Qed.

Lemma gate_failures_step (cfg : EvalConfig) (r : Row) (rows : list Row) :
  (gate_checks cfg r = [] /\ gate_failures cfg (r :: rows) = gate_failures cfg rows)
  \/ (gate_checks cfg r <> []
      /\ gate_failures cfg (r :: rows) = failure_line cfg r :: gate_failures cfg rows).
Proof.
  cbn [gate_failures]. unfold failure_line.
  destruct (gate_checks cfg r) as [| c cs]; [left | right]; split;
    reflexivity || discriminate.
Qed.

(** The reported failures are exactly the lines of the failing rows. *)
Lemma gate_failures_lines (cfg : EvalConfig) (rows : list Row) (f : string) :
  In f (gate_failures cfg rows)
  <-> exists r, In r rows /\ canary_fails cfg r /\ f = failure_line cfg r.
Proof.
  induction rows as [| r rows IH].
  - cbn. split; [intros [] | intros (r & [] & _)].
  - destruct (gate_failures_step cfg r rows) as [[Hc ->] | [Hc ->]].
    + rewrite IH. split.
      * intros (r' & Hin & Hf). exists r'. split; [right; exact Hin | exact Hf].
      * intros (r' & [<- | Hin] & Hfail & Hf).
        -- apply gate_checks_nonempty in Hfail. contradiction.
        -- exists r'. split; [exact Hin | split; assumption].
    + cbn [In]. rewrite IH. split.
      * intros [<- | (r' & Hin & Hf)].
        -- exists r. split; [left; reflexivity |].
           split; [apply gate_checks_nonempty, Hc | reflexivity].
        -- exists r'. split; [right; exact Hin | exact Hf].
      * intros (r' & [<- | Hin] & Hfail & Hf).
        -- left. symmetry. exact Hf.
        -- right. exists r'. split; [exact Hin | split; assumption].
Qed.

Lemma gate_failures_nonempty (cfg : EvalConfig) (rows : list Row) :
  gate_failures cfg rows <> [] <-> exists r, In r rows /\ canary_fails cfg r.
Proof.
  split.
  - intros Hne. destruct (gate_failures cfg rows) as [| f fs] eqn:E; [congruence |].
    assert (Hin : In f (gate_failures cfg rows)) by (rewrite E; left; reflexivity).
    apply gate_failures_lines in Hin. destruct Hin as (r & Hin & Hfail & _). eauto.
  - intros (r & Hin & Hfail) Hnil.
    assert (Hf : In (failure_line cfg r) (gate_failures cfg rows))
      by (apply gate_failures_lines; eauto).
    rewrite Hnil in Hf. destruct Hf.
Qed.

Lemma gate_verdict_code (cfg : EvalConfig) (rows : list Row) :
  (fst (gate_verdict cfg rows) = 1
   /\ require_100_percent (canary (thresholds cfg)) = true
   /\ gate_failures cfg rows <> []
   /\ snd (gate_verdict cfg rows) =
      ([MsgRunning; MsgCanaries (length rows) (Config.line_iou_min (w1 (thresholds cfg)));
        MsgFailed] ++ map MsgFailure (gate_failures cfg rows))%list)
  \/ (fst (gate_verdict cfg rows) = 0
      /\ (require_100_percent (canary (thresholds cfg)) = false
          \/ gate_failures cfg rows = [])
      /\ snd (gate_verdict cfg rows) =
         [MsgRunning; MsgCanaries (length rows) (Config.line_iou_min (w1 (thresholds cfg)));
          MsgPassed]).
Proof.
  unfold gate_verdict.
  destruct (require_100_percent (canary (thresholds cfg)));
    destruct (gate_failures cfg rows) as [| f fs]; cbn;
    first [ left; repeat split; discriminate
          | right; repeat split; auto ].
Qed.

Section WithWorld.

Variable pat_search : string -> string -> bool.
Variable subprocess_run : nat -> Task -> Z -> string -> list string -> proc_outcome.
Variable json_loads : string -> option Prediction.

Lemma assert_canary_gate_verdict (canary_tasks : list Task)
    (goldens : gmap string Golden) (cfg : EvalConfig) (n : nat) :
  fst (assert_canary_gate pat_search subprocess_run json_loads canary_tasks goldens cfg n)
  = gate_verdict cfg
      (fst (_run_suite pat_search subprocess_run json_loads canary_tasks goldens cfg n)).
Proof.
  unfold assert_canary_gate.
  destruct (_run_suite pat_search subprocess_run json_loads canary_tasks goldens cfg n).
  reflexivity.
Qed.

(** C8.  For every canary row the gate checks, independently, the path
    match (when required), the minimum line IoU against the configured
    threshold, the symbol match (when required) and faithfulness (when
    required); the row fails when any of these fails; with
    [require_100_percent] the gate fails exactly when some canary row fails;
    and a failing gate prints, for every failing row, its task id with the
    names of the checks that failed. *)
Theorem canary_gate_fails_iff_a_canary_fails (canary_tasks : list Task)
    (goldens : gmap string Golden) (cfg : EvalConfig) (n : nat) :
  let rows :=
    fst (_run_suite pat_search subprocess_run json_loads canary_tasks goldens cfg n) in
  let verdict :=
    fst (assert_canary_gate pat_search subprocess_run json_loads canary_tasks goldens
           cfg n) in
  let w := w1 (thresholds cfg) in
  (forall r,
     (In "path_match" (gate_checks cfg r)
      <-> path_match_required w = true /\ r_path_match r <> 1)
     /\ (In "line_iou_min" (gate_checks cfg r)
         <-> (r_line_iou_min r < Config.line_iou_min w)%Q)
     /\ (In "symbol_match" (gate_checks cfg r)
         <-> require_symbol_match w = true /\ r_symbol_match r <> 1)
     /\ (In "faithful" (gate_checks cfg r)
         <-> faithfulness_required w = true /\ r_faithful r <> 1))
  /\ (forall r, gate_checks cfg r <> [] <-> canary_fails cfg r)
  /\ (require_100_percent (canary (thresholds cfg)) = true ->
      (fst verdict = 1 <-> exists r, In r rows /\ canary_fails cfg r))
  /\ (require_100_percent (canary (thresholds cfg)) = true ->
      forall r, In r rows -> canary_fails cfg r ->
      In (MsgFailure (failure_line cfg r)) (snd verdict)).
Proof.
  cbv zeta. rewrite assert_canary_gate_verdict.
  set (rows := fst (_run_suite _ _ _ _ _ _ _)).
  split; [intros r; apply gate_checks_names |].
  split; [intros r; apply gate_checks_nonempty |].
  destruct (gate_verdict_code cfg rows) as [(Hc & Hreq & Hf & Hm) | (Hc & Hwhy & Hm)].
  - split.
    + intros _. rewrite Hc. split; [intros _ | reflexivity].
      apply gate_failures_nonempty, Hf.
    + intros _ r Hin Hfail. rewrite Hm.
      apply in_or_app. right. apply in_map.
      apply gate_failures_lines. eauto.
  - assert (Hnone : require_100_percent (canary (thresholds cfg)) = true ->
                    forall r, In r rows -> ~ canary_fails cfg r).
    { intros Hreq r Hin Hfail.
      assert (Hex : exists r, In r rows /\ canary_fails cfg r) by eauto.
      apply gate_failures_nonempty in Hex.
      destruct Hwhy as [Hoff | Hnil]; congruence. }
    split.
    + intros Hreq. rewrite Hc. split; [discriminate |].
      intros (r & Hin & Hfail). exfalso. exact (Hnone Hreq r Hin Hfail).
    + intros Hreq r Hin Hfail. exfalso. exact (Hnone Hreq r Hin Hfail).
Qed.

End WithWorld.

(** One canary task whose answer has no line ranges: the gate fails and
    names the task with the check that failed. *)
Lemma canary_gate_fails_iff_a_canary_fails_witness :
  let verdict :=
    fst (assert_canary_gate Scenario.literal_search
           (Scenario.sut_always (Completed "{}" 120))
           (Scenario.loads_always Scenario.prediction_no_ranges)
           [Scenario.task_T1] Scenario.goldens_T1 default_config 0%nat) in
  fst verdict = 1 /\ In (MsgFailure "T1: fail(line_iou_min)") (snd verdict).
Proof.
  cbv zeta.
  destruct (canary_gate_fails_iff_a_canary_fails Scenario.literal_search
              (Scenario.sut_always (Completed "{}" 120))
              (Scenario.loads_always Scenario.prediction_no_ranges)
              [Scenario.task_T1] Scenario.goldens_T1 default_config 0%nat)
    as (_ & _ & Hiff & Hreport).
  assert (Hex : exists r,
             In r Scenario.rows_no_ranges
             /\ canary_fails default_config r
             /\ failure_line default_config r = "T1: fail(line_iou_min)").
  { eexists. split; [vm_compute; left; reflexivity |].
    split; [right; left; vm_compute; reflexivity | vm_compute; reflexivity]. }
  destruct Hex as (r & Hin & Hfail & Hline).
  assert (Hcode : fst (fst (assert_canary_gate Scenario.literal_search
                              (Scenario.sut_always (Completed "{}" 120))
                              (Scenario.loads_always Scenario.prediction_no_ranges)
                              [Scenario.task_T1] Scenario.goldens_T1 default_config 0%nat))
                  = 1).
  { apply Hiff; [reflexivity |]. exists r. split; assumption. }
  split; [exact Hcode |].
  rewrite <- Hline. apply Hreport; [reflexivity | assumption | assumption].
Defined.

(** The gate example of the specification: of three canary rows the second
    is below the line IoU minimum; the gate fails and lists exactly that
    task with the reason [line_iou_min]. *)
Example canary_gate_three_rows :
  gate_verdict default_config Scenario.canary_rows
  = (1, [MsgRunning; MsgCanaries 3 (6 # 10); MsgFailed;
         MsgFailure "C2: fail(line_iou_min)"]).
Proof. reflexivity. Qed.

End CanaryGateFacts.

(** ** The SUT invoker on a timeout *)

Module CommonFacts.

Import Config Localization Faithfulness Taxonomy Common RunLocalization SpecWords.

Section WithWorld.

Variable pat_search : string -> string -> bool.
Variable subprocess_run : nat -> Task -> Z -> string -> list string -> proc_outcome.
Variable json_loads : string -> option Prediction.

(** Every task of a suite is sent to the SUT exactly once and yields a row,
    whatever the outcomes are. *)
Lemma run_suite_one_process_per_task (tasks : list Task) (goldens : gmap string Golden)
    (cfg : EvalConfig) (n : nat) :
  length (fst (_run_suite pat_search subprocess_run json_loads tasks goldens cfg n))
  = length tasks
  /\ snd (_run_suite pat_search subprocess_run json_loads tasks goldens cfg n)
     = (n + length tasks)%nat.
Proof.
  revert n. induction tasks as [| task tasks IH]; intros n.
  - cbn. split; [reflexivity | lia].
  - cbn [_run_suite]. unfold call_sut.
    destruct (subprocess_run n task _ _ _);
      destruct (IH (S n)) as [Hlen Hcount];
      destruct (_run_suite pat_search subprocess_run json_loads tasks goldens cfg (S n));
      cbn [fst snd length] in *; split; lia.
Qed.

(** C3 (amended).  When the SUT runs out of time on a task, the invoker
    returns a completed prediction: the body [{error: timeout}], the latency
    set to the elapsed milliseconds that the invoker measured, and the token
    fields [in], [out] and [context] set to 0.  The process is started once
    (no retry), the task yields a row with that latency and zero tokens, and
    the remaining tasks are run after it (the run is not aborted). *)
Theorem timeout_is_completed_prediction (task : Task) (tasks : list Task)
    (goldens : gmap string Golden) (cfg : EvalConfig) (n : nat) (elapsed_ms : Z) :
  subprocess_run n task (timeout_s (sut_cli cfg)) (cmd (sut_cli cfg))
    (extra_args (sut_cli cfg)) = TimeoutExpired elapsed_ms ->
  call_sut subprocess_run json_loads task (timeout_s (sut_cli cfg)) (cmd (sut_cli cfg))
    (extra_args (sut_cli cfg)) n
  = (timeout_prediction elapsed_ms, S n)
  /\ (exists row,
        _run_suite pat_search subprocess_run json_loads (task :: tasks) goldens cfg n
        = (row :: fst (_run_suite pat_search subprocess_run json_loads tasks goldens cfg
                         (S n)),
           snd (_run_suite pat_search subprocess_run json_loads tasks goldens cfg (S n)))
        /\ r_task_id row = t_id task
        /\ r_latency_ms row = elapsed_ms
        /\ r_tokens_in row = 0 /\ r_tokens_out row = 0 /\ r_context_tokens row = 0)
  /\ length (fst (_run_suite pat_search subprocess_run json_loads (task :: tasks) goldens
                    cfg n))
     = S (length tasks)
  /\ snd (_run_suite pat_search subprocess_run json_loads (task :: tasks) goldens cfg n)
     = (n + S (length tasks))%nat.
Proof.
  intros Hto.
  assert (Hcall :
    call_sut subprocess_run json_loads task (timeout_s (sut_cli cfg)) (cmd (sut_cli cfg))
      (extra_args (sut_cli cfg)) n = (timeout_prediction elapsed_ms, S n)).
  { unfold call_sut. rewrite Hto. reflexivity. }
  split; [exact Hcall |].
  split.
  - cbn [_run_suite]. rewrite Hcall.
    destruct (_run_suite pat_search subprocess_run json_loads tasks goldens cfg (S n)).
    eexists. split; [reflexivity |]. repeat split.
  - apply (run_suite_one_process_per_task (task :: tasks)).
Qed.

End WithWorld.

(** A SUT that times out after a minute: the prediction carries a latency
    of 60000 ms, not zero. *)
Lemma timeout_latency_is_not_zero :
  let pred :=
    fst (call_sut (Scenario.sut_always (TimeoutExpired 60000)) (fun _ => None)
           Scenario.task_T1 60 "python -m api.query_agent" [] 0%nat) in
  p_error pred = Some "timeout"
  /\ p_timing pred = Some (mkTiming (Some 60000))
  /\ pred_latency pred <> 0.
Proof. repeat split. discriminate. Qed.

Lemma timeout_is_completed_prediction_witness :
  call_sut (Scenario.sut_always (TimeoutExpired 60000)) (fun _ => None) Scenario.task_T1
    60 "python -m api.query_agent" [] 0%nat
  = (timeout_prediction 60000, 1%nat)
  /\ length
       (fst (_run_suite Scenario.literal_search
               (Scenario.sut_always (TimeoutExpired 60000)) (fun _ => None)
               [Scenario.task_T1; Scenario.task_T1] Scenario.goldens_T1 default_config
               0%nat))
     = 2%nat.
Proof.
  destruct (timeout_is_completed_prediction Scenario.literal_search
              (Scenario.sut_always (TimeoutExpired 60000)) (fun _ => None)
              Scenario.task_T1 [Scenario.task_T1] Scenario.goldens_T1 default_config
              0%nat 60000 eq_refl)
    as (Hcall & _ & Hlen & _).
  split; [exact Hcall | exact Hlen].
Defined.

End CommonFacts.

(** ** Variant generation *)

Module VariantsFacts.

Import Variants SpecWords.

Lemma generate_variant_golden_truth (source : Golden) (variant_id kind : string) :
  truth_unchanged source (generate_variant_golden source variant_id kind).
Proof. repeat split. Qed.

Lemma generate_variant_task_criteria (source : Golden) (variant_id kind : string)
    (method_func : string -> string) :
  criteria_unchanged source (generate_variant_task source variant_id kind method_func).
Proof. eexists. repeat split. Qed.

Lemma variants_of_golden_inv (sources : list Golden) (limit : Z) (golden : Golden)
    (kinds : list string) (st : GenState) :
  In golden sources ->
  Forall2 (variant_of sources) (variant_tasks st) (variant_goldens st) ->
  Forall2 (variant_of sources)
    (variant_tasks (variants_of_golden limit golden kinds st))
    (variant_goldens (variants_of_golden limit golden kinds st)).
Proof.
  intros Hin. revert st.
  induction kinds as [| kind kinds IH]; intros st Hinv; cbn [variants_of_golden].
  - exact Hinv.
  - destruct (Z.of_nat (generated st) >=? limit); [exact Hinv |].
    destruct (methods kind) as [method_func |]; [| apply IH, Hinv].
    apply IH. cbn [variant_tasks variant_goldens].
    apply Forall2_app; [exact Hinv |].
    constructor; [| constructor].
    exists golden. split; [exact Hin |].
    split; [apply generate_variant_golden_truth |].
    split; [apply generate_variant_task_criteria | reflexivity].
Qed.

Lemma generate_variants_from_inv (sources : list Golden) (limit : Z)
    (kinds : list string) (goldens : list Golden) (st : GenState) :
  (forall g, In g goldens -> In g sources) ->
  Forall2 (variant_of sources) (variant_tasks st) (variant_goldens st) ->
  Forall2 (variant_of sources)
    (variant_tasks (generate_variants_from limit kinds goldens st))
    (variant_goldens (generate_variants_from limit kinds goldens st)).
Proof.
  revert st. induction goldens as [| golden goldens IH]; intros st Hsub Hinv;
    cbn [generate_variants_from].
  - exact Hinv.
  - destruct (Z.of_nat (generated st) >=? limit); [exact Hinv |].
    apply IH.
    + intros g Hg. apply Hsub. right. exact Hg.
    + apply variants_of_golden_inv; [apply Hsub; left; reflexivity | exact Hinv].
Qed.

(** C9.  A variant golden has the paths, line ranges and quotes of its
    source golden, and a variant task has the source's paths and line ranges
    as acceptance criteria, whatever the kind and the transform; and every
    task and golden that [generate_variants] produces is such a variant of
    one of the source goldens. *)
Theorem variant_truth_unchanged :
  (forall (source : Golden) (variant_id kind : string) (method_func : string -> string),
     truth_unchanged source (generate_variant_golden source variant_id kind)
     /\ criteria_unchanged source
          (generate_variant_task source variant_id kind method_func))
  /\ (forall (goldens : list Golden) (limit : Z) (kinds : list string),
        Forall2 (variant_of goldens)
          (variant_tasks (generate_variants goldens limit kinds))
          (variant_goldens (generate_variants goldens limit kinds))).
Proof.
  split.
  - intros source variant_id kind method_func.
    split; [apply generate_variant_golden_truth | apply generate_variant_task_criteria].
  - intros goldens limit kinds. unfold generate_variants.
    apply generate_variants_from_inv; [auto | constructor].
Qed.

(** Generation from one golden with a limit of three: three variants, with
    the case-toggled, path-transformed and test-shadowed symbol, all with the
    source's paths and ranges. *)
Example generate_variants_three :
  let st :=
    generate_variants [Scenario.golden_display] 3
      ["case"; "reexport"; "test"; "vendor"; "nearname"] in
  map t_id (variant_tasks st)
  = [Some "W1-VAR-001"; Some "W1-VAR-002"; Some "W1-VAR-003"]
  /\ map (fun t => in_symbol (default (mkInputs None) (t_inputs t))) (variant_tasks st)
     = [Some "GDM_DISPLAY_FACTORY_CREATE_DISPLAY";
        Some "gdm_display_factory_create_display";
        Some "tests/gdm_display_factory_create_display"]
  /\ map g_paths (variant_goldens st)
     = [Some ["daemon/gdm-display-factory.c"]; Some ["daemon/gdm-display-factory.c"];
        Some ["daemon/gdm-display-factory.c"]]
  /\ map g_line_ranges (variant_goldens st)
     = [Some [(40, 75)]; Some [(40, 75)]; Some [(40, 75)]].
Proof. cbv zeta. repeat split. Qed.

End VariantsFacts.

(** ** Change-impact runner *)

Module RunChangeImpactFacts.

Import Config Faithfulness RunChangeImpact.

(** Without required anchors the loop does not run and both rates take the
    [else 0.0] branch. *)
Lemma deterministic_core_without_anchors (task : Task) (pred : Prediction)
    (golden : Golden) (cfg : EvalConfig) :
  or_empty (g_required_anchors golden) = [] ->
  anchors_required (_deterministic_core task pred golden cfg) = 0
  /\ anchor_coverage (_deterministic_core task pred golden cfg) = 0%Q
  /\ anchor_faithful_rate (_deterministic_core task pred golden cfg) = 0%Q.
Proof.
  intros Hreq. unfold _deterministic_core. rewrite Hreq. cbn. repeat split.
Qed.

(** A faithful rate of 0.0 is not 1.0, so the verdict is 0. *)
Lemma faithful_overall_zero_rate (core : Core) (cfg : EvalConfig) :
  anchor_faithful_rate core = 0%Q -> faithful_overall core cfg = 0.
Proof. intros Hrate. unfold faithful_overall. rewrite Hrate. reflexivity. Qed.

(** C10.  When the golden of a task specifies no required anchors, the
    anchor coverage and the anchor faithful rate are 0.0, and the task's
    [faithful_overall] verdict is 0. *)
Theorem no_required_anchors_never_faithful (task : Task) (pred : Prediction)
    (golden : Golden) (cfg : EvalConfig) :
  or_empty (g_required_anchors golden) = [] ->
  anchors_required (_deterministic_core task pred golden cfg) = 0
  /\ anchor_coverage (_deterministic_core task pred golden cfg) = 0%Q
  /\ anchor_faithful_rate (_deterministic_core task pred golden cfg) = 0%Q
  /\ faithful_overall (_deterministic_core task pred golden cfg) cfg = 0.
Proof.
  intros Hreq.
  destruct (deterministic_core_without_anchors task pred golden cfg Hreq)
    as (Hn & Hcov & Hrate).
  repeat split; try assumption.
  apply faithful_overall_zero_rate, Hrate.
Qed.

Lemma no_required_anchors_never_faithful_witness :
  anchors_required
    (_deterministic_core Scenario.task_T1 Scenario.prediction_T1 Scenario.golden_T1
       default_config) = 0
  /\ anchor_coverage
       (_deterministic_core Scenario.task_T1 Scenario.prediction_T1 Scenario.golden_T1
          default_config) = 0%Q
  /\ anchor_faithful_rate
       (_deterministic_core Scenario.task_T1 Scenario.prediction_T1 Scenario.golden_T1
          default_config) = 0%Q
  /\ faithful_overall
       (_deterministic_core Scenario.task_T1 Scenario.prediction_T1 Scenario.golden_T1
          default_config) default_config = 0.
Proof.
  apply (no_required_anchors_never_faithful Scenario.task_T1 Scenario.prediction_T1
           Scenario.golden_T1 default_config).
  reflexivity.
Defined.

Section WithSUT.

Variable subprocess_run : nat -> Task -> Z -> string -> list string -> Common.proc_outcome.
Variable json_loads : string -> option Prediction.

(** In a run whose goldens specify no required anchors, no row is faithful
    overall. *)
Lemma main_rows_without_anchors (tasks : list Task) (goldens : gmap string Golden)
    (cfg : EvalConfig) (n : nat) :
  (forall tid g, goldens !! tid = Some g -> or_empty (g_required_anchors g) = []) ->
  Forall (fun row => w2_faithful_overall row = 0)
    (fst (main subprocess_run json_loads tasks goldens cfg n)).
Proof.
  intros Hnone. revert n. induction tasks as [| task tasks IH]; intros n.
  - constructor.
  - cbn [main].
    destruct (Common.call_sut subprocess_run json_loads task _ _ _ n) as [pred n1].
    specialize (IH n1).
    destruct (main subprocess_run json_loads tasks goldens cfg n1) as [rows n2].
    cbn [fst] in *. constructor; [| exact IH].
    cbn [w2_faithful_overall].
    apply faithful_overall_zero_rate, deterministic_core_without_anchors.
    destruct (t_id task) as [tid |]; cbn; [| reflexivity].
    destruct (goldens !! tid) as [g |] eqn:E; cbn; [| reflexivity].
    apply (Hnone tid g E).
Qed.

End WithSUT.

End RunChangeImpactFacts.

(** * Further properties of the code *)

(** ** Ratios of counts *)

Module RatioProps.

Import LocalizationFacts.

Lemma ratio_eq_one (a d : Z) :
  0 < d -> ((inject_Z a / inject_Z d == 1)%Q <-> a = d).
Proof.
  intros Hd. destruct d as [| p | p]; try lia.
  unfold Qeq, Qdiv, Qmult, Qinv, inject_Z. cbn [Qnum Qden]. lia.
Qed.

Lemma ratio_le (a b d : Z) :
  a <= b -> 0 < d -> (inject_Z a / inject_Z d <= inject_Z b / inject_Z d)%Q.
Proof.
  intros Hab Hd.
  assert (Hd' : (0 < inject_Z d)%Q).
  { change (inject_Z 0 < inject_Z d)%Q. rewrite <- Zlt_Qlt. exact Hd. }
  apply Qle_shift_div_l; [exact Hd' |].
  unfold Qdiv. rewrite <- Qmult_assoc, (Qmult_comm (/ _)), Qmult_inv_r, Qmult_1_r.
  - rewrite <- Zle_Qle. exact Hab.
  - intros H0. rewrite H0 in Hd'. discriminate Hd'.
Qed.

End RatioProps.

(** ** Path match and symbol presence *)

Module PathAndSymbolProps.

Import Localization SpecWords LocalizationFacts.

(** X1: [path_match_all_only] compares the two path lists as sets: it is 1
    exactly when every predicted path is a golden path and every golden path is
    predicted (order and repetitions do not count), it is 0 otherwise, and it
    does not depend on which list is the prediction. *)
Theorem path_match_all_only_same_set (pred_paths golden_paths : list string) :
  (path_match_all_only pred_paths golden_paths = 1
   <-> same_path_set pred_paths golden_paths)
  /\ (path_match_all_only pred_paths golden_paths = 0
      <-> ~ same_path_set pred_paths golden_paths)
  /\ path_match_all_only pred_paths golden_paths
     = path_match_all_only golden_paths pred_paths.
Proof.
  unfold path_match_all_only. rewrite <- list_to_set_eq_iff.
  repeat case_bool_decide; repeat split; intros; try reflexivity; try discriminate;
    try congruence; try contradiction.
Qed.

(** X2: [symbol_presence]: the symbol counts as present exactly when the
    task names no symbol, or there is at least one predicted path and some quote
    matches the symbol pattern; the match is 0 or 1 and the presence rate is the
    same number as a float. *)
Theorem symbol_presence_any_quote (pat_search : string -> string -> bool)
    (pred_paths quotes : list string) (inputs : Inputs) :
  let r := symbol_presence pat_search pred_paths quotes inputs in
  (sp_symbol_match r = 1
   <-> truthy (in_symbol inputs) = false
       \/ (pred_paths <> []
           /\ exists q, In q quotes
                        /\ pat_search (default "" (in_symbol inputs)) q = true))
  /\ (sp_symbol_match r = 0 \/ sp_symbol_match r = 1)
  /\ sp_symbol_presence_rate r = inject_Z (sp_symbol_match r).
Proof.
  cbv zeta. unfold symbol_presence.
  destruct (truthy (in_symbol inputs)).
  - destruct pred_paths as [| p ps].
    + cbn. repeat split; auto; try discriminate.
      intros [Hf | [Hne _]]; [discriminate | congruence].
    + destruct (existsb (pat_search (default "" (in_symbol inputs))) quotes) eqn:E.
      * cbn. repeat split; auto. intros _. right. split; [discriminate |].
        apply existsb_exists in E. exact E.
      * cbn. repeat split; auto; try discriminate.
        intros [Hf | [_ Hex]]; [discriminate |].
        apply existsb_exists in Hex. congruence.
  - cbn. repeat split; auto.
Qed.

End PathAndSymbolProps.

(** ** Bounds of the line IoU scores *)

Module ScoreProps.

Import Localization SpecWords LocalizationFacts.

Lemma best_iou_bounds (p : line_range) (goldens : list line_range) :
  (0 <= best_iou p goldens <= 1)%Q.
Proof.
  unfold best_iou. split.
  - apply (fold_max_ge_init (_iou p)).
  - assert (H : forall gs init, (init <= 1)%Q ->
               (fold_left (fun best g => Qmax best (_iou p g)) gs init <= 1)%Q).
    { induction gs as [| g gs IH]; intros init Hinit; cbn [fold_left].
      - exact Hinit.
      - apply IH. apply Q.max_lub; [exact Hinit | apply iou_bounds]. }
    apply H. discriminate.
Qed.

Lemma total_bounds (xs : list Q) (lo hi : Q) :
  (forall x, In x xs -> (lo <= x <= hi)%Q) ->
  (lo * inject_Z (Z.of_nat (length xs)) <= total xs
   <= hi * inject_Z (Z.of_nat (length xs)))%Q.
Proof.
  induction xs as [| x xs IH]; intros Hall.
  - cbn. rewrite !Qmult_0_r. split; apply Qle_refl.
  - assert (Hx : (lo <= x <= hi)%Q) by (apply Hall; left; reflexivity).
    destruct IH as [IHlo IHhi]; [intros y Hy; apply Hall; right; exact Hy |].
    cbn [total length]. rewrite Nat2Z.inj_succ. unfold Z.succ.
    rewrite inject_Z_plus, !Qmult_plus_distr_r, !Qmult_1_r.
    split.
    + rewrite (Qplus_comm (lo * _)). apply Qplus_le_compat; [apply Hx | exact IHlo].
    + rewrite (Qplus_comm (hi * _)). apply Qplus_le_compat; [apply Hx | exact IHhi].
Qed.

Lemma mean_bounds (xs : list Q) (m lo hi : Q) :
  xs <> [] -> is_mean xs m ->
  (forall x, In x xs -> (lo <= x <= hi)%Q) -> (lo <= m <= hi)%Q.
Proof.
  intros Hne Hmean Hall. unfold is_mean in Hmean.
  destruct (total_bounds xs lo hi Hall) as [Hlo Hhi].
  assert (Hn : (0 < inject_Z (Z.of_nat (length xs)))%Q).
  { change (inject_Z 0 < inject_Z (Z.of_nat (length xs)))%Q. rewrite <- Zlt_Qlt.
    destruct xs; [congruence | cbn [length]; lia]. }
  rewrite <- Hmean in Hlo, Hhi.
  split.
  - apply (Qmult_le_r _ _ _ Hn). exact Hlo.
  - apply (Qmult_le_r _ _ _ Hn). exact Hhi.
Qed.

Lemma scores_mean_min (p : line_range) (ps : list line_range) (g : line_range)
    (gs : list line_range) :
  is_mean (per_pair (line_iou_scores (p :: ps) (g :: gs)))
    (avg (line_iou_scores (p :: ps) (g :: gs)))
  /\ is_minimum (per_pair (line_iou_scores (p :: ps) (g :: gs)))
       (min (line_iou_scores (p :: ps) (g :: gs))).
Proof.
  rewrite line_iou_scores_nonempty. cbv zeta. cbn [per_pair avg min]. split.
  - unfold is_mean.
    set (pairs := map (fun q => best_iou q (g :: gs)) (p :: ps)).
    rewrite <- (py_sum_total pairs).
    rewrite Qmult_comm. apply Qmult_div_r.
    intros H0. unfold Qeq in H0. cbn [Qnum Qden inject_Z] in H0.
    subst pairs. rewrite length_map in H0. cbn [length] in H0. lia.
  - apply (py_min_is_minimum (map (fun q => best_iou q (g :: gs)) ps)).
Qed.

Lemma scores_bounds (preds goldens : list line_range) :
  (0 <= min (line_iou_scores preds goldens))%Q
  /\ (min (line_iou_scores preds goldens) <= avg (line_iou_scores preds goldens))%Q
  /\ (avg (line_iou_scores preds goldens) <= 1)%Q
  /\ Forall (fun b => (0 <= b <= 1)%Q) (per_pair (line_iou_scores preds goldens)).
Proof.
  destruct preds as [| p ps].
  { cbn. repeat split; try apply Qle_refl; try discriminate. constructor. }
  destruct goldens as [| g gs].
  { cbn. repeat split; try apply Qle_refl; try discriminate. constructor. }
  destruct (scores_mean_min p ps g gs) as (Hmean & Hmin).
  assert (Hall : forall b, In b (per_pair (line_iou_scores (p :: ps) (g :: gs))) ->
                           (0 <= b <= 1)%Q).
  { rewrite line_iou_scores_nonempty. cbv zeta. cbn [per_pair].
    intros b Hb. apply in_map_iff in Hb. destruct Hb as (q & <- & _).
    apply best_iou_bounds. }
  assert (Hne : per_pair (line_iou_scores (p :: ps) (g :: gs)) <> [])
    by (rewrite line_iou_scores_nonempty; discriminate).
  destruct Hmin as [(x & Hx & Hmx) Hle].
  split; [| split; [| split]].
  - rewrite Hmx. apply Hall, Hx.
  - apply (mean_bounds _ _ _ 1 Hne Hmean).
    intros y Hy. split; [apply Hle, Hy | apply Hall, Hy].
  - apply (mean_bounds _ _ 0 1 Hne Hmean Hall).
  - apply Forall_forall. intros b Hb. apply Hall, list_elem_of_In, Hb.
Qed.


(** X4: [line_iou_scores]: when there is at least one predicted range and
    every predicted range is a non-empty golden range, the minimum and the
    average are both 1; golden ranges that were not predicted cost nothing. *)
Theorem line_iou_scores_exact_prediction (preds goldens : list line_range) :
  preds <> [] ->
  (forall p, In p preds -> In p goldens /\ fst p < snd p) ->
  (min (line_iou_scores preds goldens) == 1)%Q
  /\ (avg (line_iou_scores preds goldens) == 1)%Q.
Proof.
  intros Hne Hall.
  assert (Hg : goldens <> []).
  { destruct preds as [| p ps]; [congruence |].
    destruct (Hall p (or_introl eq_refl)) as [Hin _]. intros ->. destruct Hin. }
  assert (Hmm : is_mean (per_pair (line_iou_scores preds goldens))
                  (avg (line_iou_scores preds goldens))
                /\ is_minimum (per_pair (line_iou_scores preds goldens))
                     (min (line_iou_scores preds goldens))).
  { destruct preds as [| p ps]; [congruence |].
    destruct goldens as [| g gs]; [congruence |]. apply scores_mean_min. }
  destruct Hmm as (Hmean & Hmin).
  assert (Hone : forall b, In b (per_pair (line_iou_scores preds goldens)) -> (b == 1)%Q).
  { intros b Hb.
    destruct preds as [| p ps]; [congruence |].
    destruct goldens as [| g gs]; [congruence |].
    rewrite line_iou_scores_nonempty in Hb. cbv zeta in Hb. cbn [per_pair] in Hb.
    apply in_map_iff in Hb. destruct Hb as (q & <- & Hq).
    destruct (Hall q Hq) as [Hin Hlt].
    apply Qle_antisym; [apply best_iou_bounds |].
    rewrite <- (iou_same q Hlt).
    apply (fold_max_ge_elem (_iou q) (g :: gs) 0 q Hin). }
  assert (Hpp : per_pair (line_iou_scores preds goldens) <> []).
  { destruct preds as [| p ps]; [congruence |].
    destruct goldens as [| g gs]; [congruence |].
    rewrite line_iou_scores_nonempty. discriminate. }
  split.
  - destruct Hmin as [(x & Hx & Hmx) _]. rewrite Hmx. apply Hone, Hx.
  - apply Qle_antisym.
    + apply (mean_bounds _ _ 1 1 Hpp Hmean).
      intros y Hy. rewrite (Hone y Hy). split; apply Qle_refl.
    + apply (mean_bounds _ _ 1 1 Hpp Hmean).
      intros y Hy. rewrite (Hone y Hy). split; apply Qle_refl.
Qed.

Lemma line_iou_scores_exact_prediction_witness :
  Qeq (min (line_iou_scores [(10, 20); (30, 35)] [(30, 35); (10, 20); (1, 2)])) 1
  /\ Qeq (avg (line_iou_scores [(10, 20); (30, 35)] [(30, 35); (10, 20); (1, 2)])) 1.
Proof.
  apply line_iou_scores_exact_prediction; [discriminate |].
  intros p [<- | [<- | []]]; cbn; split; try lia; auto.
Defined.

End ScoreProps.

(** ** Secondary labels and change-impact labels *)

Module LabelProps.

Import Localization Faithfulness Taxonomy SpecWords.

Lemma In_append_if (c : bool) (label x : string) (secondary : list string) :
  In x (append_if c label secondary) <-> In x secondary \/ (c = true /\ x = label).
Proof.
  unfold append_if. destruct c.
  - rewrite in_app_iff. cbn. intuition congruence.
  - intuition congruence.
Qed.

Lemma NoDup_append_if (c : bool) (label : string) (secondary : list string) :
  List.NoDup secondary -> ~ In label secondary ->
  List.NoDup (append_if c label secondary).
Proof.
  intros Hnd Hnin. unfold append_if. destruct c; [| exact Hnd].
  apply NoDup_ListNoDup, NoDup_app. repeat split.
  - apply NoDup_ListNoDup, Hnd.
  - intros x Hx Hx'. apply list_elem_of_In in Hx.
    apply list_elem_of_In in Hx'. destruct Hx' as [<- | []]. contradiction.
  - apply NoDup_ListNoDup. constructor; [intros [] | constructor].
Qed.

(** The secondary labels, as the appends in source order. *)
Lemma map_labels_secondary (pred : Prediction) (gold : Golden) (localization : LocResult)
    (faithfulness : FaithResult) (thresholds : LabelThresholds) :
  let ppaths : gset string :=
    list_to_set (or_empty (a_paths (default empty_answer (p_answer pred)))) in
  secondary (map_labels pred gold localization faithfulness thresholds) =
  append_if (cost_slo_hit pred thresholds) LABEL_COST_SLO
    (append_if (latency_slo_hit pred thresholds) LABEL_LATENCY_SLO
       (append_if
          (existsb (fun p => str_in "/test" p || str_in "/tests/" p) (elements ppaths))
          LABEL_TEST_INSTEAD_OF_SRC
          (append_if
             (existsb (fun p => str_in "/vendor/" p || str_in "third_party" p)
                (elements ppaths))
             LABEL_VENDOR_HIT
             (append_if
                (negb (String.eqb (faithfulness_reason faithfulness) "cite_missing")
                 && String.eqb (faithfulness_reason faithfulness) "cite_irrelevant")
                LABEL_CITE_IRRELEVANT
                (append_if (String.eqb (faithfulness_reason faithfulness) "cite_missing")
                   LABEL_CITE_MISSING
                   (append_if (symbol_match localization =? 0) LABEL_SYMBOL_ABSENT
                      [])))))).
Proof.
  cbv zeta. unfold map_labels. cbn [secondary].
  destruct (String.eqb (faithfulness_reason faithfulness) "cite_missing");
    destruct (String.eqb (faithfulness_reason faithfulness) "cite_irrelevant");
    reflexivity.
Qed.

Lemma existsb_elements (f : string -> bool) (l : list string) :
  existsb f (elements (list_to_set l : gset string)) = true
  <-> exists p, In p l /\ f p = true.
Proof.
  rewrite existsb_exists. split; intros (p & Hin & Hf); exists p; split; try exact Hf.
  - apply list_elem_of_In. apply list_elem_of_In in Hin.
    apply elem_of_elements in Hin. apply elem_of_list_to_set in Hin. exact Hin.
  - apply list_elem_of_In, elem_of_elements, elem_of_list_to_set, list_elem_of_In, Hin.
Qed.

Lemma latency_slo_hit_iff (pred : Prediction) (thresholds : LabelThresholds) :
  latency_slo_hit pred thresholds = true
  <-> pred_latency pred <> 0 /\ th_p95_latency_ms thresholds < pred_latency pred.
Proof.
  unfold latency_slo_hit. rewrite andb_true_iff, negb_true_iff, Z.eqb_neq, Z.gtb_lt.
  reflexivity.
Qed.

Lemma cost_slo_hit_iff (pred : Prediction) (thresholds : LabelThresholds) :
  cost_slo_hit pred thresholds = true
  <-> th_max_tokens_in thresholds < default 0 (tok_in (pred_tokens pred))
      \/ th_max_tokens_out thresholds < default 0 (tok_out (pred_tokens pred))
      \/ th_max_context_tokens thresholds < default 0 (tok_context (pred_tokens pred)).
Proof. unfold cost_slo_hit. rewrite !orb_true_iff, !Z.gtb_lt. tauto. Qed.

Lemma cite_irrelevant_iff (reason : string) :
  negb (String.eqb reason "cite_missing") && String.eqb reason "cite_irrelevant" = true
  <-> reason = "cite_irrelevant".
Proof.
  rewrite andb_true_iff, negb_true_iff, String.eqb_eq. split; [tauto |].
  intros ->. split; reflexivity.
Qed.

(** Membership in the secondary labels: each label has its own condition. *)
Lemma secondary_In (pred : Prediction) (gold : Golden) (localization : LocResult)
    (faithfulness : FaithResult) (thresholds : LabelThresholds) (x : string) :
  let ppaths := or_empty (a_paths (default empty_answer (p_answer pred))) in
  In x (secondary (map_labels pred gold localization faithfulness thresholds))
  <-> (symbol_match localization = 0 /\ x = "symbol_absent")
      \/ (faithfulness_reason faithfulness = "cite_missing" /\ x = "cite_missing")
      \/ (faithfulness_reason faithfulness = "cite_irrelevant" /\ x = "cite_irrelevant")
      \/ ((exists p, In p ppaths
                     /\ (str_in "/vendor/" p || str_in "third_party" p) = true)
          /\ x = "vendor_hit")
      \/ ((exists p, In p ppaths /\ (str_in "/test" p || str_in "/tests/" p) = true)
          /\ x = "test_instead_of_src")
      \/ ((pred_latency pred <> 0 /\ th_p95_latency_ms thresholds < pred_latency pred)
          /\ x = "latency_slo")
      \/ ((th_max_tokens_in thresholds < default 0 (tok_in (pred_tokens pred))
           \/ th_max_tokens_out thresholds < default 0 (tok_out (pred_tokens pred))
           \/ th_max_context_tokens thresholds
              < default 0 (tok_context (pred_tokens pred)))
          /\ x = "cost_slo").
Proof.
  cbv zeta. rewrite map_labels_secondary. cbv zeta.
  rewrite !In_append_if.
  rewrite <- !existsb_elements, <- latency_slo_hit_iff, <- cost_slo_hit_iff.
  rewrite <- (cite_irrelevant_iff (faithfulness_reason faithfulness)).
  rewrite <- (String.eqb_eq (faithfulness_reason faithfulness) "cite_missing").
  rewrite <- (Z.eqb_eq (symbol_match localization) 0).
  unfold LABEL_COST_SLO, LABEL_LATENCY_SLO, LABEL_TEST_INSTEAD_OF_SRC, LABEL_VENDOR_HIT,
    LABEL_CITE_IRRELEVANT, LABEL_CITE_MISSING, LABEL_SYMBOL_ABSENT.
  cbn [In]. tauto.
Qed.

Lemma secondary_NoDup (pred : Prediction) (gold : Golden) (localization : LocResult)
    (faithfulness : FaithResult) (thresholds : LabelThresholds) :
  List.NoDup (secondary (map_labels pred gold localization faithfulness thresholds)).
Proof.
  rewrite map_labels_secondary. cbv zeta.
  unfold LABEL_COST_SLO, LABEL_LATENCY_SLO, LABEL_TEST_INSTEAD_OF_SRC, LABEL_VENDOR_HIT,
    LABEL_CITE_IRRELEVANT, LABEL_CITE_MISSING, LABEL_SYMBOL_ABSENT.
  repeat (apply NoDup_append_if; [| rewrite ?In_append_if; cbn [In];
                                     intuition discriminate]).
  constructor.
Qed.

(** X5: [map_labels]: each of the seven secondary labels is present
    exactly under its own condition (symbol match 0; the two citation reasons;
    a predicted path with a vendor or a test marker; a non-zero latency above
    the SLO; a token count above its limit), no other label is ever emitted,
    and no label is emitted twice. *)
Theorem map_labels_secondary_labels (pred : Prediction) (gold : Golden)
    (localization : LocResult) (faithfulness : FaithResult)
    (thresholds : LabelThresholds) :
  let ppaths := or_empty (a_paths (default empty_answer (p_answer pred))) in
  let s := secondary (map_labels pred gold localization faithfulness thresholds) in
  (In "symbol_absent" s <-> symbol_match localization = 0)
  /\ (In "cite_missing" s <-> faithfulness_reason faithfulness = "cite_missing")
  /\ (In "cite_irrelevant" s <-> faithfulness_reason faithfulness = "cite_irrelevant")
  /\ (In "vendor_hit" s
      <-> exists p, In p ppaths
                    /\ (str_in "/vendor/" p || str_in "third_party" p) = true)
  /\ (In "test_instead_of_src" s
      <-> exists p, In p ppaths /\ (str_in "/test" p || str_in "/tests/" p) = true)
  /\ (In "latency_slo" s
      <-> pred_latency pred <> 0 /\ th_p95_latency_ms thresholds < pred_latency pred)
  /\ (In "cost_slo" s
      <-> th_max_tokens_in thresholds < default 0 (tok_in (pred_tokens pred))
          \/ th_max_tokens_out thresholds < default 0 (tok_out (pred_tokens pred))
          \/ th_max_context_tokens thresholds
             < default 0 (tok_context (pred_tokens pred)))
  /\ (forall x, In x s ->
      In x ["symbol_absent"; "cite_missing"; "cite_irrelevant"; "vendor_hit";
            "test_instead_of_src"; "latency_slo"; "cost_slo"])
  /\ List.NoDup s.
Proof.
  cbv zeta.
  repeat match goal with
         | |- _ /\ _ => split
         end;
    try apply secondary_NoDup;
    try (intros x Hx; apply secondary_In in Hx; cbv zeta in Hx; cbn [In];
         intuition auto);
    rewrite secondary_In; cbv zeta; intuition discriminate.
Qed.

(** X6: [map_w2_labels]: the primary label is decided in the order
    forbidden claim, missing anchors, unfaithful anchors, and is [ok] only when
    none of the three holds. *)
Theorem map_w2_labels_primary_precedence (forbidden_hit : bool)
    (anchors_found anchors_faithful anchors_required : Z) (slo : LabelThresholds)
    (pred : Prediction) :
  let p :=
    primary (map_w2_labels forbidden_hit anchors_found anchors_faithful anchors_required
               slo pred) in
  (forbidden_hit = true -> p = "forbidden_claim")
  /\ (forbidden_hit = false -> anchors_found < anchors_required ->
      p = "anchors_missing")
  /\ (forbidden_hit = false -> anchors_required <= anchors_found ->
      anchors_faithful < anchors_required -> p = "anchors_unfaithful")
  /\ (forbidden_hit = false -> anchors_required <= anchors_found ->
      anchors_required <= anchors_faithful -> p = "ok").
Proof.
  cbv zeta. unfold map_w2_labels. cbn [primary].
  destruct forbidden_hit;
    destruct (Z.ltb_spec anchors_found anchors_required);
    destruct (Z.ltb_spec anchors_faithful anchors_required);
    repeat split; intros; try reflexivity; try discriminate; lia.
Qed.

End LabelProps.

(** ** Rows of a suite run *)

Module SuiteProps.

Import Config Localization Faithfulness Taxonomy Common RunLocalization SpecWords.
Import LocalizationFacts RunLocalizationFacts CanaryGateFacts TaxonomyFacts.
Import SuiteWords.

Section WithWorld.

Variable pat_search : string -> string -> bool.
Variable subprocess_run : nat -> Task -> Z -> string -> list string -> proc_outcome.
Variable json_loads : string -> option Prediction.

Lemma run_suite_cons (task : Task) (tasks : list Task) (goldens : gmap string Golden)
    (cfg : EvalConfig) (n : nat) :
  let pred :=
    fst (call_sut subprocess_run json_loads task (timeout_s (sut_cli cfg))
           (cmd (sut_cli cfg)) (extra_args (sut_cli cfg)) n) in
  _run_suite pat_search subprocess_run json_loads (task :: tasks) goldens cfg n
  = (suite_row (t_id task) pred
       (_evaluate_task pat_search task pred
          (default empty_golden (t_id task ≫= (goldens !!.))) cfg)
     :: fst (_run_suite pat_search subprocess_run json_loads tasks goldens cfg (S n)),
     snd (_run_suite pat_search subprocess_run json_loads tasks goldens cfg (S n))).
Proof.
  cbv zeta. cbn [_run_suite]. unfold call_sut.
  destruct (subprocess_run n task _ _ _);
    destruct (_run_suite pat_search subprocess_run json_loads tasks goldens cfg (S n));
    reflexivity.
Qed.

Lemma run_suite_rows (tasks : list Task) (goldens : gmap string Golden)
    (cfg : EvalConfig) (n : nat) :
  Forall2 (row_of_task pat_search goldens cfg) tasks
    (fst (_run_suite pat_search subprocess_run json_loads tasks goldens cfg n)).
Proof.
  revert n. induction tasks as [| task tasks IH]; intros n.
  - constructor.
  - rewrite run_suite_cons. cbv zeta. cbn [fst]. constructor; [| apply IH].
    eexists. reflexivity.
Qed.

(** X7: [_run_suite]: the rows come out one per task and in task order;
    the task ids of the rows are the ids of the tasks. *)
Theorem run_suite_rows_in_task_order (tasks : list Task) (goldens : gmap string Golden)
    (cfg : EvalConfig) (n : nat) :
  map r_task_id (fst (_run_suite pat_search subprocess_run json_loads tasks goldens cfg n))
  = map t_id tasks.
Proof.
  pose proof (run_suite_rows tasks goldens cfg n) as H.
  induction H as [| task row tasks rows (pred & ->) _ IH]; [reflexivity |].
  cbn [map]. rewrite IH. reflexivity.
Qed.

End WithWorld.

End SuiteProps.

(** ** The label [ok] and the verdict *)

Module VerdictProps.

Import Config Localization Faithfulness Taxonomy Common RunLocalization SpecWords.
Import LocalizationFacts RunLocalizationFacts CanaryGateFacts TaxonomyFacts.
Import ScoreProps LabelProps SuiteProps.
Import SuiteWords.

Lemma path_match_one_iff (ps gs : list string) :
  path_match_all_only ps gs = 1
  <-> (list_to_set ps : gset string) = list_to_set gs.
Proof. unfold path_match_all_only. case_bool_decide; split; congruence. Qed.

Lemma primary_ok_iff (pred : Prediction) (gold : Golden) (localization : LocResult)
    (faithfulness : FaithResult) (thresholds : LabelThresholds) :
  primary (map_labels pred gold localization faithfulness thresholds) = "ok"
  <-> or_empty (g_paths gold) <> []
      /\ (list_to_set (or_empty (a_paths (default empty_answer (p_answer pred))))
          : gset string) = list_to_set (or_empty (g_paths gold))
      /\ (th_line_iou_min thresholds <= Localization.line_iou_min localization)%Q.
Proof.
  rewrite map_labels_primary. cbv zeta.
  rewrite <- Qltb_ge, <- (list_to_set_empty_iff (or_empty (g_paths gold))).
  unfold LABEL_MISSING_PATH, LABEL_WRONG_PATH, LABEL_WRONG_LINE, LABEL_OK.
  destruct (Qltb _ _); repeat case_bool_decide; cbn [andb];
    (split; [intros Hlabel; try discriminate Hlabel
            | intros (Hg & Hsame & Hthr); try reflexivity; try discriminate Hthr ]);
    try tauto; try congruence.
Qed.

Section WithRegex.

Variable pat_search : string -> string -> bool.

Lemma passed_one_iff (task : Task) (prediction : Prediction) (golden : Golden)
    (cfg : EvalConfig) :
  let r := _evaluate_task pat_search task prediction golden cfg in
  let w := w1 (thresholds cfg) in
  passed r = 1 <->
  (path_match_required w = true -> path_match (loc r) = 1)
  /\ (Config.line_iou_min w <= Localization.line_iou_min (loc r))%Q
  /\ (require_symbol_match w = true -> symbol_match (loc r) = 1)
  /\ (faithfulness_required w = true -> faithful (faith r) = 1).
Proof.
  cbv zeta. rewrite evaluate_task_passed. cbv zeta.
  rewrite <- !gated_check_false, <- Qltb_ge.
  destruct (_ && negb (path_match _ =? 1)), (Qltb _ _),
    (_ && negb (symbol_match _ =? 1)), (_ && negb (faithful _ =? 1));
    cbn [orb]; intuition congruence.
Qed.

Lemma evaluate_task_primary_ok_iff (task : Task) (prediction : Prediction)
    (golden : Golden) (cfg : EvalConfig) :
  let r := _evaluate_task pat_search task prediction golden cfg in
  primary (labels r) = "ok"
  <-> or_empty (g_paths golden) <> []
      /\ path_match (loc r) = 1
      /\ (Config.line_iou_min (w1 (thresholds cfg))
          <= Localization.line_iou_min (loc r))%Q.
Proof.
  cbv zeta. unfold _evaluate_task at 1. cbn [labels].
  rewrite primary_ok_iff. cbn [th_line_iou_min].
  destruct (evaluate_task_loc pat_search task prediction golden cfg) as [-> _].
  unfold evaluate_localization at 2. cbn [path_match].
  rewrite path_match_one_iff. reflexivity.
Qed.

(** X8: [_evaluate_task]: the primary label is [ok] exactly when the golden
    has paths, the paths match and the minimum line IoU reaches the threshold.
    A task labelled [ok] passes as soon as the symbol and faithfulness checks
    that the configuration requires hold; a task that passes while the path
    check is required and the golden has paths is labelled [ok]. *)
Theorem label_ok_and_verdict (task : Task) (prediction : Prediction) (golden : Golden)
    (cfg : EvalConfig) :
  let r := _evaluate_task pat_search task prediction golden cfg in
  let w := w1 (thresholds cfg) in
  (primary (labels r) = "ok" <->
   or_empty (g_paths golden) <> []
   /\ path_match (loc r) = 1
   /\ (Config.line_iou_min w <= Localization.line_iou_min (loc r))%Q)
  /\ (primary (labels r) = "ok" ->
      (require_symbol_match w = true -> symbol_match (loc r) = 1) ->
      (faithfulness_required w = true -> faithful (faith r) = 1) ->
      passed r = 1)
  /\ (passed r = 1 -> path_match_required w = true ->
      or_empty (g_paths golden) <> [] -> primary (labels r) = "ok").
Proof.
  cbv zeta.
  pose proof (evaluate_task_primary_ok_iff task prediction golden cfg) as Hok.
  pose proof (passed_one_iff task prediction golden cfg) as Hpass.
  cbv zeta in Hok, Hpass.
  split; [exact Hok |]. split.
  - intros Hlabel Hsym Hfaith. apply Hok in Hlabel. apply Hpass. tauto.
  - intros Hp Hreq Hg. apply Hpass in Hp. apply Hok. tauto.
Qed.

End WithRegex.

End VerdictProps.

(** ** The SUT invoker *)

Module InvokerProps.

Import Config Localization Faithfulness Taxonomy Common RunLocalization SpecWords.
Import LocalizationFacts RunLocalizationFacts CanaryGateFacts TaxonomyFacts.
Import ScoreProps LabelProps SuiteProps VerdictProps.
Import SuiteWords.

(** X9: [_normalize_timing_tokens]: normalizing twice is normalizing once,
    whatever the second fallback; the answer, citations, error and raw output
    are untouched; a latency or token count that the SUT reported is kept, and
    the fallback latency and zero token counts fill in only what is absent. *)
Theorem normalize_timing_tokens_keeps_reported (resp : Prediction) (fallback other : Z) :
  let r := _normalize_timing_tokens resp fallback in
  _normalize_timing_tokens r other = r
  /\ p_answer r = p_answer resp /\ p_citations r = p_citations resp
  /\ p_error r = p_error resp /\ p_raw r = p_raw resp
  /\ (forall t l, p_timing resp = Some t -> latency_ms t = Some l -> pred_latency r = l)
  /\ ((p_timing resp = None \/ p_timing resp = Some (mkTiming None)) ->
      pred_latency r = fallback)
  /\ (forall k, p_tokens resp = Some k ->
      tok_in (pred_tokens r) = Some (default 0 (tok_in k))
      /\ tok_out (pred_tokens r) = Some (default 0 (tok_out k))
      /\ tok_context (pred_tokens r) = Some (default 0 (tok_context k)))
  /\ (p_tokens resp = None ->
      pred_tokens r = mkTokens (Some 0) (Some 0) (Some 0)).
Proof.
  cbv zeta. unfold _normalize_timing_tokens, pred_latency, pred_tokens.
  destruct resp as [a c t k e w]. cbn.
  repeat split.
  - intros t0 l -> Hl. cbn. rewrite Hl. reflexivity.
  - intros [-> | ->]; reflexivity.
  - subst. reflexivity.
  - subst. reflexivity.
  - subst. reflexivity.
  - intros ->. reflexivity.
Qed.

Lemma normalize_timing_tokens_keeps_reported_witness :
  pred_latency
    (_normalize_timing_tokens
       (mkPrediction None None (Some (mkTiming (Some 42))) None None None) 900) = 42
  /\ pred_latency (_normalize_timing_tokens empty_prediction 900) = 900.
Proof.
  split.
  - destruct (normalize_timing_tokens_keeps_reported
                (mkPrediction None None (Some (mkTiming (Some 42))) None None None)
                900 0) as (_ & _ & _ & _ & _ & Hkeep & _).
    apply (Hkeep (mkTiming (Some 42)) 42); reflexivity.
  - destruct (normalize_timing_tokens_keeps_reported empty_prediction 900 0)
      as (_ & _ & _ & _ & _ & _ & Hfall & _).
    apply Hfall. left. reflexivity.
Defined.

Section WithWorld.

Variable pat_search : string -> string -> bool.
Variable subprocess_run : nat -> Task -> Z -> string -> list string -> proc_outcome.
Variable json_loads : string -> option Prediction.


End WithWorld.

End InvokerProps.

(** ** How failures are scored *)

Module FailureProps.

Import Config Localization Faithfulness Taxonomy Common RunLocalization SpecWords.
Import LocalizationFacts RunLocalizationFacts CanaryGateFacts TaxonomyFacts.
Import ScoreProps LabelProps SuiteProps VerdictProps InvokerProps.
Import SuiteWords.

Lemma path_match_no_pred (gs : list string) :
  gs <> [] -> path_match_all_only [] gs = 0.
Proof.
  intros Hne. unfold path_match_all_only. case_bool_decide as H; [| reflexivity].
  symmetry in H. apply list_to_set_empty_iff in H. contradiction.
Qed.

Section WithRegex.

Variable pat_search : string -> string -> bool.

(** X11: [_evaluate_task] on a prediction without paths: the primary label
    is [missing_path]; if the golden has paths the path match is 0 and the
    task fails when the path check is required; if the task names a symbol the
    symbol match is 0, [symbol_absent] is among the secondary labels, and the
    task fails when the symbol check is required. *)
Theorem no_predicted_paths_is_missing_path (task : Task) (prediction : Prediction)
    (golden : Golden) (cfg : EvalConfig) :
  or_empty (a_paths (default empty_answer (p_answer prediction))) = [] ->
  let r := _evaluate_task pat_search task prediction golden cfg in
  primary (labels r) = "missing_path"
  /\ (or_empty (g_paths golden) <> [] ->
      path_match (loc r) = 0
      /\ (path_match_required (w1 (thresholds cfg)) = true -> passed r = 0))
  /\ (truthy (in_symbol (default (mkInputs None) (t_inputs task))) = true ->
      symbol_match (loc r) = 0
      /\ In "symbol_absent" (secondary (labels r))
      /\ (require_symbol_match (w1 (thresholds cfg)) = true -> passed r = 0)).
Proof.
  intros Hnone. cbv zeta.
  pose proof (evaluate_task_passed pat_search task prediction golden cfg) as Hp.
  cbv zeta in Hp. rewrite Hp.
  destruct (evaluate_task_loc pat_search task prediction golden cfg) as [Hloc _].
  rewrite Hloc.
  assert (Hlabel : primary (labels (_evaluate_task pat_search task prediction golden cfg))
                   = "missing_path").
  { unfold _evaluate_task. cbn [labels]. rewrite map_labels_primary. cbv zeta.
    rewrite Hnone. reflexivity. }
  assert (Hsec : forall x,
             In x (secondary (labels (_evaluate_task pat_search task prediction golden cfg)))
             <-> In x (secondary
                         (map_labels prediction golden
                            (loc (_evaluate_task pat_search task prediction golden cfg))
                            (faith (_evaluate_task pat_search task prediction golden cfg))
                            (mkLabelThresholds
                               (Config.line_iou_min (w1 (thresholds cfg)))
                               (p95_latency_ms (latency_cost_slo cfg))
                               (max_tokens_in (latency_cost_slo cfg))
                               (max_tokens_out (latency_cost_slo cfg))
                               (max_context_tokens (latency_cost_slo cfg))))))
    by (intros x; reflexivity).
  split; [exact Hlabel |]. split.
  - intros Hg.
    assert (Hpm : path_match
                    (evaluate_localization pat_search
                       (default empty_answer (p_answer prediction)) golden
                       (default (mkInputs None) (t_inputs task))) = 0).
    { unfold evaluate_localization. cbn [path_match]. rewrite Hnone.
      apply path_match_no_pred, Hg. }
    split; [exact Hpm |]. intros ->. rewrite Hpm. reflexivity.
  - intros Hsym.
    assert (Hsm : symbol_match
                    (evaluate_localization pat_search
                       (default empty_answer (p_answer prediction)) golden
                       (default (mkInputs None) (t_inputs task))) = 0).
    { unfold evaluate_localization. cbn [symbol_match]. rewrite Hnone.
      unfold symbol_presence. rewrite Hsym. reflexivity. }
    split; [exact Hsm |]. split.
    + apply Hsec. apply secondary_In. cbv zeta. left. rewrite Hloc. auto.
    + intros ->. rewrite Hsm. cbn. rewrite !orb_true_r. reflexivity.
Qed.

(** A prediction without answer and citations. *)
Lemma degraded_prediction_scores (task : Task) (prediction : Prediction)
    (golden : Golden) (cfg : EvalConfig) :
  p_answer prediction = None -> p_citations prediction = None ->
  let r := _evaluate_task pat_search task prediction golden cfg in
  faithful (faith r) = 0
  /\ faithfulness_reason (faith r) = "cite_missing"
  /\ line_iou_avg (loc r) = 0%Q
  /\ Localization.line_iou_min (loc r) = 0%Q
  /\ primary (labels r) = "missing_path"
  /\ In "cite_missing" (secondary (labels r))
  /\ (faithfulness_required (w1 (thresholds cfg)) = true -> passed r = 0)
  /\ ((0 < Config.line_iou_min (w1 (thresholds cfg)))%Q -> passed r = 0).
Proof.
  intros Ha Hc. cbv zeta.
  pose proof (evaluate_task_passed pat_search task prediction golden cfg) as Hp.
  cbv zeta in Hp. rewrite Hp.
  destruct (evaluate_task_loc pat_search task prediction golden cfg) as [Hloc Hfaith].
  rewrite Hloc, Hfaith, Ha, Hc. cbn [default or_empty].
  assert (Hf : evaluate_faithfulness empty_answer [] = mkFaith 0 "cite_missing")
    by reflexivity.
  rewrite Hf. cbn [faithful faithfulness_reason].
  assert (Hiou : Localization.line_iou_min
                   (evaluate_localization pat_search empty_answer golden
                      (default (mkInputs None) (t_inputs task))) = 0%Q)
    by reflexivity.
  assert (Havg : line_iou_avg
                   (evaluate_localization pat_search empty_answer golden
                      (default (mkInputs None) (t_inputs task))) = 0%Q)
    by reflexivity.
  rewrite Hiou, Havg.
  repeat split.
  - unfold _evaluate_task. cbn [labels]. rewrite map_labels_primary. cbv zeta.
    rewrite Ha. reflexivity.
  - unfold _evaluate_task. cbn [labels]. apply secondary_In. cbv zeta.
    right. left. rewrite Ha, Hc. split; reflexivity.
  - intros ->. cbn. rewrite !orb_true_r. reflexivity.
  - intros Hthr. apply (Qltb_lt 0) in Hthr. rewrite Hthr.
    rewrite orb_true_r. reflexivity.
Qed.

End WithRegex.

Lemma no_predicted_paths_is_missing_path_witness :
  Taxonomy.primary
    (labels (_evaluate_task Scenario.literal_search Scenario.task_T1 empty_prediction
               Scenario.golden_T1 default_config))
  = "missing_path".
Proof.
  apply (no_predicted_paths_is_missing_path Scenario.literal_search Scenario.task_T1
           empty_prediction Scenario.golden_T1 default_config).
  reflexivity.
Defined.

Section WithWorld.

Variable pat_search : string -> string -> bool.
Variable subprocess_run : nat -> Task -> Z -> string -> list string -> proc_outcome.
Variable json_loads : string -> option Prediction.

(** X12: [_run_suite] with a SUT that times out, prints nothing, or prints
    something that is not JSON: the run goes on, and the task gets a row with
    faithful 0, reason [cite_missing], line IoU 0 and label [missing_path];
    the row has passed 0 when faithfulness is required or the line threshold
    is positive. *)
Theorem broken_sut_scores_as_failure (task : Task) (tasks : list Task)
    (goldens : gmap string Golden) (cfg : EvalConfig) (n : nat) (o : proc_outcome) :
  subprocess_run n task (timeout_s (sut_cli cfg)) (cmd (sut_cli cfg))
    (extra_args (sut_cli cfg)) = o ->
  ((exists ms, o = TimeoutExpired ms)
   \/ (exists ms, o = Completed "" ms)
   \/ (exists out ms, o = Completed out ms /\ json_loads out = None)) ->
  exists row,
    fst (_run_suite pat_search subprocess_run json_loads (task :: tasks) goldens cfg n)
    = row :: fst (_run_suite pat_search subprocess_run json_loads tasks goldens cfg (S n))
    /\ r_task_id row = t_id task
    /\ r_faithful row = 0
    /\ r_faithfulness_reason row = "cite_missing"
    /\ r_line_iou_avg row = 0%Q
    /\ r_line_iou_min row = 0%Q
    /\ r_label_primary row = "missing_path"
    /\ (faithfulness_required (w1 (thresholds cfg)) = true -> r_passed row = 0)
    /\ ((0 < Config.line_iou_min (w1 (thresholds cfg)))%Q -> r_passed row = 0).
Proof.
  intros Ho Hbroken.
  rewrite run_suite_cons. cbv zeta. cbn [fst].
  set (pred := fst (call_sut subprocess_run json_loads task _ _ _ n)).
  assert (Hpred : p_answer pred = None /\ p_citations pred = None).
  { subst pred. unfold call_sut. rewrite Ho.
    destruct Hbroken as [(ms & ->) | [(ms & ->) | (out & ms & -> & Hj)]].
    - split; reflexivity.
    - split; reflexivity.
    - destruct (String.eqb out ""); [split; reflexivity |].
      rewrite Hj. split; reflexivity. }
  destruct Hpred as [Ha Hc].
  destruct (degraded_prediction_scores pat_search task pred
              (default empty_golden (t_id task ≫= (goldens !!.))) cfg Ha Hc)
    as (H1 & H2 & H3 & H4 & H5 & _ & H7 & H8).
  eexists. split; [reflexivity |].
  cbn [suite_row r_task_id r_faithful r_faithfulness_reason r_line_iou_avg
         r_line_iou_min r_label_primary r_passed].
  repeat split; assumption.
Qed.

End WithWorld.

Lemma broken_sut_scores_as_failure_witness :
  exists row,
    fst (_run_suite Scenario.literal_search
           (Scenario.sut_always (Completed "Traceback" 15)) (fun _ => None)
           [Scenario.task_T1] Scenario.goldens_T1 default_config 0%nat)
    = [row]
    /\ r_label_primary row = "missing_path" /\ r_passed row = 0.
Proof.
  destruct (broken_sut_scores_as_failure Scenario.literal_search
              (Scenario.sut_always (Completed "Traceback" 15)) (fun _ => None)
              Scenario.task_T1 [] Scenario.goldens_T1 default_config 0%nat
              (Completed "Traceback" 15) eq_refl)
    as (row & Hrows & _ & _ & _ & _ & _ & Hlabel & Hpassed & _).
  { right. right. exists "Traceback", 15. split; reflexivity. }
  exists row. split; [exact Hrows |]. split; [exact Hlabel |].
  apply Hpassed. reflexivity.
Defined.

End FailureProps.

(** ** Aggregates, the line threshold and the gate *)

Module AggregateProps.

Import Config Localization Faithfulness Taxonomy Common RunLocalization SpecWords.
Import LocalizationFacts RunLocalizationFacts CanaryGateFacts TaxonomyFacts.
Import ScoreProps LabelProps SuiteProps VerdictProps InvokerProps.
Import SuiteWords RatioProps.

Lemma count_rows_bounds (c : Row -> bool) (rows : list Row) :
  0 <= count_rows c rows <= Z.of_nat (length rows).
Proof.
  induction rows as [| r rows IH]; cbn [count_rows length]; [lia |].
  destruct (c r); lia.
Qed.

Lemma count_rows_mono (c1 c2 : Row -> bool) (rows : list Row) :
  Forall (fun r => c1 r = true -> c2 r = true) rows ->
  count_rows c1 rows <= count_rows c2 rows.
Proof.
  induction 1 as [| r rows Hr _ IH]; cbn [count_rows]; [lia |].
  destruct (c1 r) eqn:E1; [rewrite (Hr eq_refl); lia |].
  destruct (c2 r); lia.
Qed.

Lemma rate_count (c : Row -> bool) (rows : list Row) :
  rate c rows
  = (inject_Z (count_rows c rows) / inject_Z (Z.max (Z.of_nat (length rows)) 1))%Q.
Proof. unfold rate. rewrite filter_length_count. reflexivity. Qed.

Lemma rate_mono (c1 c2 : Row -> bool) (rows : list Row) :
  Forall (fun r => c1 r = true -> c2 r = true) rows ->
  (rate c1 rows <= rate c2 rows)%Q.
Proof.
  intros H. rewrite !rate_count.
  apply ratio_le; [apply count_rows_mono, H | lia].
Qed.

Lemma rate_bounds (c : Row -> bool) (rows : list Row) :
  (0 <= rate c rows <= 1)%Q.
Proof.
  rewrite rate_count. apply ratio_bounds; [| lia].
  pose proof (count_rows_bounds c rows). lia.
Qed.

Lemma rate_nil (c : Row -> bool) : rate c [] = 0%Q.
Proof. reflexivity. Qed.

Section WithWorld.

Variable pat_search : string -> string -> bool.
Variable subprocess_run : nat -> Task -> Z -> string -> list string -> proc_outcome.
Variable json_loads : string -> option Prediction.

(** Rows of a run: a passed row has met every required check. *)
Lemma run_suite_passed_rows (tasks : list Task) (goldens : gmap string Golden)
    (cfg : EvalConfig) (n : nat) :
  Forall (fun row =>
            (r_passed row = 0 \/ r_passed row = 1)
            /\ (r_passed row = 1 ->
                (path_match_required (w1 (thresholds cfg)) = true -> r_path_match row = 1)
                /\ (faithfulness_required (w1 (thresholds cfg)) = true ->
                    r_faithful row = 1)
                /\ (Config.line_iou_min (w1 (thresholds cfg)) <= r_line_iou_min row)%Q))
    (fst (_run_suite pat_search subprocess_run json_loads tasks goldens cfg n)).
Proof.
  pose proof (run_suite_rows pat_search subprocess_run json_loads tasks goldens cfg n)
    as H.
  induction H as [| task row tasks rows (pred & ->) _ IH]; constructor; [| exact IH].
  cbn [suite_row r_passed r_path_match r_faithful r_line_iou_min].
  pose proof (passed_one_iff pat_search task pred
                (default empty_golden (t_id task ≫= (goldens !!.))) cfg) as Hp.
  cbv zeta in Hp. split.
  - rewrite evaluate_task_passed. cbv zeta.
    destruct (_ || _); [left | right]; reflexivity.
  - intros H1. apply Hp in H1. tauto.
Qed.

(** X13: the summary of [main] over the rows of a run: the accuracy and the
    faithfulness rate lie in [[0, 1]] and are 0 without tasks; when
    faithfulness is required the accuracy is at most the faithfulness rate, and
    when the path check is required as well it is at most the share of rows
    with matching paths and faithful citations. *)
Theorem summary_accuracy_bounds (tasks : list Task) (goldens : gmap string Golden)
    (cfg : EvalConfig) (n : nat) (gate_code : Z) :
  let rows := fst (_run_suite pat_search subprocess_run json_loads tasks goldens cfg n) in
  let s := summary rows gate_code in
  (0 <= accuracy_localization s <= 1)%Q
  /\ (0 <= faithfulness_rate s <= 1)%Q
  /\ (tasks = [] -> accuracy_localization s = 0%Q /\ faithfulness_rate s = 0%Q)
  /\ (faithfulness_required (w1 (thresholds cfg)) = true ->
      (accuracy_localization s <= faithfulness_rate s)%Q)
  /\ (faithfulness_required (w1 (thresholds cfg)) = true ->
      path_match_required (w1 (thresholds cfg)) = true ->
      (accuracy_localization s <= rate path_and_faithful rows)%Q).
Proof.
  cbv zeta. cbn [summary accuracy_localization faithfulness_rate].
  pose proof (run_suite_passed_rows tasks goldens cfg n) as Hrows.
  split; [apply rate_bounds |]. split; [apply rate_bounds |]. split; [| split].
  - intros ->. split; reflexivity.
  - intros Hf. apply rate_mono.
    eapply Forall_impl; [exact Hrows |]. cbv beta.
    intros row [[H0 | H1] Hp] Hpassed.
    + rewrite H0 in Hpassed. discriminate.
    + apply Z.eqb_eq. apply Hp; assumption.
  - intros Hf Hpm. apply rate_mono.
    eapply Forall_impl; [exact Hrows |]. cbv beta.
    intros row [[H0 | H1] Hp] Hpassed.
    + rewrite H0 in Hpassed. discriminate.
    + unfold path_and_faithful. apply andb_true_iff.
      destruct (Hp H1) as (Hp1 & Hp2 & _).
      split; apply Z.eqb_eq; auto.
Qed.

(** X14: [_evaluate_task] and the line threshold: the minimum line IoU of
    a result lies in [[0, 1]]; with a threshold of 0 or less the line check
    never fails a task and the label is never [wrong_line]; with a threshold
    above 1 no task passes; with a positive threshold a task without predicted
    or without golden line ranges does not pass. *)
Theorem line_check_and_threshold (task : Task) (prediction : Prediction)
    (golden : Golden) (cfg : EvalConfig) :
  let r := _evaluate_task pat_search task prediction golden cfg in
  let w := w1 (thresholds cfg) in
  (0 <= Localization.line_iou_min (loc r) <= 1)%Q
  /\ ((Config.line_iou_min w <= 0)%Q ->
      (passed r = 1 <->
       (path_match_required w = true -> path_match (loc r) = 1)
       /\ (require_symbol_match w = true -> symbol_match (loc r) = 1)
       /\ (faithfulness_required w = true -> faithful (faith r) = 1))
      /\ primary (labels r) <> "wrong_line")
  /\ ((1 < Config.line_iou_min w)%Q -> passed r = 0)
  /\ ((0 < Config.line_iou_min w)%Q ->
      (or_empty (a_line_ranges (default empty_answer (p_answer prediction))) = []
       \/ or_empty (g_line_ranges golden) = []) ->
      passed r = 0).
Proof.
  cbv zeta.
  pose proof (passed_one_iff pat_search task prediction golden cfg) as Hp.
  cbv zeta in Hp.
  pose proof (evaluate_task_passed pat_search task prediction golden cfg) as Hclosed.
  cbv zeta in Hclosed.
  destruct (evaluate_task_loc pat_search task prediction golden cfg) as [Hloc _].
  assert (Hb : (0 <= Localization.line_iou_min
                       (loc (_evaluate_task pat_search task prediction golden cfg))
                <= 1)%Q).
  { rewrite Hloc. unfold evaluate_localization. cbn [Localization.line_iou_min].
    destruct (scores_bounds
                (or_empty (a_line_ranges (default empty_answer (p_answer prediction))))
                (or_empty (g_line_ranges golden))) as (H0 & Hle & H1 & _).
    split; [exact H0 | exact (Qle_trans _ _ _ Hle H1)]. }
  split; [exact Hb |]. split; [| split].
  - intros Hzero.
    assert (Hok : (Config.line_iou_min (w1 (thresholds cfg))
                   <= Localization.line_iou_min
                        (loc (_evaluate_task pat_search task prediction golden cfg)))%Q)
      by (eapply Qle_trans; [exact Hzero | apply Hb]).
    split; [rewrite Hp; tauto |].
    unfold _evaluate_task at 1. cbn [labels]. rewrite map_labels_primary. cbv zeta.
    cbn [th_line_iou_min]. apply Qltb_ge in Hok.
    unfold _evaluate_task in Hok. cbn [loc] in Hok. rewrite Hok.
    unfold LABEL_MISSING_PATH, LABEL_WRONG_PATH, LABEL_OK.
    repeat case_bool_decide; cbn [andb]; discriminate.
  - intros Hbig. rewrite Hclosed.
    assert (Hlt : Qltb (Localization.line_iou_min
                          (loc (_evaluate_task pat_search task prediction golden cfg)))
                    (Config.line_iou_min (w1 (thresholds cfg))) = true).
    { apply Qltb_lt. eapply Qle_lt_trans; [apply Hb | exact Hbig]. }
    rewrite Hlt, orb_true_r. reflexivity.
  - intros Hpos Hempty. rewrite Hclosed.
    assert (Hz : Localization.line_iou_min
                   (loc (_evaluate_task pat_search task prediction golden cfg)) = 0%Q).
    { rewrite Hloc. unfold evaluate_localization. cbn [Localization.line_iou_min].
      destruct Hempty as [-> | ->]; [reflexivity |].
      destruct (or_empty (a_line_ranges _)); reflexivity. }
    rewrite Hz. apply (Qltb_lt 0) in Hpos. rewrite Hpos, orb_true_r. reflexivity.
Qed.

(** X15: [assert_canary_gate]: the checks that the gate recomputes from a
    row agree with the verdict that [_evaluate_task] stored in it, so the gate
    returns 0 exactly when 100 percent is not required or every canary row has
    passed 1, and returns 1 otherwise; it starts one process per canary. *)
Theorem gate_passes_iff_all_rows_passed (canary_tasks : list Task)
    (goldens : gmap string Golden) (cfg : EvalConfig) (n : nat) :
  let rows :=
    fst (_run_suite pat_search subprocess_run json_loads canary_tasks goldens cfg n) in
  let code :=
    fst (fst (assert_canary_gate pat_search subprocess_run json_loads canary_tasks goldens
                cfg n)) in
  Forall (fun row => (r_passed row = 1 <-> gate_checks cfg row = [])
                     /\ (r_passed row = 0 <-> canary_fails cfg row)) rows
  /\ (code = 0 \/ code = 1)
  /\ (code = 0 <-> require_100_percent (canary (thresholds cfg)) = false
                   \/ Forall (fun row => r_passed row = 1) rows)
  /\ snd (assert_canary_gate pat_search subprocess_run json_loads canary_tasks goldens
            cfg n)
     = (n + length canary_tasks)%nat.
Proof.
  cbv zeta. rewrite assert_canary_gate_verdict.
  set (rows := fst (_run_suite _ _ _ canary_tasks goldens cfg n)).
  assert (Hagree : Forall (fun row => (r_passed row = 1 <-> gate_checks cfg row = [])
                                      /\ (r_passed row = 0 <-> canary_fails cfg row))
                     rows).
  { subst rows.
    pose proof (run_suite_rows pat_search subprocess_run json_loads canary_tasks goldens
                  cfg n) as H.
    induction H as [| task row tasks rows (pred & ->) _ IH]; constructor; [| exact IH].
    rewrite <- gate_checks_nonempty.
    rewrite gate_checks_parts. cbv zeta.
    cbn [suite_row r_passed r_path_match r_line_iou_min r_symbol_match r_faithful].
    rewrite evaluate_task_passed. cbv zeta.
    destruct (_ && negb (path_match _ =? 1)), (Qltb _ _),
      (_ && negb (symbol_match _ =? 1)), (_ && negb (faithful _ =? 1));
      cbn; repeat split; intros; try reflexivity; try discriminate; try congruence. }
  split; [exact Hagree |].
  assert (Hall : gate_failures cfg rows = [] <-> Forall (fun row => r_passed row = 1) rows).
  { split.
    - intros Hnil. apply Forall_forall. intros row Hin.
      apply list_elem_of_In in Hin.
      rewrite Forall_forall in Hagree.
      destruct (Hagree row (proj2 (list_elem_of_In _ _) Hin)) as [H1 H0].
      apply H1.
      destruct (gate_checks cfg row) as [| c cs] eqn:E; [reflexivity |].
      exfalso.
      assert (Hne : gate_failures cfg rows <> []).
      { apply gate_failures_nonempty. exists row. split; [exact Hin |].
        apply gate_checks_nonempty. rewrite E. discriminate. }
      contradiction.
    - intros Hpass.
      destruct (gate_failures cfg rows) as [| f fs] eqn:E; [reflexivity |].
      exfalso.
      assert (Hne : gate_failures cfg rows <> []) by (rewrite E; discriminate).
      apply gate_failures_nonempty in Hne. destruct Hne as (row & Hin & Hfail).
      rewrite Forall_forall in Hagree, Hpass.
      apply list_elem_of_In in Hin.
      destruct (Hagree row Hin) as [_ H0]. apply H0 in Hfail.
      rewrite (Hpass row Hin) in Hfail. discriminate. }
  split; [| split].
  - destruct (gate_verdict_code cfg rows) as [(Hc & _) | (Hc & _)]; auto.
  - destruct (gate_verdict_code cfg rows) as [(Hc & Hreq & Hf & _) | (Hc & Hwhy & _)];
      rewrite Hc.
    + split; [discriminate |]. intros [Hoff | Hpass]; [congruence |].
      apply Hall in Hpass. contradiction.
    + split; [| reflexivity]. intros _.
      destruct Hwhy as [Hoff | Hnil]; [left; exact Hoff | right; apply Hall, Hnil].
  - unfold assert_canary_gate.
    pose proof (CommonFacts.run_suite_one_process_per_task pat_search subprocess_run
                  json_loads canary_tasks goldens cfg n) as [_ Hcount].
    destruct (_run_suite pat_search subprocess_run json_loads canary_tasks goldens cfg n).
    exact Hcount.
Qed.

End WithWorld.

End AggregateProps.

(** ** The deterministic core of the change-impact run *)

Module ChangeImpactProps.

Import Config Localization Faithfulness Taxonomy Common RunChangeImpact SpecWords.
Import LocalizationFacts ScoreProps RunChangeImpactSummary AnchorWords.
Import RatioProps.

Lemma anchor_line_iou_single (cr qr : line_range) :
  (_anchor_line_iou [cr] qr == _iou qr cr)%Q.
Proof.
  unfold _anchor_line_iou. cbn. apply Q.max_r. apply iou_bounds.
Qed.

Lemma filter_nonempty_iff {A : Type} (f : A -> bool) (l : list A) :
  List.filter f l <> [] <-> exists x, In x l /\ f x = true.
Proof.
  split.
  - destruct (List.filter f l) as [| x xs] eqn:E; [congruence |]. intros _.
    exists x. apply filter_In. rewrite E. left. reflexivity.
  - intros (x & Hx) Hnil. apply filter_In in Hx. rewrite Hnil in Hx. destruct Hx.
Qed.

(** One pass of the loop body on the counters. *)
Lemma anchor_step_cases (ans : Answer) (citations : list Citation) (golden : Golden)
    (cfg : EvalConfig) (found faithful : Z) (req : Anchor) :
  (~ anchor_cited citations req
   /\ anchor_step ans citations golden cfg (found, faithful) req = (found, faithful))
  \/ (anchor_cited citations req
      /\ ~ anchor_grounded ans citations golden (Config.line_iou_min (w1 (thresholds cfg)))
             req
      /\ anchor_step ans citations golden cfg (found, faithful) req
         = (found + 1, faithful))
  \/ (anchor_grounded ans citations golden (Config.line_iou_min (w1 (thresholds cfg))) req
      /\ anchor_step ans citations golden cfg (found, faithful) req
         = (found + 1, faithful + 1)).
Proof.
  unfold anchor_step, anchor_grounded.
  set (cited := List.filter (fun c => bool_decide (c_path c = an_path req)) citations).
  assert (Hcited : cited <> [] <-> anchor_cited citations req).
  { subst cited. rewrite filter_nonempty_iff. unfold anchor_cited.
    split; intros (c & Hin & Hc); exists c; split; try exact Hin.
    - apply bool_decide_eq_true in Hc. exact Hc.
    - apply bool_decide_eq_true. exact Hc. }
  destruct cited as [| c0 cs] eqn:Ecited.
  { left. split; [| reflexivity]. rewrite <- Hcited. congruence. }
  assert (Hc : anchor_cited citations req) by (apply Hcited; discriminate).
  rewrite <- Ecited.
  destruct (truthy (an_symbol req)
            && negb (str_in (default "" (an_symbol req)) (default "" (a_rationale ans))))
    eqn:Esym.
  { right. left. split; [exact Hc |]. split; [| reflexivity].
    intros (_ & Hs & _). apply andb_true_iff in Esym. destruct Esym as [Ht Hn].
    rewrite (Hs Ht) in Hn. discriminate. }
  match goal with
  | |- context [existsb ?f ?l] => destruct (existsb f l) eqn:Eex
  end.
  - right. right. split; [| reflexivity]. split; [exact Hc |]. split.
    + intros Ht. rewrite Ht in Esym. cbn in Esym. apply negb_false_iff in Esym.
      exact Esym.
    + apply existsb_exists in Eex. destruct Eex as (ex & Hex & Eex).
      apply filter_In in Hex. destruct Hex as [Hex Hpath].
      apply bool_decide_eq_true in Hpath.
      apply existsb_exists in Eex. destruct Eex as (c & Hcin & Hq).
      subst cited. apply filter_In in Hcin. destruct Hcin as [Hcin Hcpath].
      apply bool_decide_eq_true in Hcpath.
      apply Qle_bool_iff in Hq. rewrite anchor_line_iou_single in Hq.
      exists ex, c. repeat split; assumption.
  - right. left. split; [exact Hc |]. split; [| reflexivity].
    intros (_ & _ & ex & c & Hex & Hpath & Hcin & Hcpath & Hq).
    assert (Htrue : existsb
              (fun ex =>
                 existsb
                   (fun c =>
                      Qle_bool (Config.line_iou_min (w1 (thresholds cfg)))
                        (_anchor_line_iou [range_of (c_start c) (c_end c)]
                           (range_of (ex_start ex) (ex_end ex))))
                   cited)
              (List.filter (fun q => bool_decide (ex_path q = an_path req))
                 (or_empty (g_example_quotes golden))) = true).
    { apply existsb_exists. exists ex. split.
      - apply filter_In. split; [exact Hex | apply bool_decide_eq_true, Hpath].
      - apply existsb_exists. exists c. split.
        + subst cited. apply filter_In. split; [exact Hcin |].
          apply bool_decide_eq_true, Hcpath.
        + apply Qle_bool_iff. rewrite anchor_line_iou_single. exact Hq. }
    subst cited. rewrite Htrue in Eex. discriminate.
Qed.

Lemma anchor_fold_bounds (ans : Answer) (citations : list Citation) (golden : Golden)
    (cfg : EvalConfig) (required : list Anchor) (found faithful : Z) :
  let r := fold_left (anchor_step ans citations golden cfg) required (found, faithful) in
  found <= fst r <= found + Z.of_nat (length required)
  /\ faithful <= snd r
  /\ snd r - faithful <= fst r - found
  /\ (fst r = found + Z.of_nat (length required)
      <-> Forall (anchor_cited citations) required)
  /\ (snd r = faithful + Z.of_nat (length required)
      <-> Forall (anchor_grounded ans citations golden
                    (Config.line_iou_min (w1 (thresholds cfg)))) required).
Proof.
  cbv zeta. revert found faithful.
  induction required as [| req required IH]; intros found faithful.
  - cbn. repeat split; try lia; constructor.
  - cbn [fold_left length]. rewrite Nat2Z.inj_succ.
    destruct (anchor_step_cases ans citations golden cfg found faithful req)
      as [(Hn & ->) | [(Hc & Hn & ->) | (Hg & ->)]].
    + destruct (IH found faithful) as (H1 & H2 & H3 & H4 & H5).
      split; [lia |]. split; [lia |]. split; [lia |].
      split; (split; intros H).
      * exfalso. lia.
      * inversion H; subst. contradiction.
      * exfalso. lia.
      * inversion H as [| ? ? Hg' ?]; subst. destruct Hg' as (Hc' & _). contradiction.
    + destruct (IH (found + 1) faithful) as (H1 & H2 & H3 & H4 & H5).
      split; [lia |]. split; [lia |]. split; [lia |].
      split; (split; intros H).
      * constructor; [exact Hc |]. apply H4. lia.
      * inversion H as [| ? ? _ Hrest]; subst. apply H4 in Hrest. lia.
      * exfalso. lia.
      * inversion H; subst. contradiction.
    + destruct (IH (found + 1) (faithful + 1)) as (H1 & H2 & H3 & H4 & H5).
      split; [lia |]. split; [lia |]. split; [lia |].
      split; (split; intros H).
      * constructor; [apply Hg |]. apply H4. lia.
      * inversion H as [| ? ? _ Hrest]; subst. apply H4 in Hrest. lia.
      * constructor; [exact Hg |]. apply H5. lia.
      * inversion H as [| ? ? _ Hrest]; subst. apply H5 in Hrest. lia.
Qed.

(** The fields of the core in terms of the loop result. *)
Lemma deterministic_core_fields (task : Task) (pred : Prediction) (golden : Golden)
    (cfg : EvalConfig) :
  let ans := default empty_answer (p_answer pred) in
  let citations := or_empty (p_citations pred) in
  let required := or_empty (g_required_anchors golden) in
  let r := fold_left (anchor_step ans citations golden cfg) required (0, 0) in
  let core := _deterministic_core task pred golden cfg in
  anchors_required core = Z.of_nat (length required)
  /\ anchors_found core = fst r
  /\ anchors_faithful core = snd r
  /\ anchor_coverage core
     = (if Z.of_nat (length required) =? 0 then 0
        else inject_Z (fst r) / inject_Z (Z.of_nat (length required)))%Q
  /\ anchor_faithful_rate core
     = (if Z.of_nat (length required) =? 0 then 0
        else inject_Z (snd r) / inject_Z (Z.of_nat (length required)))%Q
  /\ forbidden_hit core
     = (if existsb
             (fun claim =>
                negb (String.eqb claim "")
                && str_in claim (default "" (a_rationale ans)))
             (or_empty (g_forbidden_claims golden))
        then 1 else 0)
  /\ faith core = evaluate_faithfulness ans citations.
Proof.
  cbv zeta. unfold _deterministic_core.
  destruct (fold_left _ _ (0, 0)) as [f t]. repeat split.
Qed.

Lemma core_counters (task : Task) (pred : Prediction) (golden : Golden)
    (cfg : EvalConfig) :
  let citations := or_empty (p_citations pred) in
  let ans := default empty_answer (p_answer pred) in
  let required := or_empty (g_required_anchors golden) in
  let core := _deterministic_core task pred golden cfg in
  0 <= anchors_faithful core <= anchors_found core
  /\ anchors_found core <= anchors_required core
  /\ anchors_required core = Z.of_nat (length required)
  /\ (anchors_found core = anchors_required core
      <-> Forall (anchor_cited citations) required)
  /\ (anchors_faithful core = anchors_required core
      <-> Forall (anchor_grounded ans citations golden
                    (Config.line_iou_min (w1 (thresholds cfg)))) required)
  /\ (0 <= anchor_faithful_rate core)%Q
  /\ (anchor_faithful_rate core <= anchor_coverage core)%Q
  /\ (anchor_coverage core <= 1)%Q
  /\ (forbidden_hit core = 0 \/ forbidden_hit core = 1).
Proof.
  cbv zeta.
  destruct (deterministic_core_fields task pred golden cfg)
    as (Hreq & Hfound & Hfaith & Hcov & Hrate & Hforb & _).
  cbv zeta in *.
  destruct (anchor_fold_bounds (default empty_answer (p_answer pred))
              (or_empty (p_citations pred)) golden cfg
              (or_empty (g_required_anchors golden)) 0 0)
    as (H1 & H2 & H3 & H4 & H5).
  cbv zeta in *.
  rewrite Hreq, Hfound, Hfaith, Hcov, Hrate, Hforb.
  set (r := fold_left _ _ (0, 0)) in *.
  set (len := Z.of_nat (length (or_empty (g_required_anchors golden)))) in *.
  split; [lia |]. split; [lia |]. split; [reflexivity |].
  split; [rewrite <- H4; split; lia |].
  split; [rewrite <- H5; split; lia |].
  destruct (Z.eqb_spec len 0) as [Hz | Hnz].
  - repeat split; try apply Qle_refl; try discriminate.
    destruct (existsb _ _); auto.
  - assert (Hpos : 0 < len) by (subst len; lia).
    split; [| split; [| split]].
    + apply ratio_bounds; lia.
    + apply ratio_le; lia.
    + apply ratio_bounds; lia.
    + destruct (existsb _ _); auto.
Qed.

(** X16: [_deterministic_core]: [0 <= anchors_faithful <= anchors_found <=
    anchors_required], the latter being the number of required anchors; all
    anchors are found exactly when each is cited, and all are faithful exactly
    when each is grounded; the two rates satisfy [0 <= anchor_faithful_rate <=
    anchor_coverage <= 1]; the forbidden flag is 0 or 1. *)
Theorem deterministic_core_counters (task : Task) (pred : Prediction) (golden : Golden)
    (cfg : EvalConfig) :
  let citations := or_empty (p_citations pred) in
  let ans := default empty_answer (p_answer pred) in
  let required := or_empty (g_required_anchors golden) in
  let core := _deterministic_core task pred golden cfg in
  0 <= anchors_faithful core <= anchors_found core
  /\ anchors_found core <= anchors_required core
  /\ anchors_required core = Z.of_nat (length required)
  /\ (anchors_found core = anchors_required core
      <-> Forall (anchor_cited citations) required)
  /\ (anchors_faithful core = anchors_required core
      <-> Forall (anchor_grounded ans citations golden
                    (Config.line_iou_min (w1 (thresholds cfg)))) required)
  /\ (0 <= anchor_faithful_rate core)%Q
  /\ (anchor_faithful_rate core <= anchor_coverage core)%Q
  /\ (anchor_coverage core <= 1)%Q
  /\ (forbidden_hit core = 0 \/ forbidden_hit core = 1).
Proof. apply core_counters. Qed.

(** A verdict of 1 needs a faithful rate of 1.0 and no forbidden claim. *)
Lemma faithful_overall_one (core : Core) (cfg : EvalConfig) :
  faithful_overall core cfg = 1 ->
  Qeq_bool (anchor_faithful_rate core) 1 = true /\ forbidden_hit core = 0.
Proof.
  unfold faithful_overall.
  destruct (Qeq_bool _ 1); [| discriminate].
  destruct (Z.eqb_spec (forbidden_hit core) 0); [| discriminate]. auto.
Qed.

Lemma core_rate_one (task : Task) (pred : Prediction) (golden : Golden)
    (cfg : EvalConfig) :
  let core := _deterministic_core task pred golden cfg in
  Qeq_bool (anchor_faithful_rate core) 1 = true ->
  0 < anchors_required core /\ anchors_faithful core = anchors_required core.
Proof.
  cbv zeta.
  destruct (deterministic_core_fields task pred golden cfg)
    as (Hreq & _ & Hfaith & _ & Hrate & _).
  cbv zeta in *. rewrite Hreq, Hfaith, Hrate, Qeq_bool_iff.
  destruct (Z.eqb_spec (Z.of_nat (length (or_empty (g_required_anchors golden)))) 0)
    as [Hz | Hnz]; [intros H; discriminate H |].
  rewrite ratio_eq_one by lia. lia.
Qed.

(** X17: the overall verdict of the change-impact run is 1 exactly when the
    golden requires at least one anchor, every required anchor is grounded, no
    non-empty forbidden claim occurs in the rationale, and the citations are
    faithful or faithfulness is not required; it is 0 or 1. *)
Theorem faithful_overall_iff (task : Task) (pred : Prediction) (golden : Golden)
    (cfg : EvalConfig) :
  let citations := or_empty (p_citations pred) in
  let ans := default empty_answer (p_answer pred) in
  let required := or_empty (g_required_anchors golden) in
  let core := _deterministic_core task pred golden cfg in
  (faithful_overall core cfg = 1 <->
   required <> []
   /\ Forall (anchor_grounded ans citations golden
                (Config.line_iou_min (w1 (thresholds cfg)))) required
   /\ (forall claim, In claim (or_empty (g_forbidden_claims golden)) ->
       claim = "" \/ str_in claim (default "" (a_rationale ans)) = false)
   /\ (faithful (evaluate_faithfulness ans citations) = 1
       \/ faithfulness_required (w1 (thresholds cfg)) = false))
  /\ (faithful_overall core cfg = 0 \/ faithful_overall core cfg = 1).
Proof.
  cbv zeta.
  destruct (deterministic_core_fields task pred golden cfg)
    as (Hreq & Hfound & Hfaith & Hcov & Hrate & Hforb & Hf).
  cbv zeta in *.
  destruct (anchor_fold_bounds (default empty_answer (p_answer pred))
              (or_empty (p_citations pred)) golden cfg
              (or_empty (g_required_anchors golden)) 0 0)
    as (H1 & H2 & H3 & H4 & H5).
  cbv zeta in *.
  unfold faithful_overall. rewrite Hrate, Hforb, Hf.
  set (r := fold_left _ _ (0, 0)) in *.
  set (required := or_empty (g_required_anchors golden)) in *.
  set (len := Z.of_nat (length required)) in *.
  rewrite <- H5.
  assert (Hclaims :
    existsb
      (fun claim =>
         negb (String.eqb claim "")
         && str_in claim (default "" (a_rationale (default empty_answer (p_answer pred)))))
      (or_empty (g_forbidden_claims golden)) = false
    <-> (forall claim, In claim (or_empty (g_forbidden_claims golden)) ->
         claim = ""
         \/ str_in claim (default "" (a_rationale (default empty_answer (p_answer pred))))
            = false)).
  { rewrite <- not_true_iff_false, existsb_exists. split.
    - intros Hno claim Hin.
      destruct (String.eqb_spec claim "") as [-> | Hne]; [left; reflexivity |].
      right. destruct (str_in claim _) eqn:E; [| reflexivity].
      exfalso. apply Hno. exists claim. split; [exact Hin |].
      rewrite E. destruct (String.eqb_spec claim ""); [contradiction | reflexivity].
    - intros Hall (claim & Hin & Hc). apply andb_true_iff in Hc.
      destruct Hc as [Hne Hs]. destruct (Hall claim Hin) as [-> | Hf'].
      + discriminate.
      + congruence. }
  rewrite <- Hclaims.
  assert (Hrate1 : Qeq_bool (if len =? 0 then 0
                             else inject_Z (snd r) / inject_Z len)%Q 1 = true
                   <-> required <> [] /\ snd r = 0 + len).
  { rewrite Qeq_bool_iff. destruct (Z.eqb_spec len 0) as [Hz | Hnz].
    - split; [intros H; discriminate H |]. intros [Hne _]. exfalso.
      destruct required; [congruence |]. subst len. cbn [length] in Hz. lia.
    - rewrite ratio_eq_one by (subst len; lia). split.
      + intros Heq. split; [| lia]. intros Hnil. subst len. rewrite Hnil in Hnz.
        contradiction.
      + intros [_ Heq]. lia. }
  destruct (Qeq_bool _ 1) eqn:Eq.
  - destruct (proj1 Hrate1 eq_refl) as [Hne Hall].
    destruct (existsb _ _); cbn [andb Z.eqb];
      destruct (Z.eqb_spec (faithful (evaluate_faithfulness
                  (default empty_answer (p_answer pred))
                  (or_empty (p_citations pred)))) 1);
      destruct (faithfulness_required (w1 (thresholds cfg)));
      cbn; split; auto; split; intros; try discriminate; try reflexivity;
      intuition congruence.
  - cbn [andb]. split; [| auto]. split; [discriminate |].
    intros (Hne & Hall & _). exfalso.
    assert (Htrue : false = true) by (apply Hrate1; split; assumption).
    discriminate.
Qed.

Section WithSUT.

Variable subprocess_run : nat -> Task -> Z -> string -> list string -> proc_outcome.
Variable json_loads : string -> option Prediction.

(** Every row of the change-impact run comes from the core of some
    prediction for the task's golden. *)
Lemma main_rows (tasks : list Task) (goldens : gmap string Golden) (cfg : EvalConfig)
    (n : nat) :
  Forall2
    (fun task row =>
       exists pred,
         let core :=
           _deterministic_core task pred
             (default empty_golden (t_id task ≫= (goldens !!.))) cfg in
         w2_task_id row = t_id task
         /\ w2_anchors_required row = anchors_required core
         /\ w2_anchors_found row = anchors_found core
         /\ w2_anchors_faithful row = anchors_faithful core
         /\ w2_anchor_coverage row = anchor_coverage core
         /\ w2_anchor_faithful_rate row = anchor_faithful_rate core
         /\ w2_forbidden_hit row = forbidden_hit core
         /\ w2_faithful_overall row = faithful_overall core cfg
         /\ w2_label_primary row
            = primary (map_w2_labels (negb (forbidden_hit core =? 0))
                         (anchors_found core) (anchors_faithful core)
                         (anchors_required core)
                         (mkLabelThresholds 0 (p95_latency_ms (latency_cost_slo cfg))
                            (max_tokens_in (latency_cost_slo cfg))
                            (max_tokens_out (latency_cost_slo cfg))
                            (max_context_tokens (latency_cost_slo cfg))) pred))
    tasks (fst (main subprocess_run json_loads tasks goldens cfg n)).
Proof.
  revert n. induction tasks as [| task tasks IH]; intros n.
  - constructor.
  - cbn [main].
    destruct (call_sut subprocess_run json_loads task _ _ _ n) as [pred n1].
    specialize (IH n1).
    destruct (main subprocess_run json_loads tasks goldens cfg n1) as [rows n2].
    cbn [fst] in *. constructor; [| exact IH].
    exists pred. cbv zeta. repeat split.
Qed.

(** X18: [main] of the change-impact run: the rows are in task order; in
    every row the anchor counters are ordered, an overall verdict of 1 comes
    with the label [ok], at least one required anchor, all anchors faithful and
    no forbidden hit, and the label [forbidden_claim] marks exactly the rows
    with a forbidden hit; in the summary [0 <= pass_overall <= pass_det_core
    <= 1]. *)
Theorem change_impact_rows_consistent (tasks : list Task) (goldens : gmap string Golden)
    (cfg : EvalConfig) (n : nat) :
  let rows := fst (main subprocess_run json_loads tasks goldens cfg n) in
  map w2_task_id rows = map t_id tasks
  /\ Forall
       (fun row =>
          0 <= w2_anchors_faithful row <= w2_anchors_found row
          /\ w2_anchors_found row <= w2_anchors_required row
          /\ (w2_faithful_overall row = 1 ->
              w2_label_primary row = "ok"
              /\ 0 < w2_anchors_required row
              /\ w2_anchors_faithful row = w2_anchors_required row
              /\ w2_forbidden_hit row = 0)
          /\ (w2_label_primary row = "forbidden_claim" <-> w2_forbidden_hit row = 1))
       rows
  /\ (pass_overall (w2_summary rows) <= pass_det_core (w2_summary rows))%Q
  /\ (pass_det_core (w2_summary rows) <= 1)%Q
  /\ (0 <= pass_overall (w2_summary rows))%Q.
Proof.
  cbv zeta.
  pose proof (main_rows tasks goldens cfg n) as Hrows.
  set (rows := fst (main subprocess_run json_loads tasks goldens cfg n)) in *.
  assert (Hall : Forall
            (fun row =>
               0 <= w2_anchors_faithful row <= w2_anchors_found row
               /\ w2_anchors_found row <= w2_anchors_required row
               /\ (w2_faithful_overall row = 1 ->
                   w2_label_primary row = "ok"
                   /\ 0 < w2_anchors_required row
                   /\ w2_anchors_faithful row = w2_anchors_required row
                   /\ w2_forbidden_hit row = 0)
               /\ (w2_label_primary row = "forbidden_claim" <-> w2_forbidden_hit row = 1)
               /\ (w2_faithful_overall row = 1 ->
                   Qeq_bool (w2_anchor_faithful_rate row) 1 = true))
            rows).
  { clearbody rows. induction Hrows as [| task row tasks' rows' Hrow _ IH];
      constructor; [| exact IH].
    destruct Hrow as (pred & Hrow). cbv zeta in Hrow.
    destruct Hrow as (_ & -> & -> & -> & _ & -> & -> & -> & ->).
    set (gold := default empty_golden (t_id task ≫= (goldens !!.))).
    destruct (core_counters task pred gold cfg)
      as (Hc1 & Hc2 & _ & _ & _ & _ & _ & _ & Hforb).
    cbv zeta in *.
    split; [exact Hc1 |]. split; [exact Hc2 |]. split; [| split].
    - intros Hov. apply faithful_overall_one in Hov. destruct Hov as [Hrate Hf0].
      destruct (core_rate_one task pred gold cfg Hrate) as [Hpos Heq].
      split; [| auto].
      unfold map_w2_labels. cbn [primary]. rewrite Hf0. cbn [Z.eqb negb].
      destruct (Z.ltb_spec (anchors_found (_deterministic_core task pred gold cfg))
                  (anchors_required (_deterministic_core task pred gold cfg)));
        [lia |].
      destruct (Z.ltb_spec (anchors_faithful (_deterministic_core task pred gold cfg))
                  (anchors_required (_deterministic_core task pred gold cfg)));
        [lia | reflexivity].
    - unfold map_w2_labels. cbn [primary].
      unfold LABEL_FORBIDDEN_CLAIM, LABEL_ANCHORS_MISSING, LABEL_ANCHORS_UNFAITHFUL,
        LABEL_OK.
      destruct Hforb as [-> | ->]; cbn [Z.eqb negb];
        repeat match goal with |- context [if ?c then _ else _] => destruct c end;
        split; intros; try reflexivity; try discriminate.
    - intros Hov. apply faithful_overall_one in Hov. apply Hov. }
  split; [| split; [| split; [| split]]].
  - clear Hall. clearbody rows.
    induction Hrows as [| task row tasks' rows' Hrow _ IH]; [reflexivity |].
    destruct Hrow as (pred & Hid & _). cbn [map]. rewrite Hid, IH. reflexivity.
  - eapply Forall_impl; [exact Hall |]. cbv beta. tauto.
  - cbn [w2_summary pass_overall pass_det_core]. unfold w2_rate.
    apply ratio_le; [| lia]. apply inj_le.
    clear Hrows. induction Hall as [| row rows' Hrow _ IH]; [reflexivity |].
    cbn [List.filter].
    destruct Hrow as (_ & _ & Hone & _ & Hrate).
    destruct (Z.eqb_spec (w2_faithful_overall row) 1) as [H1 | Hn1].
    + destruct (Hone H1) as (_ & _ & _ & Hf0). rewrite (Hrate H1), Hf0.
      cbn [andb Z.eqb length]. lia.
    + destruct (_ && _); cbn [length]; lia.
  - cbn [w2_summary pass_det_core]. unfold w2_rate.
    apply ratio_bounds; [| lia]. split; [lia |].
    match goal with
    | |- context [List.filter ?c rows] =>
        pose proof (List.filter_length_le c rows)
    end.
    lia.
  - cbn [w2_summary pass_overall]. unfold w2_rate.
    apply ratio_bounds; [| lia].
    match goal with
    | |- context [List.filter ?c rows] =>
        pose proof (List.filter_length_le c rows)
    end.
    lia.
Qed.

End WithSUT.

End ChangeImpactProps.

(** ** Strings: suffixes and replacement *)

Module StringProps.

Import Variants.
Import VariantWords.

Lemma length_app_string (a b : string) :
  String.length (a ++ b) = (String.length a + String.length b)%nat.
Proof.
  induction a as [| c a IH]; [reflexivity |].
  change (String c a ++ b) with (String c (a ++ b)). cbn [String.length].
  rewrite IH. reflexivity.
Qed.

Lemma substring_whole (s : string) : String.substring 0 (String.length s) s = s.
Proof. induction s as [| c s IH]; cbn; [reflexivity | rewrite IH; reflexivity]. Qed.

Lemma str_drop_length (n : nat) (s : string) :
  String.length (str_drop n s) = (String.length s - n)%nat.
Proof.
  unfold str_drop. revert n. induction s as [| c s IH]; intros n.
  - destruct n; reflexivity.
  - destruct n as [| n].
    + rewrite Nat.sub_0_r, substring_whole. reflexivity.
    + cbn [String.length String.substring Nat.sub]. apply IH.
Qed.

Lemma str_drop_prefix (p s : string) : str_drop (String.length p) (p ++ s) = s.
Proof.
  unfold str_drop. induction p as [| c p IH].
  - change ("" ++ s) with s. cbn [String.length]. rewrite Nat.sub_0_r.
    apply substring_whole.
  - change (String c p ++ s) with (String c (p ++ s)).
    cbn [String.length String.substring Nat.sub]. exact IH.
Qed.

Lemma str_take_drop (n : nat) (s : string) :
  (n <= String.length s)%nat -> s = String.substring 0 n s ++ str_drop n s.
Proof.
  unfold str_drop. revert n. induction s as [| c s IH]; intros n Hn.
  - cbn [String.length] in Hn. replace n with 0%nat by lia. reflexivity.
  - destruct n as [| n].
    + rewrite Nat.sub_0_r, substring_whole. reflexivity.
    + cbn [String.length] in Hn.
      cbn [String.length String.substring Nat.sub].
      change (String c (String.substring 0 n s) ++ String.substring n (String.length s - n) s)
        with (String c (String.substring 0 n s
                        ++ String.substring n (String.length s - n) s)).
      rewrite <- IH by lia. reflexivity.
Qed.

(** [s.endswith(suffix)] *)
Lemma endswith_iff (s suffix : string) :
  endswith s suffix = true <-> exists pre, s = pre ++ suffix.
Proof.
  unfold endswith. rewrite andb_true_iff, Nat.leb_le, String.eqb_eq. split.
  - intros [Hlen Hdrop].
    exists (String.substring 0 (String.length s - String.length suffix) s).
    rewrite <- Hdrop at 2. apply str_take_drop. lia.
  - intros (pre & ->). rewrite length_app_string. split; [lia |].
    replace (String.length pre + String.length suffix - String.length suffix)%nat
      with (String.length pre) by lia.
    apply str_drop_prefix.
Qed.

Lemma str_last_app (p q : string) : q <> "" -> str_last (p ++ q) = str_last q.
Proof.
  intros Hq. induction p as [| c p IH]; [reflexivity |].
  change (String c p ++ q) with (String c (p ++ q)). cbn [str_last].
  destruct (p ++ q) eqn:E; [| exact IH].
  exfalso. apply (f_equal String.length) in E. rewrite length_app_string in E.
  destruct q; [congruence | cbn [String.length] in E; lia].
Qed.

Lemma prefix_app_self (old post : string) : String.prefix old (old ++ post) = true.
Proof.
  induction old as [| c old IH]; [destruct post; reflexivity |].
  change (String c old ++ post) with (String c (old ++ post)). cbn [String.prefix].
  destruct (ascii_dec c c); [exact IH | congruence].
Qed.

Lemma replace_from_length_ge (fuel : nat) (old new s : string) :
  (String.length old <= String.length new)%nat ->
  (String.length s <= String.length (replace_from fuel old new s))%nat.
Proof.
  intros Hlen. revert s. induction fuel as [| fuel IH]; intros s; [cbn; lia |].
  cbn [replace_from]. destruct (String.prefix old s).
  - rewrite length_app_string.
    specialize (IH (str_drop (String.length old) s)).
    rewrite str_drop_length in IH. lia.
  - destruct s as [| c s]; [cbn; lia |]. cbn [String.length].
    specialize (IH s). lia.
Qed.

Lemma replace_from_length_gt (fuel : nat) (old new pre post : string) :
  (String.length old < String.length new)%nat ->
  (String.length pre < fuel)%nat ->
  (String.length (pre ++ old ++ post)
   < String.length (replace_from fuel old new (pre ++ old ++ post)))%nat.
Proof.
  intros Hlen. revert fuel. induction pre as [| c pre IH]; intros fuel Hfuel.
  - destruct fuel as [| fuel]; [cbn in Hfuel; lia |].
    change ("" ++ old ++ post) with (old ++ post).
    cbn [replace_from]. rewrite prefix_app_self, length_app_string.
    pose proof (replace_from_length_ge fuel old new
                  (str_drop (String.length old) (old ++ post)) ltac:(lia)) as Hge.
    rewrite str_drop_length in Hge.
    rewrite !length_app_string in *. lia.
  - destruct fuel as [| fuel]; [lia |]. cbn [String.length] in Hfuel.
    cbn [replace_from].
    destruct (String.prefix old (String c pre ++ old ++ post)) eqn:Ep.
    + rewrite length_app_string.
      pose proof (replace_from_length_ge fuel old new
                    (str_drop (String.length old) (String c pre ++ old ++ post))
                    ltac:(lia)) as Hge.
      rewrite str_drop_length in Hge.
      rewrite !length_app_string in *. lia.
    + change (String c pre ++ old ++ post) with (String c (pre ++ old ++ post)).
      cbn [String.length]. specialize (IH fuel ltac:(lia)). lia.
Qed.

Lemma string_app_nil (s : string) : s ++ "" = s.
Proof.
  induction s as [| c s IH]; [reflexivity |].
  change (String c s ++ "") with (String c (s ++ "")). rewrite IH. reflexivity.
Qed.

Lemma replace_suffix_longer (s old new : string) :
  (String.length old < String.length new)%nat ->
  endswith s old = true ->
  (String.length s < String.length (replace s old new))%nat.
Proof.
  intros Hlen Hend. apply endswith_iff in Hend. destruct Hend as (pre & ->).
  unfold replace.
  pose proof (replace_from_length_gt (S (String.length (pre ++ old))) old new pre ""
                Hlen) as H.
  rewrite string_app_nil in H. apply H.
  rewrite length_app_string. lia.
Qed.

Lemma endswith_last (s suffix : string) (c : ascii) :
  endswith s suffix = true -> str_last suffix = Some c -> str_last s = Some c.
Proof.
  intros Hend Hlast. apply endswith_iff in Hend. destruct Hend as (pre & ->).
  rewrite str_last_app; [exact Hlast |]. intros ->. discriminate.
Qed.

(** X19: [near_name] returns its argument unchanged exactly for the empty
    symbol and for symbols that end in [s]; it never shortens a symbol, and
    every other symbol gets strictly longer. *)
Theorem near_name_changes_unless_plural (symbol : string) :
  (near_name symbol = symbol <-> symbol = "" \/ endswith symbol "s" = true)
  /\ (String.length symbol <= String.length (near_name symbol))%nat
  /\ (symbol <> "" -> endswith symbol "s" = false ->
      (String.length symbol < String.length (near_name symbol))%nat).
Proof.
  assert (Hs : endswith symbol "s" = true ->
               endswith symbol "_display" = false
               /\ endswith symbol "_create" = false
               /\ endswith symbol "_init" = false).
  { intros H. pose proof (endswith_last symbol "s" "s"%char H eq_refl) as Hl.
    repeat split; apply not_true_iff_false; intros H';
      [ pose proof (endswith_last symbol "_display" "y"%char H' eq_refl)
      | pose proof (endswith_last symbol "_create" "e"%char H' eq_refl)
      | pose proof (endswith_last symbol "_init" "t"%char H' eq_refl) ];
      congruence. }
  assert (Hlonger : symbol <> "" -> endswith symbol "s" = false ->
                    (String.length symbol < String.length (near_name symbol))%nat).
  { intros Hne Hns. unfold near_name.
    destruct (String.eqb_spec symbol ""); [contradiction |].
    destruct (endswith symbol "_display") eqn:E1;
      [apply replace_suffix_longer; [cbn; lia | exact E1] |].
    destruct (endswith symbol "_create") eqn:E2;
      [apply replace_suffix_longer; [cbn; lia | exact E2] |].
    destruct (endswith symbol "_init") eqn:E3;
      [apply replace_suffix_longer; [cbn; lia | exact E3] |].
    rewrite Hns. cbn [negb]. rewrite length_app_string. cbn. lia. }
  assert (Hsame : symbol = "" \/ endswith symbol "s" = true -> near_name symbol = symbol).
  { intros [-> | H]; [reflexivity |]. unfold near_name.
    destruct (Hs H) as (-> & -> & ->). rewrite H.
    destruct (String.eqb symbol ""); reflexivity. }
  split; [split |]; [| exact Hsame | split; [| exact Hlonger]].
  - intros Heq. destruct (String.eqb_spec symbol "") as [-> | Hne]; [auto |].
    destruct (endswith symbol "s") eqn:E; [auto |].
    pose proof (Hlonger Hne eq_refl) as Hlt. rewrite Heq in Hlt. lia.
  - destruct (String.eqb_spec symbol "") as [-> | Hne]; [cbn; lia |].
    destruct (endswith symbol "s") eqn:E.
    + rewrite Hsame by auto. lia.
    + pose proof (Hlonger Hne eq_refl). lia.
Qed.

End StringProps.

(** ** The variant generator *)

Module VariantsProps.

Import Variants SpecWords VariantWords.
Import VariantWords StringProps.

Lemma variants_of_golden_spec (limit : Z) (golden : Golden) (kinds : list string)
    (st : GenState) :
  numbered st ->
  numbered (variants_of_golden limit golden kinds st)
  /\ generated (variants_of_golden limit golden kinds st)
     = Nat.max (generated st)
         (Nat.min (generated st + known_kinds kinds) (Z.to_nat limit)).
Proof.
  revert st. induction kinds as [| kind kinds IH]; intros st Hnum;
    cbn [variants_of_golden].
  - split; [exact Hnum |]. unfold known_kinds. cbn. lia.
  - unfold known_kinds. cbn [List.filter].
    destruct (Z.geb_spec (Z.of_nat (generated st)) limit) as [Hge | Hlt].
    { split; [exact Hnum |]. lia. }
    destruct (methods kind) as [method_func |] eqn:Em.
    + rewrite bool_decide_eq_true_2 by eauto. cbn [length].
      match goal with
      | |- context [variants_of_golden limit golden kinds ?st'] =>
          destruct (IH st') as [Hn Hg]
      end.
      { destruct Hnum as [Ht Hgo]. split; cbn [variant_tasks variant_goldens generated].
        - rewrite map_app, Ht, seq_S, map_app. reflexivity.
        - rewrite map_app, Hgo, seq_S, map_app. reflexivity. }
      split; [exact Hn |]. rewrite Hg. cbn [generated]. fold (known_kinds kinds). lia.
    + rewrite bool_decide_eq_false_2 by (intros [? ?]; discriminate).
      destruct (IH st Hnum) as [Hn Hg]. split; [exact Hn |].
      rewrite Hg. fold (known_kinds kinds). lia.
Qed.

Lemma generate_variants_from_spec (limit : Z) (kinds : list string)
    (goldens : list Golden) (st : GenState) :
  numbered st ->
  numbered (generate_variants_from limit kinds goldens st)
  /\ generated (generate_variants_from limit kinds goldens st)
     = Nat.max (generated st)
         (Nat.min (generated st + length goldens * known_kinds kinds) (Z.to_nat limit)).
Proof.
  revert st. induction goldens as [| golden goldens IH]; intros st Hnum;
    cbn [generate_variants_from].
  - split; [exact Hnum |]. cbn. lia.
  - destruct (Z.geb_spec (Z.of_nat (generated st)) limit) as [Hge | Hlt].
    { split; [exact Hnum |]. lia. }
    destruct (variants_of_golden_spec limit golden kinds st Hnum) as [Hn1 Hg1].
    destruct (IH _ Hn1) as [Hn Hg]. split; [exact Hn |].
    rewrite Hg, Hg1. cbn [length]. rewrite Nat.mul_succ_l. lia.
Qed.

(** X20: [generate_variants] produces one variant per golden and known
    kind, in that order, until the limit is reached: the count is the minimum
    of the two, the task and golden lists have that length, and a limit of 0 or
    less produces nothing. *)
Theorem generate_variants_count (goldens : list Golden) (limit : Z)
    (kinds : list string) :
  let st := generate_variants goldens limit kinds in
  generated st = Nat.min (length goldens * known_kinds kinds) (Z.to_nat limit)
  /\ length (variant_tasks st) = generated st
  /\ length (variant_goldens st) = generated st
  /\ Z.of_nat (generated st) <= Z.max limit 0
  /\ (limit <= 0 -> variant_tasks st = [] /\ variant_goldens st = []).
Proof.
  cbv zeta. unfold generate_variants.
  destruct (generate_variants_from_spec limit kinds goldens (mkGenState 0 [] []))
    as [[Ht Hg] Hcount]; [split; reflexivity |].
  cbn [generated] in Hcount. rewrite Nat.add_0_l, Nat.max_0_l in Hcount.
  assert (Hlt : length (variant_tasks (generate_variants_from limit kinds goldens
                                         (mkGenState 0 [] [])))
                = generated (generate_variants_from limit kinds goldens
                               (mkGenState 0 [] []))).
  { rewrite <- (length_map t_id), Ht, length_map, length_seq. reflexivity. }
  assert (Hlg : length (variant_goldens (generate_variants_from limit kinds goldens
                                           (mkGenState 0 [] [])))
                = generated (generate_variants_from limit kinds goldens
                               (mkGenState 0 [] []))).
  { rewrite <- (length_map g_task_id), Hg, length_map, length_seq. reflexivity. }
  split; [exact Hcount |]. split; [exact Hlt |]. split; [exact Hlg |].
  split; [lia |].
  intros Hle. rewrite Hcount in Hlt, Hlg.
  replace (Z.to_nat limit) with 0%nat in Hlt, Hlg by lia.
  rewrite Nat.min_0_r in Hlt, Hlg.
  split; [destruct (variant_tasks _) | destruct (variant_goldens _)];
    try reflexivity; discriminate.
Qed.

Lemma parse_zeros (k : nat) (digits : string) :
  option_map Nat.of_uint
    (NilEmpty.uint_of_string (String.concat "" (repeat "0" k) ++ digits))
  = option_map Nat.of_uint (NilEmpty.uint_of_string digits).
Proof.
  induction k as [| k IH]; [reflexivity |].
  assert (Hcat : String.concat "" (repeat "0" (S k)) ++ digits
                 = String "0" (String.concat "" (repeat "0" k) ++ digits)).
  { cbn [repeat String.concat]. destruct (repeat "0" k) eqn:E; reflexivity. }
  rewrite Hcat. cbn [NilEmpty.uint_of_string]. rewrite <- IH.
  destruct (NilEmpty.uint_of_string _); reflexivity.
Qed.

Lemma id_number_variant_id_of (i : nat) : id_number (variant_id_of i) = Some (S i).
Proof.
  unfold id_number, variant_id_of.
  set (digits := NilZero.string_of_uint (Nat.to_uint (S i))).
  set (pad := String.concat "" (repeat "0" (3 - String.length digits))).
  assert (Hdrop : str_drop 7 ("W1-VAR-" ++ pad ++ digits) = pad ++ digits).
  { apply (str_drop_prefix "W1-VAR-"). }
  rewrite Hdrop. subst pad. rewrite parse_zeros. subst digits.
  assert (Hparse : option_map Nat.of_uint
                     (NilEmpty.uint_of_string
                        (NilZero.string_of_uint (Nat.to_uint (S i))))
                   = Some (Nat.of_uint (Nat.to_uint (S i)))).
  { destruct (Nat.to_uint (S i)) eqn:E; cbn [NilZero.string_of_uint];
      try (rewrite NilEmpty.usu; reflexivity).
    reflexivity. }
  rewrite Hparse, Stdlib.Numbers.DecimalNat.Unsigned.of_to. reflexivity.
Qed.

Lemma variant_id_of_inj (i j : nat) : variant_id_of i = variant_id_of j -> i = j.
Proof.
  intros H. apply (f_equal id_number) in H.
  rewrite !id_number_variant_id_of in H. congruence.
Qed.

(** X21: [generate_variants] numbers the variants consecutively from 1 in
    generation order: task and golden of a variant carry the same id, no id is
    used twice, and the id of the i-th variant (from 0) spells the number
    i + 1. *)
Theorem generate_variants_ids (goldens : list Golden) (limit : Z) (kinds : list string) :
  let st := generate_variants goldens limit kinds in
  map t_id (variant_tasks st)
  = map (fun i => Some (variant_id_of i)) (seq 0 (generated st))
  /\ map g_task_id (variant_goldens st) = map t_id (variant_tasks st)
  /\ List.NoDup (map t_id (variant_tasks st))
  /\ (forall i, id_number (variant_id_of i) = Some (S i)).
Proof.
  cbv zeta. unfold generate_variants.
  destruct (generate_variants_from_spec limit kinds goldens (mkGenState 0 [] []))
    as [[Ht Hg] _]; [split; reflexivity |].
  split; [exact Ht |]. split; [congruence |]. split; [| apply id_number_variant_id_of].
  rewrite Ht. apply Stdlib.Lists.Finite.Injective_map_NoDup; [| apply seq_NoDup].
  intros i j Hij. apply variant_id_of_inj. congruence.
Qed.

(** *** The re-export layer *)

Lemma split_slash_nonempty (s : string) : split_slash s <> [].
Proof.
  destruct s as [| c s]; cbn [split_slash]; [discriminate |].
  destruct (Ascii.eqb c "/"); [discriminate |].
  destruct (split_slash s); discriminate.
Qed.

Lemma split_slash_no_slash (s : string) : no_slash s -> split_slash s = [s].
Proof.
  unfold no_slash. induction s as [| c s IH]; intros H; [reflexivity |].
  cbn [str_any] in H. apply orb_false_iff in H. destruct H as [Hc Hs].
  cbn [split_slash]. rewrite Hc, (IH Hs). reflexivity.
Qed.

Lemma split_slash_app (a b : string) :
  split_slash (a ++ "/" ++ b) = (split_slash a ++ split_slash b)%list.
Proof.
  induction a as [| c a IH].
  - reflexivity.
  - change (String c a ++ "/" ++ b) with (String c (a ++ "/" ++ b)).
    cbn [split_slash]. rewrite IH.
    destruct (Ascii.eqb c "/"); [reflexivity |].
    destruct (split_slash a) as [| h t] eqn:E; [| reflexivity].
    exfalso. exact (split_slash_nonempty a E).
Qed.

Lemma concat_cons (sep x : string) (l : list string) :
  l <> [] -> String.concat sep (x :: l) = x ++ sep ++ String.concat sep l.
Proof. destruct l; [congruence | reflexivity]. Qed.

(** ['/'.join(s.split('/')) == s] *)
Lemma join_split_slash (s : string) : String.concat "/" (split_slash s) = s.
Proof.
  induction s as [| c s IH]; [reflexivity |].
  cbn [split_slash]. destruct (Ascii.eqb_spec c "/"%char) as [-> | Hne].
  - rewrite concat_cons by apply split_slash_nonempty. rewrite IH. reflexivity.
  - destruct (split_slash s) as [| h t] eqn:E.
    + exfalso. exact (split_slash_nonempty s E).
    + destruct t as [| h' t'].
      * cbn in IH. cbn. rewrite IH. reflexivity.
      * rewrite concat_cons in IH by discriminate.
        rewrite concat_cons by discriminate.
        change (String c h ++ "/" ++ String.concat "/" (h' :: t'))
          with (String c (h ++ "/" ++ String.concat "/" (h' :: t'))).
        rewrite IH. reflexivity.
Qed.

(** X22: [add_reexport_layer] replaces the file name of a path with a
    directory by [index.c] and keeps the directory; a path without a slash is
    returned unchanged. *)
Theorem add_reexport_layer_replaces_file_name :
  (forall dir file, no_slash file ->
     add_reexport_layer (dir ++ "/" ++ file) = dir ++ "/index.c")
  /\ (forall path, no_slash path -> add_reexport_layer path = path).
Proof.
  split.
  - intros dir file Hfile. unfold add_reexport_layer.
    assert (Hne : String.eqb (dir ++ "/" ++ file) "" = false).
    { destruct dir; reflexivity. }
    rewrite Hne, split_slash_app, (split_slash_no_slash file Hfile).
    assert (Hlen : (length (split_slash dir ++ [file]) <? 2)%nat = false).
    { apply Nat.ltb_ge. rewrite length_app. cbn [length].
      pose proof (split_slash_nonempty dir). destruct (split_slash dir);
        [congruence | cbn [length]; lia]. }
    rewrite Hlen, removelast_last, join_split_slash. reflexivity.
  - intros path Hpath. unfold add_reexport_layer.
    destruct (String.eqb path ""); [reflexivity |].
    rewrite (split_slash_no_slash path Hpath). reflexivity.
Qed.

End VariantsProps.

(** ** Loading and the entry point *)

Module MainProps.

Import Config Common RunLocalization RunLocalizationMain SpecWords.
Import CanaryGateFacts.
Import LoadingWords SuiteWords.

Section WithWorld.

Variable pat_search : string -> string -> bool.
Variable subprocess_run : nat -> Task -> Z -> string -> list string -> proc_outcome.
Variable json_loads : string -> option Prediction.
Variable load_tasks_for_workflow : string -> list Task.
Variable read_goldens : string -> list Golden.

Lemma load_fold_lookup (items : list Golden) (m : gmap string Golden) (tid : string) :
  fold_left
    (fun goldens item =>
       if truthy (g_task_id item)
       then <[default "" (g_task_id item) := item]> goldens
       else goldens) items m !! tid
  = match last_where (has_id tid) items with
    | Some item => Some item
    | None => m !! tid
    end.
Proof.
  revert m. induction items as [| item items IH]; intros m; [reflexivity |].
  cbn [fold_left]. rewrite IH. unfold last_where. cbn [List.filter].
  unfold has_id at 2.
  destruct (truthy (g_task_id item)) eqn:Et; cbn [andb].
  - destruct (g_task_id item) as [t |] eqn:Eid; [| discriminate]. cbn [default].
    case_bool_decide as Hd.
    + injection Hd as ->.
      destruct (List.filter (has_id tid) items) as [| x xs] eqn:Ef.
      * cbn. apply lookup_insert_eq.
      * change (last (item :: x :: xs)) with (last (x :: xs)).
        destruct (last (x :: xs)) eqn:El; [reflexivity |].
        apply last_None in El. discriminate.
    + destruct (last (List.filter (has_id tid) items)); [reflexivity |].
      apply lookup_insert_ne. intros Heq. apply Hd. f_equal. exact Heq.
  - reflexivity.
Qed.

(** X23: [load_goldens_jsonl]: the golden stored under a task id is the
    last record, in reading order, that carries this id; every stored golden
    carries its key as a non-empty id and was read from the files; every
    non-empty id that occurs in the files has a golden. *)
Theorem load_goldens_later_record_wins (base_dir tid : string) :
  load_goldens_jsonl read_goldens base_dir !! tid
  = last_where (has_id tid) (read_goldens base_dir)
  /\ (forall g, load_goldens_jsonl read_goldens base_dir !! tid = Some g ->
      g_task_id g = Some tid /\ tid <> "" /\ In g (read_goldens base_dir))
  /\ (tid <> "" ->
      (exists g, In g (read_goldens base_dir) /\ g_task_id g = Some tid) ->
      is_Some (load_goldens_jsonl read_goldens base_dir !! tid)).
Proof.
  assert (Hlookup : load_goldens_jsonl read_goldens base_dir !! tid
                    = last_where (has_id tid) (read_goldens base_dir)).
  { unfold load_goldens_jsonl. rewrite load_fold_lookup.
    destruct (last_where _ _); [reflexivity | apply lookup_empty]. }
  split; [exact Hlookup |]. split.
  - intros g Hg. rewrite Hlookup in Hg. unfold last_where in Hg.
    apply last_Some in Hg. destruct Hg as (l' & Hl').
    assert (Hin : In g (List.filter (has_id tid) (read_goldens base_dir))).
    { rewrite Hl'. apply in_or_app. right. left. reflexivity. }
    apply filter_In in Hin. destruct Hin as [Hin Hid].
    unfold has_id in Hid. apply andb_true_iff in Hid. destruct Hid as [Ht Hd].
    apply bool_decide_eq_true in Hd. split; [exact Hd |]. split; [| exact Hin].
    rewrite Hd in Ht. cbn in Ht. intros ->. discriminate.
  - intros Hne (g & Hin & Hid). rewrite Hlookup. unfold last_where.
    assert (Hf : In g (List.filter (has_id tid) (read_goldens base_dir))).
    { apply filter_In. split; [exact Hin |]. unfold has_id. rewrite Hid. cbn.
      rewrite bool_decide_eq_true_2 by reflexivity.
      destruct (String.eqb_spec tid ""); [contradiction | reflexivity]. }
    destruct (List.filter (has_id tid) (read_goldens base_dir)) as [| x xs] eqn:E;
      [destruct Hf |].
    destruct (last (x :: xs)) eqn:El; [eauto |].
    apply last_None in El. discriminate.
Qed.

(** X24: the loading part of [_run_suite]: with one golden directory the
    goldens are those of [load_goldens_jsonl]; with a base and a variants
    directory a golden of the variants directory replaces the one of the base
    directory with the same id; the tasks of the directories are concatenated
    in the order of the directories. *)
Theorem load_suite_later_directory_wins (tasks_dirs : list string)
    (base_dir variants_dir : string) (tid : string) :
  snd (load_suite load_tasks_for_workflow read_goldens tasks_dirs [base_dir])
  = load_goldens_jsonl read_goldens base_dir
  /\ snd (load_suite load_tasks_for_workflow read_goldens tasks_dirs
            [base_dir; variants_dir]) !! tid
     = match load_goldens_jsonl read_goldens variants_dir !! tid with
       | Some g => Some g
       | None => load_goldens_jsonl read_goldens base_dir !! tid
       end
  /\ fst (load_suite load_tasks_for_workflow read_goldens [base_dir; variants_dir] [])
     = (load_tasks_for_workflow base_dir ++ load_tasks_for_workflow variants_dir)%list.
Proof.
  unfold load_suite. cbn [fst snd fold_left map concat]. split; [| split].
  - apply (right_id_L ∅ (∪)).
  - rewrite (right_id_L ∅ (∪)), lookup_union.
    destruct (load_goldens_jsonl read_goldens variants_dir !! tid),
      (load_goldens_jsonl read_goldens base_dir !! tid); reflexivity.
  - rewrite app_nil_r. reflexivity.
Qed.

Lemma run_suite_dirs_counts (tasks_dirs goldens_dirs : list string) (cfg : EvalConfig)
    (n : nat) :
  let tasks := concat (map load_tasks_for_workflow tasks_dirs) in
  length (fst (run_suite_dirs pat_search subprocess_run json_loads
                 load_tasks_for_workflow read_goldens tasks_dirs goldens_dirs cfg n))
  = length tasks
  /\ snd (run_suite_dirs pat_search subprocess_run json_loads load_tasks_for_workflow
            read_goldens tasks_dirs goldens_dirs cfg n)
     = (n + length tasks)%nat.
Proof.
  cbv zeta. unfold run_suite_dirs, load_suite.
  apply CommonFacts.run_suite_one_process_per_task.
Qed.

Lemma canary_gate_counts (cfg : EvalConfig) (paths : Paths) (n : nat) :
  snd (canary_gate pat_search subprocess_run json_loads load_tasks_for_workflow
         read_goldens cfg paths n)
  = (n + length (load_tasks_for_workflow
                   (path_join (canary paths) "w1_localization")))%nat
  /\ (fst (fst (canary_gate pat_search subprocess_run json_loads
                  load_tasks_for_workflow read_goldens cfg paths n)) = 0
      \/ fst (fst (canary_gate pat_search subprocess_run json_loads
                     load_tasks_for_workflow read_goldens cfg paths n)) = 1).
Proof.
  unfold canary_gate.
  destruct (run_suite_dirs_counts [path_join (canary paths) "w1_localization"]
              [path_join (goldens paths) "w1_localization"] cfg n) as [_ Hcount].
  cbv zeta in Hcount. cbn [map concat] in Hcount. rewrite app_nil_r in Hcount.
  destruct (run_suite_dirs _ _ _ _ _ _ _ cfg n) as [rows n1]. cbn [fst snd] in *.
  split; [exact Hcount |].
  destruct (gate_verdict_code cfg rows) as [(Hc & _) | (Hc & _)]; auto.
Qed.

(** X25: [main] of the localization run: a dry run starts no SUT process;
    in canary mode the run exits with the code of the gate after the canaries
    alone; in the other modes a failed gate with fail-fast set exits with
    code 1 after the canaries alone, so no scenario task is run. *)
Theorem main_stops_after_failed_gate (args : Args) (cfg : EvalConfig) (paths : Paths)
    (variants_enabled : bool) (n : nat) :
  let gate :=
    canary_gate pat_search subprocess_run json_loads load_tasks_for_workflow
      read_goldens cfg paths n in
  let canaries :=
    load_tasks_for_workflow (path_join (canary paths) "w1_localization") in
  let result :=
    main pat_search subprocess_run json_loads load_tasks_for_workflow read_goldens
      args cfg paths variants_enabled n in
  (dry_run args = true -> result = (DryRunPrinted, n))
  /\ (dry_run args = false -> suite args = SuiteCanary ->
      result = (SysExit (fst (fst gate)), (n + length canaries)%nat))
  /\ (dry_run args = false -> suite args <> SuiteCanary ->
      fst (fst gate) <> 0 -> fail_fast_on_canary (run cfg) = true ->
      result = (SysExit 1, (n + length canaries)%nat)).
Proof.
  cbv zeta. unfold main.
  destruct (canary_gate_counts cfg paths n) as [Hcount Hcode].
  destruct (canary_gate pat_search subprocess_run json_loads load_tasks_for_workflow
              read_goldens cfg paths n) as [verdict n1].
  cbn [fst snd] in *. subst n1.
  split; [intros ->; reflexivity |]. split.
  - intros -> ->. reflexivity.
  - intros -> Hsuite Hfail ->.
    assert (Hone : fst verdict = 1) by (destruct Hcode; congruence).
    rewrite Hone. destruct (suite args); reflexivity.
Qed.


End WithWorld.


End MainProps.
